(** * image-tools: the stitching page (src/pages/Home.vue)

    A shallow embedding of the script of [Home.vue]: the reactive
    references of the component become one record of state, every
    handler ([onFileSelect], [stitchImages], [downloadStitchedImage],
    [moveImageUp], [moveImageDown], [removeImage], [onFileClear]) becomes
    a computation in a small state-and-exception monad, and the browser
    (canvas contexts, the PNG encoder, the clock) is an explicit
    environment.  The conditions of the template that decide which
    controls can be used are boolean functions of the state.

    JavaScript numbers that hold pixel counts are integers ([Z]); the two
    places where the script leaves the integers, [img.width / img.height]
    and the product or quotient with the target extent, are computed in
    IEEE 754 binary64 with round-to-nearest-even, as the language
    prescribes. *)

From Stdlib Require Import ZArith QArith Qabs Qround Lqa Lia Bool List.
From Stdlib Require Import String Ascii DecimalString Permutation.
From Stdlib Require Floats.SpecFloat.
Import ListNotations.

Local Open Scope Z_scope.

(* ===================================================================== *)
(** ** JavaScript numbers *)
(* ===================================================================== *)

Module JSNumber.

(** A Number: NaN, the two infinities, or a finite value kept as the
    exact rational it denotes.  The sign of zero is not kept: every
    operand of this program is an unsigned pixel count or derived from
    such counts by [*], [/], [Math.min] and [Math.max]. *)
Inductive number : Type :=
| NaN
| PosInf
| NegInf
| Finite (q : Q).

Definition of_Z (z : Z) : number := Finite (inject_Z z).

(** Nearest integer to [n / d] for [d > 0], ties to the even neighbour. *)
Definition rne_div (n d : Z) : Z :=
  let q := n / d in
  match 2 * (n mod d) ?= d with
  | Lt => q
  | Gt => q + 1
  | Eq => if Z.even q then q else q + 1
  end.

(** Whether [2 ^ k <= n / d], for positive [n] and [d] and any integer
    [k]. *)
Definition ratio_ge_pow2 (n d k : Z) : bool :=
  if 0 <=? k then d * 2 ^ k <=? n else d <=? n * 2 ^ (- k).

(** [floor (log2 (n / d))] for positive [n] and [d]. *)
Definition ilog2_ratio (n d : Z) : Z :=
  let k := Z.log2 n - Z.log2 d in
  if ratio_ge_pow2 n d k then k else k - 1.

(** binary64 rounding of the positive rational [n / d]: a significand of
    53 bits, exponents down to that of the subnormals (2^-1074), overflow
    to infinity from 2^1024 on. *)
Definition round_pos (n d : Z) : number :=
  let e := Z.max (ilog2_ratio n d - 52) (- 1074) in
  if 0 <=? e then
    let m := rne_div n (d * 2 ^ e) in
    if 2 ^ 1024 <=? m * 2 ^ e then PosInf else Finite (inject_Z (m * 2 ^ e))
  else
    let m := rne_div (n * 2 ^ (- e)) d in
    Finite (m # Z.to_pos (2 ^ (- e))).

Definition negate (x : number) : number :=
  match x with
  | NaN => NaN
  | PosInf => NegInf
  | NegInf => PosInf
  | Finite q => Finite (- q)
  end.

Definition round_b64 (q : Q) : number :=
  match Qnum q with
  | Z0 => Finite 0
  | Zpos n => round_pos (Zpos n) (Zpos (Qden q))
  | Zneg n => negate (round_pos (Zpos n) (Zpos (Qden q)))
  end.

Definition is_neg (q : Q) : bool := Qnum q <? 0.
Definition is_zero (q : Q) : bool := Qnum q =? 0.
Definition signed_inf (neg : bool) : number := if neg then NegInf else PosInf.

(** [x * y] *)
Definition js_mul (x y : number) : number :=
  match x, y with
  | NaN, _ | _, NaN => NaN
  | Finite a, Finite b => round_b64 (a * b)
  | Finite a, PosInf | PosInf, Finite a =>
      if is_zero a then NaN else signed_inf (is_neg a)
  | Finite a, NegInf | NegInf, Finite a =>
      if is_zero a then NaN else signed_inf (negb (is_neg a))
  | PosInf, PosInf | NegInf, NegInf => PosInf
  | PosInf, NegInf | NegInf, PosInf => NegInf
  end.

(** [x / y] *)
Definition js_div (x y : number) : number :=
  match x, y with
  | NaN, _ | _, NaN => NaN
  | Finite a, Finite b =>
      if is_zero b then (if is_zero a then NaN else signed_inf (is_neg a))
      else round_b64 (a / b)
  | Finite _, (PosInf | NegInf) => Finite 0
  | PosInf, Finite b => signed_inf (is_neg b)
  | NegInf, Finite b => signed_inf (negb (is_neg b))
  | (PosInf | NegInf), (PosInf | NegInf) => NaN
  end.

(** [Math.min(...l)] and [Math.max(...l)] over integer arguments: with no
    argument they are [Infinity] and [-Infinity]. *)
Definition Math_min (l : list Z) : number :=
  match l with
  | [] => PosInf
  | x :: r => of_Z (fold_left Z.min r x)
  end.

Definition Math_max (l : list Z) : number :=
  match l with
  | [] => NegInf
  | x :: r => of_Z (fold_left Z.max r x)
  end.

(** A Number converted to the IDL type [unsigned long]: NaN and the
    infinities become 0, a finite value loses its fraction
    ([to_integer]) and is reduced modulo 2^32. *)
Definition to_integer (x : number) : Z :=
  match x with
  | Finite q => Z.quot (Qnum q) (Zpos (Qden q))
  | _ => 0
  end.

Definition to_unsigned_long (x : number) : Z := to_integer x mod 2 ^ 32.

(** Storing a Number in the [width] or [height] attribute of a canvas.
    Both reflect a content attribute of type [unsigned long] with a
    default, 300 for [width] and 150 for [height]: the setter converts
    the Number, and a value above 2147483647 is replaced by the
    default. *)
Definition to_dim (default : Z) (x : number) : Z :=
  let v := to_unsigned_long x in
  if v <=? 2147483647 then v else default.

(** The same value read from the standard library's specification of
    IEEE 754 arithmetic, used to cross-check [round_b64]. *)
Definition of_spec_float (f : SpecFloat.spec_float) : number :=
  match f with
  | SpecFloat.S754_zero _ => Finite 0
  | SpecFloat.S754_infinity s => signed_inf s
  | SpecFloat.S754_nan => NaN
  | SpecFloat.S754_finite s m e =>
      let v := if 0 <=? e then inject_Z (Zpos m * 2 ^ e)
               else Zpos m # Z.to_pos (2 ^ (- e)) in
      Finite (if s then - v else v)
  end.

Definition spec_of_Z (z : Z) : SpecFloat.spec_float :=
  SpecFloat.binary_normalize 53 1024 z 0 false.

Definition number_eqb (x y : number) : bool :=
  match x, y with
  | NaN, NaN | PosInf, PosInf | NegInf, NegInf => true
  | Finite a, Finite b => Qeq_bool a b
  | _, _ => false
  end.

End JSNumber.

Import JSNumber.

(* ===================================================================== *)
(** ** JavaScript arrays *)
(* ===================================================================== *)

Module JSArray.

(** An array of [A] is a list of slots; [None] is a slot that holds
    [undefined] (or a hole, which reads as [undefined]). *)
Definition array (A : Type) : Type := list (option A).

(** [arr[i]]: [undefined] outside [0 .. length - 1]. *)
Definition get {A} (arr : array A) (i : Z) : option A :=
  if i <? 0 then None
  else match nth_error arr (Z.to_nat i) with
       | Some slot => slot
       | None => None
       end.

Fixpoint set_nat {A} (arr : array A) (n : nat) (v : option A) : array A :=
  match arr, n with
  | _ :: rest, O => v :: rest
  | x :: rest, S n' => x :: set_nat rest n' v
  | [], O => [v]
  | [], S n' => None :: set_nat [] n' v
  end.

(** [arr[i] = v]: an index below the length overwrites the slot, an index
    at or past the length grows the array up to it, and a negative index
    names an ordinary property, which leaves the elements alone. *)
Definition set {A} (arr : array A) (i : Z) (v : option A) : array A :=
  if i <? 0 then arr else set_nat arr (Z.to_nat i) v.

(** [arr.splice(start, 1)]: a negative [start] counts from the end, and
    at most one element is removed. *)
Definition splice1 {A} (arr : array A) (start : Z) : array A :=
  let len := Z.of_nat (List.length arr) in
  let from := if start <? 0 then Z.max (len + start) 0 else Z.min start len in
  let count := Z.min 1 (len - from) in
  (firstn (Z.to_nat from) arr ++ skipn (Z.to_nat (from + count)) arr)%list.

End JSArray.

(* ===================================================================== *)
(** ** The component *)
(* ===================================================================== *)

Local Open Scope string_scope.

(** [interface UploadedImage]; of the [File] only the name is kept. *)
Record UploadedImage : Type := mkUploadedImage {
  file : string;
  url : string;
  width : Z;
  height : Z
}.

(** An [HTMLImageElement] whose [onload] has fired. *)
Record HTMLImageElement : Type := mkImage {
  img_src : string;
  img_width : Z;
  img_height : Z
}.

(** The scratch canvas of the resize pass: its two attributes and the one
    call [ctx.drawImage(img, 0, 0, newWidth, newHeight)] made on it. *)
Record ScratchCanvas : Type := mkScratch {
  sc_width : Z;
  sc_height : Z;
  sc_image : HTMLImageElement;
  sc_dw : number;
  sc_dh : number
}.

(** [HTMLImageElement | HTMLCanvasElement] *)
Inductive ImageSource : Type :=
| ImageEl (img : HTMLImageElement)
| CanvasEl (c : ScratchCanvas).

Definition src_width (s : ImageSource) : Z :=
  match s with
  | ImageEl img => img_width img
  | CanvasEl c => sc_width c
  end.

Definition src_height (s : ImageSource) : Z :=
  match s with
  | ImageEl img => img_height img
  | CanvasEl c => sc_height c
  end.

(** What the script asks of the 2D context of the output canvas. *)
Inductive CanvasOp : Type :=
| FillRect (fillStyle : string) (x y : Z) (w h : number)
| DrawImage (src : ImageSource) (dx dy : Z).

(** The output canvas: its attributes and the calls made on its context,
    oldest first. *)
Record Canvas : Type := mkCanvas {
  canvas_width : Z;
  canvas_height : Z;
  canvas_ops : list CanvasOp
}.

Record Toast : Type := mkToast {
  severity : string;
  summary : string;
  detail : string;
  life : Z
}.

(** A click on a temporary [<a href download>]. *)
Record Download : Type := mkDownload {
  href : string;
  download : string
}.

(** The reactive references of the component, the notifications handed to
    the toast service and the downloads started, newest last. *)
Record State : Type := mkState {
  uploadedImages : JSArray.array UploadedImage;
  stitchedImageUrl : string;
  isStitching : bool;
  layoutSelected : string;
  backgroundSelected : string;
  backgroundColor : string;
  adjustSizeSelected : string;
  toasts : list Toast;
  downloads : list Download
}.

(** The browser: whether [getContext("2d")] answers on the output canvas
    and on the scratch canvas of the image at each position, the encoder
    behind [canvas.toDataURL("image/png")], [Date.now()], and the wording
    of the engine's TypeError for a property read on [undefined] and of
    its InvalidStateError for a canvas without area. *)
Record Env : Type := mkEnv {
  output_context : bool;
  scratch_context : nat -> bool;
  toDataURL : Canvas -> string;
  date_now : Z;
  undefined_read_message : string;
  empty_canvas_message : string
}.

Inductive JSError : Type :=
| Error (message : string)
| TypeError (message : string)
| DOMException (name message : string).

(** String conversion of an error, as in ["..." + error]. *)
Definition error_to_string (e : JSError) : string :=
  match e with
  | Error m => "Error: " ++ m
  | TypeError m => "TypeError: " ++ m
  | DOMException n m => n ++ ": " ++ m
  end.

(** *** Computations: state, environment and exceptions *)

Inductive Completion (A : Type) : Type :=
| Normal (a : A)
| Throw (e : JSError).
Arguments Normal {A} a.
Arguments Throw {A} e.

Definition M (A : Type) : Type := Env -> State -> Completion A * State.

Definition ret {A} (a : A) : M A := fun _ s => (Normal a, s).

Definition bind {A B} (m : M A) (k : A -> M B) : M B :=
  fun env s =>
    match m env s with
    | (Normal a, s') => k a env s'
    | (Throw e, s') => (Throw e, s')
    end.

Definition throw {A} (e : JSError) : M A := fun _ s => (Throw e, s).
Definition gets {A} (f : State -> A) : M A := fun _ s => (Normal (f s), s).
Definition asks {A} (f : Env -> A) : M A := fun env s => (Normal (f env), s).
Definition modify (f : State -> State) : M unit := fun _ s => (Normal tt, f s).

(** [try { body } catch (error) { handler } finally { cleanup }] *)
Definition try_catch_finally (body : M unit) (handler : JSError -> M unit)
    (cleanup : M unit) : M unit :=
  fun env s =>
    let '(r, s1) :=
      match body env s with
      | (Normal a, s') => (Normal a, s')
      | (Throw e, s') => handler e env s'
      end in
    match cleanup env s1 with
    | (Normal _, s2) => (r, s2)
    | (Throw e, s2) => (Throw e, s2)
    end.

Declare Scope js_scope.
Delimit Scope js_scope with js.
Notation "x <- m ;; k" := (bind m (fun x => k))
  (at level 61, m at next level, right associativity) : js_scope.
Notation "m ;; k" := (bind m (fun _ => k))
  (at level 61, right associativity) : js_scope.

(** The state a handler leaves behind. *)
Definition exec {A} (m : M A) (env : Env) (s : State) : State := snd (m env s).

(** *** Assignments to the references *)

Definition set_uploadedImages (v : JSArray.array UploadedImage) (s : State) : State :=
  mkState v (stitchedImageUrl s) (isStitching s) (layoutSelected s)
    (backgroundSelected s) (backgroundColor s) (adjustSizeSelected s)
    (toasts s) (downloads s).

Definition set_stitchedImageUrl (v : string) (s : State) : State :=
  mkState (uploadedImages s) v (isStitching s) (layoutSelected s)
    (backgroundSelected s) (backgroundColor s) (adjustSizeSelected s)
    (toasts s) (downloads s).

Definition set_isStitching (v : bool) (s : State) : State :=
  mkState (uploadedImages s) (stitchedImageUrl s) v (layoutSelected s)
    (backgroundSelected s) (backgroundColor s) (adjustSizeSelected s)
    (toasts s) (downloads s).

Definition set_backgroundSelected (v : string) (s : State) : State :=
  mkState (uploadedImages s) (stitchedImageUrl s) (isStitching s)
    (layoutSelected s) v (backgroundColor s) (adjustSizeSelected s)
    (toasts s) (downloads s).

Definition set_adjustSizeSelected (v : string) (s : State) : State :=
  mkState (uploadedImages s) (stitchedImageUrl s) (isStitching s)
    (layoutSelected s) (backgroundSelected s) (backgroundColor s) v
    (toasts s) (downloads s).

Definition push_toast (t : Toast) (s : State) : State :=
  mkState (uploadedImages s) (stitchedImageUrl s) (isStitching s)
    (layoutSelected s) (backgroundSelected s) (backgroundColor s)
    (adjustSizeSelected s) (toasts s ++ [t])%list (downloads s).

Definition push_download (d : Download) (s : State) : State :=
  mkState (uploadedImages s) (stitchedImageUrl s) (isStitching s)
    (layoutSelected s) (backgroundSelected s) (backgroundColor s)
    (adjustSizeSelected s) (toasts s) (downloads s ++ [d])%list.

(** [toast.add(t)] *)
Definition toast_add (t : Toast) : M unit := modify (push_toast t).

(** [link.click()] on the temporary anchor. *)
Definition link_click (d : Download) : M unit := modify (push_download d).

(** utils.ts: [showToast.success] and [showToast.error] with the default
    [life]. *)
Definition showToast_success (summary detail : string) : M unit :=
  toast_add (mkToast "success" summary detail 3000).

Definition showToast_error (summary detail : string) : M unit :=
  toast_add (mkToast "error" summary detail 3000).

(** *** stitchImages *)

(** The elements of an array when none of its slots is [undefined]. *)
Fixpoint all_defined {A} (arr : JSArray.array A) : option (list A) :=
  match arr with
  | [] => Some []
  | None :: _ => None
  | Some x :: rest =>
      match all_defined rest with
      | Some l => Some (x :: l)
      | None => None
      end
  end.

(** [new Image()] with [src = imgData.url], once [onload] has fired.  The
    element decodes the data URL that [onFileSelect] decoded when it
    recorded [width] and [height], so it reports those two numbers. *)
Definition load_image (imgData : UploadedImage) : HTMLImageElement :=
  mkImage (url imgData) (width imgData) (height imgData).

(** [await Promise.all(uploadedImages.value.map(...))].  A slot holding
    [undefined] makes the read of [imgData.url] (or, for a hole, the later
    read of [img.width]) fail with a TypeError inside the [try]. *)
Definition load_images : M (list HTMLImageElement) :=
  (arr <- gets uploadedImages ;;
   match all_defined arr with
   | Some l => ret (map load_image l)
   | None => msg <- asks undefined_read_message ;; throw (TypeError msg)
   end)%js.

Fixpoint mapi_from {A B} (f : nat -> A -> B) (i : nat) (l : list A) : list B :=
  match l with
  | [] => []
  | x :: rest => f i x :: mapi_from f (S i) rest
  end.

(** The callback of [images.map] in the resize pass, for the image at
    position [i]. *)
Definition resize_image (scratch : nat -> bool) (layout adjust : string)
    (images : list HTMLImageElement) (i : nat) (img : HTMLImageElement)
    : ImageSource :=
  if negb (scratch i) then ImageEl img
  else
    let targetWidth :=
      if layout =? "Horizontal" then of_Z (img_width img)
      else if adjust =? "Min" then Math_min (map img_width images)
      else if adjust =? "Max" then Math_max (map img_width images)
      else of_Z (img_width img) in
    let targetHeight :=
      if layout =? "Horizontal" then
        if adjust =? "Min" then Math_min (map img_height images)
        else if adjust =? "Max" then Math_max (map img_height images)
        else of_Z (img_height img)
      else of_Z (img_height img) in
    let aspectRatio := js_div (of_Z (img_width img)) (of_Z (img_height img)) in
    let newWidth :=
      if layout =? "Horizontal" then js_mul targetHeight aspectRatio
      else targetWidth in
    let newHeight :=
      if layout =? "Horizontal" then targetHeight
      else js_div targetWidth aspectRatio in
    CanvasEl (mkScratch (to_dim 300 newWidth) (to_dim 150 newHeight) img
                newWidth newHeight).

(** The resize pass: [adjustedImages]. *)
Definition adjust_images (scratch : nat -> bool) (layout adjust : string)
    (images : list HTMLImageElement) : list ImageSource :=
  if negb (adjust =? "None")
  then mapi_from (resize_image scratch layout adjust images) 0 images
  else map ImageEl images.

(** The canvas-bounds pass: [(totalWidth, totalHeight)]. *)
Definition canvas_dimensions (layout : string) (adjustedImages : list ImageSource)
    : number * number :=
  if layout =? "Horizontal" then
    (of_Z (fold_left (fun sum img => sum + src_width img) adjustedImages 0),
     Math_max (map src_height adjustedImages))
  else
    (Math_max (map src_width adjustedImages),
     of_Z (fold_left (fun sum img => sum + src_height img) adjustedImages 0)).

(** The colour handed to [ctx.fillStyle]. *)
Definition fill_color (backgroundColor : string) : string :=
  let color := if backgroundColor =? "" then "#ffffff" else backgroundColor in
  if prefix "#" color then color else "#" ++ color.

(** The background fill: the calls it makes on the context. *)
Definition background_fill (background backgroundColor : string)
    (totalWidth totalHeight : number) : list CanvasOp :=
  if background =? "Color"
  then [FillRect (fill_color backgroundColor) 0 0 totalWidth totalHeight]
  else [].

(** [ctx.drawImage] first checks its image argument (HTML standard, "check
    the usability of the image argument"): a canvas whose width or height
    is 0 makes the call throw an InvalidStateError; an image element that
    has been decoded is accepted. *)
Definition usable (src : ImageSource) : bool :=
  match src with
  | ImageEl _ => true
  | CanvasEl c => negb ((sc_width c =? 0)%Z || (sc_height c =? 0)%Z)
  end.

(** The placement loop, from the values [currentX] and [currentY] hold
    when it reaches [adjustedImages]: the calls made on the context, or
    the exception of the first call that is refused. *)
Fixpoint draw_images (refusal layout : string) (adjustedImages : list ImageSource)
    (currentX currentY : Z) : Completion (list CanvasOp) :=
  match adjustedImages with
  | [] => Normal []
  | img :: rest =>
      if usable img then
        if layout =? "Horizontal" then
          match draw_images refusal layout rest (currentX + src_width img) currentY with
          | Normal calls => Normal (DrawImage img currentX 0 :: calls)
          | Throw e => Throw e
          end
        else
          match draw_images refusal layout rest currentX (currentY + src_height img) with
          | Normal calls => Normal (DrawImage img 0 currentY :: calls)
          | Throw e => Throw e
          end
      else Throw (DOMException "InvalidStateError" refusal)
  end.

(** The output canvas once the bounds are set, the background filled and
    the images drawn. *)
Definition compose (refusal layout background backgroundColor : string)
    (adjustedImages : list ImageSource) : Completion Canvas :=
  let '(totalWidth, totalHeight) := canvas_dimensions layout adjustedImages in
  match draw_images refusal layout adjustedImages 0 0 with
  | Normal calls =>
      Normal
        (mkCanvas (to_dim 300 totalWidth) (to_dim 150 totalHeight)
           (background_fill background backgroundColor totalWidth totalHeight
              ++ calls)%list)
  | Throw e => Throw e
  end.

(** A step that completes or throws, as a computation. *)
Definition complete {A} (c : Completion A) : M A := fun _ s => (c, s).

(** The body of the [try] block up to the encoding: the canvas drawn. *)
Definition render : M Canvas :=
  (ctx <- asks output_context ;;
   if negb ctx then throw (Error "Failed to get canvas context")
   else
     images <- load_images ;;
     scratch <- asks scratch_context ;;
     refusal <- asks empty_canvas_message ;;
     layout <- gets layoutSelected ;;
     adjust <- gets adjustSizeSelected ;;
     background <- gets backgroundSelected ;;
     color <- gets backgroundColor ;;
     complete (compose refusal layout background color
                 (adjust_images scratch layout adjust images)))%js.

Definition insufficient_images : Toast :=
  mkToast "error" "Insufficient Images"
    "Please upload at least 2 images to stitch." 3000.

(** The call from its first line to its last, taken as one step: the
    [await] on the image elements is passed at once, with nothing running
    between the part before it and the part after it.  The two parts are
    given on their own further down, for what happens when something does
    run between them. *)
Definition stitchImages : M unit :=
  (arr <- gets uploadedImages ;;
   if (List.length arr <? 2)%nat then toast_add insufficient_images
   else
     modify (set_isStitching true) ;;
     try_catch_finally
       (canvas <- render ;;
        encode <- asks toDataURL ;;
        modify (set_stitchedImageUrl (encode canvas)))
       (fun error =>
          showToast_error "Stitching Failed"
            ("Failed to stitch images: " ++ error_to_string error))
       (modify (set_isStitching false)))%js.

(** *** The other handlers

    [moveImageUp], [moveImageDown] and [removeImage] end with a call of
    [stitchImages] that they do not await.  Here that call is run to its
    end inside the handler, which is what happens when nothing else runs
    before its images have loaded; the list and the settings a handler
    leaves do not depend on it, since the composite writes neither. *)

Definition Z_to_string (z : Z) : string := NilZero.string_of_int (Z.to_int z).

Definition downloadStitchedImage : M unit :=
  (u <- gets stitchedImageUrl ;;
   if u =? "" then
     showToast_error "No Image" "No stitched image available to download."
   else
     now <- asks date_now ;;
     link_click (mkDownload u ("stitched-image-" ++ Z_to_string now ++ ".png")) ;;
     showToast_success "Download Started" "Stitched image download has started.")%js.

Definition moveImageUp (index : Z) : M unit :=
  (if (0 <? index)%Z then
     temp <- gets (fun s => JSArray.get (uploadedImages s) index) ;;
     modify (fun s =>
       set_uploadedImages
         (JSArray.set (uploadedImages s) index
            (JSArray.get (uploadedImages s) (index - 1))) s) ;;
     modify (fun s =>
       set_uploadedImages (JSArray.set (uploadedImages s) (index - 1) temp) s) ;;
     modify (set_stitchedImageUrl "") ;;
     stitchImages
   else ret tt)%js.

Definition moveImageDown (index : Z) : M unit :=
  (len <- gets (fun s => Z.of_nat (List.length (uploadedImages s))) ;;
   if (index <? len - 1)%Z then
     temp <- gets (fun s => JSArray.get (uploadedImages s) index) ;;
     modify (fun s =>
       set_uploadedImages
         (JSArray.set (uploadedImages s) index
            (JSArray.get (uploadedImages s) (index + 1))) s) ;;
     modify (fun s =>
       set_uploadedImages (JSArray.set (uploadedImages s) (index + 1) temp) s) ;;
     modify (set_stitchedImageUrl "") ;;
     stitchImages
   else ret tt)%js.

Definition removeImage (index : Z) : M unit :=
  (modify (fun s =>
     set_uploadedImages (JSArray.splice1 (uploadedImages s) index) s) ;;
   modify (set_stitchedImageUrl "") ;;
   arr <- gets uploadedImages ;;
   (if (List.length arr =? 0)%nat then
      modify (set_backgroundSelected "Transparent") ;;
      modify (set_adjustSizeSelected "None")
    else ret tt) ;;
   stitchImages)%js.

Definition onFileClear : M unit :=
  (modify (set_uploadedImages []) ;;
   modify (set_stitchedImageUrl "") ;;
   toast_add (mkToast "info" "Files Cleared"
                "All uploaded images have been cleared." 3000))%js.

(** The component as it is mounted. *)
Definition initial_state : State :=
  mkState [] "" false "Horizontal" "Transparent" "#ffffff" "None" [] [].

(** *** stitchImages around its await

    [stitchImages] is an [async] function with one [await]: the call runs
    up to it at once, and the rest runs after the images have loaded.
    [stitchImages_begin] is the first part; it yields what
    [Promise.all] will settle with when the call is suspended there, and
    nothing when the call has already ended. *)

(** The [catch] clause of [stitchImages]. *)
Definition report_failure (error : JSError) : M unit :=
  showToast_error "Stitching Failed"
    ("Failed to stitch images: " ++ error_to_string error).

Definition stitchImages_begin : M (option (Completion (list HTMLImageElement))) :=
  (arr <- gets uploadedImages ;;
   if (List.length arr <? 2)%nat then toast_add insufficient_images ;; ret None
   else
     modify (set_isStitching true) ;;
     ctx <- asks output_context ;;
     if negb ctx then
       try_catch_finally (throw (Error "Failed to get canvas context"))
         report_failure (modify (set_isStitching false)) ;;
       ret None
     else
       msg <- asks undefined_read_message ;;
       ret (Some match all_defined arr with
                 | Some l => Normal (map load_image l)
                 | None => Throw (TypeError msg)
                 end))%js.

(** The part after the [await], for the images (or the rejection) it
    yields. *)
Definition stitchImages_resume (settled : Completion (list HTMLImageElement))
    : M unit :=
  try_catch_finally
    (images <- complete settled ;;
     scratch <- asks scratch_context ;;
     refusal <- asks empty_canvas_message ;;
     layout <- gets layoutSelected ;;
     adjust <- gets adjustSizeSelected ;;
     background <- gets backgroundSelected ;;
     color <- gets backgroundColor ;;
     canvas <- complete (compose refusal layout background color
                           (adjust_images scratch layout adjust images)) ;;
     encode <- asks toDataURL ;;
     modify (set_stitchedImageUrl (encode canvas)))%js
    report_failure
    (modify (set_isStitching false)).

(** A call with nothing else happening between its two parts. *)
Definition stitchImages_in_two_parts : M unit :=
  (pending <- stitchImages_begin ;;
   match pending with
   | Some settled => stitchImages_resume settled
   | None => ret tt
   end)%js.

(** *** onFileSelect *)

(** A [File] of the selection: its name and its MIME type. *)
Record File : Type := mkFile {
  file_name : string;
  file_type : string
}.

(** A file whose [FileReader] and [Image] have both fired [onload]: the
    data URL read and the size decoded. *)
Record LoadedFile : Type := mkLoadedFile {
  loaded_file : File;
  loaded_url : string;
  loaded_width : Z;
  loaded_height : Z
}.

Definition is_image_file (f : File) : bool := prefix "image/" (file_type f).

Definition invalid_files : Toast :=
  mkToast "error" "Invalid Files" "Please select image files only." 3000.

(** The handler itself: it filters the selection and starts a reader for
    every image file; the result is the list [imageFiles] the readers were
    started for. *)
Definition onFileSelect (files : list File) : M (list File) :=
  (if (0 <? List.length files)%nat then
     let imageFiles := filter is_image_file files in
     if (List.length imageFiles =? 0)%nat
     then toast_add invalid_files ;; ret []
     else ret imageFiles
   else ret [])%js.

Definition imageData (l : LoadedFile) : UploadedImage :=
  mkUploadedImage (file_name (loaded_file l)) (loaded_url l)
    (loaded_width l) (loaded_height l).

Definition files_uploaded (imageFiles : list File) : Toast :=
  mkToast "success" "Files Uploaded"
    (Z_to_string (Z.of_nat (List.length imageFiles))
       ++ " image(s) uploaded successfully.") 3000.

(** [img.onload] for one file, with the value the shared counter
    [loadRemaining] has when it fires: the new value of the counter, and
    the composite left suspended, if one was started. *)
Definition image_onload (imageFiles : list File) (l : LoadedFile)
    (loadRemaining : Z)
    : M (Z * option (Completion (list HTMLImageElement))) :=
  (modify (fun s =>
     set_uploadedImages (uploadedImages s ++ [Some (imageData l)])%list s) ;;
   let loadRemaining := (loadRemaining - 1)%Z in
   if (loadRemaining =? 0)%Z then
     pending <- stitchImages_begin ;;
     showToast_success "Files Uploaded"
       (Z_to_string (Z.of_nat (List.length imageFiles))
          ++ " image(s) uploaded successfully.") ;;
     ret (loadRemaining, pending)
   else ret (loadRemaining, None))%js.

(** The [onload] callbacks of the files [loaded], in the order in which
    they fire, followed by the rest of the composite one of them left
    suspended. *)
Fixpoint image_onloads (imageFiles : list File) (loaded : list LoadedFile)
    (loadRemaining : Z) : M unit :=
  match loaded with
  | [] => ret tt
  | l :: rest =>
      (r <- image_onload imageFiles l loadRemaining ;;
       image_onloads imageFiles rest (fst r) ;;
       match snd r with
       | Some settled => stitchImages_resume settled
       | None => ret tt
       end)%js
  end.

(** A selection from the handler to the last callback: [loaded] are the
    image files that finish loading, in the order in which they do. *)
Definition upload (files : list File) (loaded : list LoadedFile) : M unit :=
  (imageFiles <- onFileSelect files ;;
   match imageFiles with
   | [] => ret tt
   | _ :: _ =>
       image_onloads imageFiles loaded (Z.of_nat (List.length imageFiles))
   end)%js.

(** *** The template *)

(** [:disabled] of the two move buttons of the image at [index]. *)
Definition move_up_disabled (index : Z) : bool := (index =? 0)%Z.

Definition move_down_disabled (s : State) (index : Z) : bool :=
  (index =? Z.of_nat (List.length (uploadedImages s)) - 1)%Z.

(** [v-if] of the card with the stitching controls and of the download
    button. *)
Definition controls_shown (s : State) : bool :=
  (2 <=? List.length (uploadedImages s))%nat.

Definition download_shown (s : State) : bool :=
  negb (stitchedImageUrl s =? "").

(** The colour the template shows as the current one. *)
Definition displayed_color (s : State) : string := "#" ++ backgroundColor s.

(* ===================================================================== *)
(** ** Vocabulary of the statements *)
(* ===================================================================== *)

Definition stitching_failed (e : JSError) : Toast :=
  mkToast "error" "Stitching Failed"
    ("Failed to stitch images: " ++ error_to_string e) 3000.

(** The images the resize pass hands on, for the elements [imgs] of the
    upload list. *)
Definition adjusted_of (env : Env) (s : State) (imgs : list UploadedImage)
    : list ImageSource :=
  adjust_images (scratch_context env) (layoutSelected s) (adjustSizeSelected s)
    (map load_image imgs).

(** Every call of the placement loop is accepted. *)
Definition drawable (adjusted : list ImageSource) : Prop :=
  forallb usable adjusted = true.

(** The calls of the placement loop when each of them is accepted. *)
Fixpoint draw_calls (layout : string) (adjusted : list ImageSource)
    (currentX currentY : Z) : list CanvasOp :=
  match adjusted with
  | [] => []
  | img :: rest =>
      if layout =? "Horizontal"
      then DrawImage img currentX 0
             :: draw_calls layout rest (currentX + src_width img) currentY
      else DrawImage img 0 currentY
             :: draw_calls layout rest currentX (currentY + src_height img)
  end.

(** The canvas a composite over [imgs] draws when every call of the
    placement loop is accepted. *)
Definition canvas_of (env : Env) (s : State) (imgs : list UploadedImage) : Canvas :=
  let adjusted := adjusted_of env s imgs in
  let '(totalWidth, totalHeight) := canvas_dimensions (layoutSelected s) adjusted in
  mkCanvas (to_dim 300 totalWidth) (to_dim 150 totalHeight)
    (background_fill (backgroundSelected s) (backgroundColor s)
       totalWidth totalHeight
     ++ draw_calls (layoutSelected s) adjusted 0 0)%list.

Definition refused (env : Env) : JSError :=
  DOMException "InvalidStateError" (empty_canvas_message env).

Definition Zsum (l : list Z) : Z := fold_right Z.add 0 l.

Definition is_maximum (m : Z) (l : list Z) : Prop :=
  In m l /\ Forall (fun x => x <= m) l.

Definition is_minimum (m : Z) (l : list Z) : Prop :=
  In m l /\ Forall (fun x => m <= x) l.

(** The target extent of the resize pass: the least, or the greatest, of
    the extents across the axis. *)
Definition is_target (adjust : string) (T : Z) (extents : list Z) : Prop :=
  (adjust = "Min" /\ is_minimum T extents)
  \/ (adjust = "Max" /\ is_maximum T extents).

Definition is_draw (op : CanvasOp) : Prop :=
  match op with
  | DrawImage _ _ _ => True
  | FillRect _ _ _ _ _ => False
  end.

(** A value the [width] or [height] attribute of a canvas can hold. *)
Definition storable (z : Z) : Prop := 0 <= z <= 2147483647.

(** A decoded image reports no negative side. *)
Definition natural_size (d : UploadedImage) : Prop :=
  0 <= width d /\ 0 <= height d.

(** An image with an area: each side at least 1 and a value a canvas
    attribute can hold. *)
Definition positive_size (d : UploadedImage) : Prop :=
  0 < width d <= 2147483647 /\ 0 < height d <= 2147483647.

(** Half the distance between 1 and the next binary64 number. *)
Definition unit_roundoff : Q := 1 # 9007199254740992.

(** A bound on the sides of an image, 32768 pixels: below it every
    extent of a resized image is below 2^30, which the attribute of its
    scratch canvas holds.  (The sum of several such extents need not
    be.) *)
Definition pixel_limit : Z := 2 ^ 15.

Definition decodable (d : UploadedImage) : Prop :=
  (0 < width d < pixel_limit)%Z /\ (0 < height d < pixel_limit)%Z.

(** *** The rounding checked against the standard library

    [agrees w h t] compares [w / h], [t * (w / h)] and [t / (w / h)] as
    computed here with the same operations of [SpecFloat] at the precision
    and exponent range of binary64. *)
Definition agrees (w h t : Z) : bool :=
  let r := js_div (of_Z w) (of_Z h) in
  let f := SpecFloat.SFdiv 53 1024 (spec_of_Z w) (spec_of_Z h) in
  number_eqb r (of_spec_float f)
  && number_eqb (js_mul (of_Z t) r)
       (of_spec_float (SpecFloat.SFmul 53 1024 (spec_of_Z t) f))
  && number_eqb (js_div (of_Z t) r)
       (of_spec_float (SpecFloat.SFdiv 53 1024 (spec_of_Z t) f)).

Definition sample_extents : list Z :=
  [1; 2; 3; 7; 10; 49; 60; 100; 1080; 32767].

Definition agrees_on_samples : bool :=
  forallb (fun w =>
    forallb (fun h =>
      forallb (fun t => agrees w h t) sample_extents) sample_extents)
    sample_extents.

(** *** A browser and a list of images to run the handlers on *)

Definition sample_encoder (c : Canvas) : string :=
  "data:image/png;base64," ++ Z_to_string (canvas_width c) ++ "x"
    ++ Z_to_string (canvas_height c).

(** A browser in which every canvas has a 2D context. *)
Definition browser : Env :=
  mkEnv true (fun _ => true) sample_encoder 1700000000000
    "Cannot read properties of undefined"
    "The image argument is a canvas element with a width or height of 0.".

(** A browser that gives no context for the output canvas. *)
Definition browser_without_context : Env :=
  mkEnv false (fun _ => false) sample_encoder 1700000000000
    "Cannot read properties of undefined"
    "The image argument is a canvas element with a width or height of 0.".

(** A browser that gives a context for every canvas but the scratch canvas
    of the first image. *)
Definition browser_without_first_scratch : Env :=
  mkEnv true (fun i => negb (Nat.eqb i 0)) sample_encoder 1700000000000
    "Cannot read properties of undefined"
    "The image argument is a canvas element with a width or height of 0.".

Definition image_A : UploadedImage := mkUploadedImage "a.png" "data:a" 100 50.
Definition image_B : UploadedImage := mkUploadedImage "b.png" "data:b" 80 60.

(** The two images of the scenarios, uploaded into a fresh component. *)
Definition two_images : State :=
  set_uploadedImages [Some image_A; Some image_B] initial_state.

(** Two images whose quotients are not whole numbers, and two of equal
    height, all with the policy Min. *)
Definition image_C : UploadedImage := mkUploadedImage "c.png" "data:c" 10 3.
Definition image_D : UploadedImage := mkUploadedImage "d.png" "data:d" 5 2.
Definition image_E : UploadedImage := mkUploadedImage "e.png" "data:e" 1 49.
Definition image_F : UploadedImage := mkUploadedImage "f.png" "data:f" 49 49.

Definition thin_images : State :=
  set_adjustSizeSelected "Min"
    (set_uploadedImages [Some image_C; Some image_D] initial_state).

Definition strip_images : State :=
  set_adjustSizeSelected "Min"
    (set_uploadedImages [Some image_E; Some image_F] initial_state).

(** Three images 32767 pixels wide and 1 high next to one 1 wide and 32767
    high, with the policy Max: each of the three is resized to a width of
    32767 * 32767. *)
Definition image_W : UploadedImage := mkUploadedImage "w.png" "data:w" 32767 1.
Definition image_T : UploadedImage := mkUploadedImage "t.png" "data:t" 1 32767.

Definition wide_images : State :=
  set_adjustSizeSelected "Max"
    (set_uploadedImages
       [Some image_W; Some image_W; Some image_W; Some image_T] initial_state).

(** The two images with the policy Max and a coloured background, and
    the component after their composite. *)
Definition configured : State :=
  set_adjustSizeSelected "Max" (set_backgroundSelected "Color" two_images).

Definition composited : State := exec stitchImages browser configured.

(** The list after the [onload] callbacks of [loaded] have pushed their
    entries. *)
Definition with_loaded (loaded : list LoadedFile) (s : State) : State :=
  set_uploadedImages
    (uploadedImages s ++ map (fun l => Some (imageData l)) loaded)%list s.

(** What the last [onload] callback of a selection sets off: the first
    part of a composite, the "Files Uploaded" message, and later the rest
    of the composite. *)
Definition last_onload (imageFiles : list File) : M unit :=
  (pending <- stitchImages_begin ;;
   toast_add (files_uploaded imageFiles) ;;
   match pending with
   | Some settled => stitchImages_resume settled
   | None => ret tt
   end)%js.

(** What the part of a composite after the [await] draws, or throws, in
    the state [s]. *)
Definition resumed (env : Env) (s : State)
    (settled : Completion (list HTMLImageElement)) : Completion Canvas :=
  match settled with
  | Normal images =>
      compose (empty_canvas_message env) (layoutSelected s)
        (backgroundSelected s) (backgroundColor s)
        (adjust_images (scratch_context env) (layoutSelected s)
           (adjustSizeSelected s) images)
  | Throw e => Throw e
  end.

(** What [Promise.all] settles with for the list of the state [s]. *)
Definition settled_of (env : Env) (s : State)
    : Completion (list HTMLImageElement) :=
  match all_defined (uploadedImages s) with
  | Some l => Normal (map load_image l)
  | None => Throw (TypeError (undefined_read_message env))
  end.

Definition files_cleared : Toast :=
  mkToast "info" "Files Cleared" "All uploaded images have been cleared." 3000.

Definition no_image : Toast :=
  mkToast "error" "No Image" "No stitched image available to download." 3000.

(** *** A selection of files to run the upload on *)

Definition file_A : File := mkFile "a.png" "image/png".
Definition file_B : File := mkFile "b.png" "image/png".
Definition text_file : File := mkFile "notes.txt" "text/plain".

Definition loaded_A : LoadedFile := mkLoadedFile file_A "data:a" 100 50.
Definition loaded_B : LoadedFile := mkLoadedFile file_B "data:b" 80 60.

(** An image 1 pixel wide and 100 high next to the 49x49 one, with the
    policy Min. *)
Definition image_G : UploadedImage := mkUploadedImage "g.png" "data:g" 1 100.

Definition narrow_images : State :=
  set_adjustSizeSelected "Min"
    (set_uploadedImages [Some image_G; Some image_F] initial_state).

(* ===================================================================== *)
(** ** How the composite call runs *)
(* ===================================================================== *)

Lemma draw_images_accepted (refusal layout : string) (adjusted : list ImageSource)
    (x y : Z) :
  drawable adjusted ->
  draw_images refusal layout adjusted x y = Normal (draw_calls layout adjusted x y).
Proof.
  unfold drawable. revert x y.
  induction adjusted as [|img rest IH]; intros x y H; [reflexivity|].
  simpl in H. apply andb_true_iff in H. destruct H as [Hu Hr].
  simpl. rewrite Hu. destruct (layout =? "Horizontal"); rewrite (IH _ _ Hr); reflexivity.
Qed.

Lemma draw_images_refused (refusal layout : string) (adjusted : list ImageSource)
    (x y : Z) :
  ~ drawable adjusted ->
  draw_images refusal layout adjusted x y
  = Throw (DOMException "InvalidStateError" refusal).
Proof.
  unfold drawable. revert x y.
  induction adjusted as [|img rest IH]; intros x y H; [contradiction H; reflexivity|].
  simpl in *. destruct (usable img); [|reflexivity].
  destruct (layout =? "Horizontal"); rewrite (IH _ _ H); reflexivity.
Qed.

Lemma render_keeps_state (env : Env) (s : State) : snd (render env s) = s.
Proof.
  unfold render, load_images, bind, asks, gets, throw, ret, complete; simpl.
  destruct (output_context env); simpl; [|reflexivity].
  destruct (all_defined (uploadedImages s)); reflexivity.
Qed.

Lemma render_no_context (env : Env) (s : State) :
  output_context env = false ->
  render env s = (Throw (Error "Failed to get canvas context"), s).
Proof.
  intros H. unfold render, bind, asks, throw; simpl. rewrite H. reflexivity.
Qed.

Lemma render_defined (env : Env) (s : State) (imgs : list UploadedImage) :
  output_context env = true ->
  all_defined (uploadedImages s) = Some imgs ->
  drawable (adjusted_of env s imgs) ->
  render env s = (Normal (canvas_of env s imgs), s).
Proof.
  intros Hc Hd Hu.
  unfold render, load_images, bind, asks, gets, ret, complete.
  rewrite Hc. cbn [negb]. cbv beta iota. rewrite Hd.
  unfold compose, canvas_of. fold (adjusted_of env s imgs).
  destruct (canvas_dimensions (layoutSelected s) (adjusted_of env s imgs)) as [tw th].
  rewrite (draw_images_accepted _ _ _ 0 0 Hu). reflexivity.
Qed.

Lemma render_refused (env : Env) (s : State) (imgs : list UploadedImage) :
  output_context env = true ->
  all_defined (uploadedImages s) = Some imgs ->
  ~ drawable (adjusted_of env s imgs) ->
  render env s = (Throw (refused env), s).
Proof.
  intros Hc Hd Hu.
  unfold render, load_images, bind, asks, gets, ret, complete.
  rewrite Hc. cbn [negb]. cbv beta iota. rewrite Hd.
  unfold compose. fold (adjusted_of env s imgs).
  destruct (canvas_dimensions (layoutSelected s) (adjusted_of env s imgs)) as [tw th].
  rewrite (draw_images_refused _ _ _ 0 0 Hu). reflexivity.
Qed.

Lemma render_undefined (env : Env) (s : State) :
  output_context env = true ->
  all_defined (uploadedImages s) = None ->
  render env s = (Throw (TypeError (undefined_read_message env)), s).
Proof.
  intros Hc Hd.
  unfold render, load_images, bind, asks, gets, throw.
  rewrite Hc. cbn [negb]. cbv beta iota. rewrite Hd. reflexivity.
Qed.

Lemma stitchImages_insufficient (env : Env) (s : State) :
  (List.length (uploadedImages s) < 2)%nat ->
  stitchImages env s = (Normal tt, push_toast insufficient_images s).
Proof.
  intros H. apply Nat.ltb_lt in H.
  unfold stitchImages, bind, gets; simpl. rewrite H. reflexivity.
Qed.

(** With two images or more the call sets the flag, runs the [try] block
    and ends in one of two states. *)
Lemma stitchImages_attempt (env : Env) (s : State) :
  (2 <= List.length (uploadedImages s))%nat ->
  stitchImages env s =
    (Normal tt,
     match fst (render env (set_isStitching true s)) with
     | Normal canvas =>
         set_isStitching false
           (set_stitchedImageUrl (toDataURL env canvas) (set_isStitching true s))
     | Throw e =>
         set_isStitching false
           (push_toast (stitching_failed e) (set_isStitching true s))
     end).
Proof.
  intros H. apply Nat.ltb_ge in H.
  unfold stitchImages. unfold bind at 1. unfold gets at 1. rewrite H.
  unfold bind at 1. unfold modify at 1.
  unfold try_catch_finally, bind at 1.
  pose proof (render_keeps_state env (set_isStitching true s)) as Hs.
  destruct (render env (set_isStitching true s)) as [[c|e] s1]; simpl in Hs; subst s1.
  - reflexivity.
  - reflexivity.
Qed.

Lemma all_defined_length {A} (arr : JSArray.array A) (l : list A) :
  all_defined arr = Some l -> List.length l = List.length arr.
Proof.
  revert l. induction arr as [|[x|] rest IH]; simpl; intros l H.
  - injection H as <-. reflexivity.
  - destruct (all_defined rest) as [l'|]; [|discriminate].
    injection H as <-. simpl. f_equal. apply IH. reflexivity.
  - discriminate.
Qed.

Lemma all_defined_map_Some {A} (l : list A) : all_defined (map Some l) = Some l.
Proof.
  induction l as [|x l IH]; simpl; [reflexivity|]. rewrite IH. reflexivity.
Qed.

(** A composite over two or more decoded images, with a context on the
    output canvas and every call of the placement loop accepted, stores the
    encoding of [canvas_of]. *)
Lemma stitchImages_success (env : Env) (s : State) (imgs : list UploadedImage) :
  all_defined (uploadedImages s) = Some imgs ->
  (2 <= List.length imgs)%nat ->
  output_context env = true ->
  drawable (adjusted_of env s imgs) ->
  stitchImages env s =
    (Normal tt,
     set_isStitching false
       (set_stitchedImageUrl
          (toDataURL env (canvas_of env (set_isStitching true s) imgs))
          (set_isStitching true s))).
Proof.
  intros Hd Hl Hc Hu.
  rewrite stitchImages_attempt by (rewrite <- (all_defined_length _ _ Hd); exact Hl).
  rewrite (render_defined env (set_isStitching true s) imgs Hc Hd Hu). reflexivity.
Qed.

(* ===================================================================== *)
(** ** Sums, extrema and positions *)
(* ===================================================================== *)

Lemma to_integer_of_Z (z : Z) : to_integer (of_Z z) = z.
Proof. unfold to_integer, of_Z, inject_Z; simpl. apply Z.quot_1_r. Qed.

(** A value the attribute can hold is stored as it is. *)
Lemma to_dim_in_range (default : Z) (x : number) :
  0 <= to_integer x <= 2147483647 -> to_dim default x = to_integer x.
Proof.
  intros H. unfold to_dim, to_unsigned_long. cbv zeta.
  rewrite Z.mod_small by (change (2 ^ 32) with 4294967296; lia).
  destruct (Z.leb_spec (to_integer x) 2147483647); [reflexivity | lia].
Qed.

Lemma to_dim_of_Z (default z : Z) :
  0 <= z <= 2147483647 -> to_dim default (of_Z z) = z.
Proof.
  intros H. rewrite to_dim_in_range; rewrite to_integer_of_Z; [reflexivity | exact H].
Qed.

(** What the attribute holds is never negative and never above
    2147483647, and never above a value that is not negative. *)
Lemma to_dim_range (default : Z) (x : number) :
  0 <= default <= 2147483647 -> 0 <= to_dim default x <= 2147483647.
Proof.
  intros H. unfold to_dim, to_unsigned_long. cbv zeta.
  pose proof (Z.mod_pos_bound (to_integer x) (2 ^ 32) ltac:(reflexivity)) as B.
  destruct (Z.leb_spec (to_integer x mod 2 ^ 32) 2147483647); lia.
Qed.

Lemma to_dim_below (default z : Z) :
  0 <= default <= 2147483647 -> 0 <= z -> to_dim default (of_Z z) <= z.
Proof.
  intros Hd Hz. unfold to_dim, to_unsigned_long. cbv zeta.
  rewrite to_integer_of_Z.
  pose proof (Z.mod_le z (2 ^ 32) Hz ltac:(reflexivity)) as B.
  destruct (Z.leb_spec (z mod 2 ^ 32) 2147483647) as [L|L]; [exact B|lia].
Qed.

Lemma fold_left_max_spec (r : list Z) (x : Z) :
  is_maximum (fold_left Z.max r x) (x :: r).
Proof.
  revert x. induction r as [|y r IH]; intros x; simpl.
  - split; [left; reflexivity | constructor; [lia | constructor]].
  - destruct (IH (Z.max x y)) as [Hin Hall]. split.
    + destruct Hin as [Hin | Hin]; [|right; right; exact Hin].
      rewrite <- Hin. destruct (Z.max_spec x y) as [[_ ->] | [_ ->]]; simpl; auto.
    + inversion Hall as [|? ? Hm Hr]; subst.
      constructor; [lia | constructor; [lia | exact Hr]].
Qed.

Lemma fold_left_min_spec (r : list Z) (x : Z) :
  is_minimum (fold_left Z.min r x) (x :: r).
Proof.
  revert x. induction r as [|y r IH]; intros x; simpl.
  - split; [left; reflexivity | constructor; [lia | constructor]].
  - destruct (IH (Z.min x y)) as [Hin Hall]. split.
    + destruct Hin as [Hin | Hin]; [|right; right; exact Hin].
      rewrite <- Hin. destruct (Z.min_spec x y) as [[_ ->] | [_ ->]]; simpl; auto.
    + inversion Hall as [|? ? Hm Hr]; subst.
      constructor; [lia | constructor; [lia | exact Hr]].
Qed.

Lemma Math_max_spec (l : list Z) :
  l <> [] -> exists m, Math_max l = of_Z m /\ is_maximum m l.
Proof.
  destruct l as [|x r]; [congruence|]. intros _.
  exists (fold_left Z.max r x). split; [reflexivity | apply fold_left_max_spec].
Qed.

Lemma Math_min_spec (l : list Z) :
  l <> [] -> exists m, Math_min l = of_Z m /\ is_minimum m l.
Proof.
  destruct l as [|x r]; [congruence|]. intros _.
  exists (fold_left Z.min r x). split; [reflexivity | apply fold_left_min_spec].
Qed.

Lemma is_maximum_unique (a b : Z) (l : list Z) :
  is_maximum a l -> is_maximum b l -> a = b.
Proof.
  intros [Ha Hla] [Hb Hlb]. rewrite Forall_forall in Hla, Hlb.
  specialize (Hla b Hb). specialize (Hlb a Ha). lia.
Qed.

Lemma is_minimum_unique (a b : Z) (l : list Z) :
  is_minimum a l -> is_minimum b l -> a = b.
Proof.
  intros [Ha Hla] [Hb Hlb]. rewrite Forall_forall in Hla, Hlb.
  specialize (Hla b Hb). specialize (Hlb a Ha). lia.
Qed.

(** The [reduce] of the bounds pass adds up the list. *)
Lemma reduce_sum {A} (f : A -> Z) (l : list A) (acc : Z) :
  fold_left (fun sum x => sum + f x) l acc = acc + Zsum (map f l).
Proof.
  revert acc. induction l as [|x l IH]; intros acc; simpl.
  - lia.
  - rewrite IH. lia.
Qed.

Lemma mapi_from_length {A B} (f : nat -> A -> B) (i : nat) (l : list A) :
  List.length (mapi_from f i l) = List.length l.
Proof.
  revert i. induction l as [|x l IH]; intros i; simpl; [reflexivity|].
  f_equal. apply IH.
Qed.

Lemma mapi_from_nth {A B} (f : nat -> A -> B) (i k : nat) (l : list A) (x : A) :
  nth_error l k = Some x ->
  nth_error (mapi_from f i l) k = Some (f (i + k)%nat x).
Proof.
  revert i k. induction l as [|y l IH]; intros i k H.
  - destruct k; discriminate.
  - destruct k as [|k]; simpl in *.
    + injection H as ->. rewrite Nat.add_0_r. reflexivity.
    + rewrite (IH (S i) k H). do 2 f_equal. lia.
Qed.

Lemma adjust_images_length scratch layout adjust (images : list HTMLImageElement) :
  List.length (adjust_images scratch layout adjust images) = List.length images.
Proof.
  unfold adjust_images. destruct (negb (adjust =? "None")).
  - apply mapi_from_length.
  - apply length_map.
Qed.

(** With the policy None the pass hands on the decoded images. *)
Lemma adjust_images_None scratch layout (images : list HTMLImageElement) :
  adjust_images scratch layout "None" images = map ImageEl images.
Proof. reflexivity. Qed.

Lemma adjusted_of_length env s imgs :
  List.length (adjusted_of env s imgs) = List.length imgs.
Proof.
  unfold adjusted_of. rewrite adjust_images_length. apply length_map.
Qed.

Lemma adjusted_of_busy env s imgs :
  adjusted_of env (set_isStitching true s) imgs = adjusted_of env s imgs.
Proof. reflexivity. Qed.

Lemma canvas_of_busy env s imgs :
  canvas_of env (set_isStitching true s) imgs = canvas_of env s imgs.
Proof. reflexivity. Qed.

(** The bounds pass on a list that is not empty yields two integers. *)
Lemma canvas_dimensions_Horizontal (adjusted : list ImageSource) :
  adjusted <> [] ->
  exists H,
    canvas_dimensions "Horizontal" adjusted
      = (of_Z (Zsum (map src_width adjusted)), of_Z H)
    /\ is_maximum H (map src_height adjusted).
Proof.
  intros Hne.
  destruct (Math_max_spec (map src_height adjusted)) as [H [HM Hmax]].
  { destruct adjusted; [congruence | discriminate]. }
  exists H. split; [|exact Hmax].
  unfold canvas_dimensions. simpl String.eqb. cbv iota.
  rewrite reduce_sum, HM. reflexivity.
Qed.

Lemma canvas_dimensions_other (layout : string) (adjusted : list ImageSource) :
  (layout =? "Horizontal") = false ->
  adjusted <> [] ->
  exists W,
    canvas_dimensions layout adjusted
      = (of_Z W, of_Z (Zsum (map src_height adjusted)))
    /\ is_maximum W (map src_width adjusted).
Proof.
  intros Hl Hne.
  destruct (Math_max_spec (map src_width adjusted)) as [W [HM Hmax]].
  { destruct adjusted; [congruence | discriminate]. }
  exists W. split; [|exact Hmax].
  unfold canvas_dimensions. rewrite Hl, reduce_sum, HM. reflexivity.
Qed.

Lemma canvas_dimensions_integral (layout : string) (adjusted : list ImageSource) :
  adjusted <> [] ->
  exists W H, canvas_dimensions layout adjusted = (of_Z W, of_Z H).
Proof.
  intros Hne. destruct (layout =? "Horizontal") eqn:Hl.
  - apply String.eqb_eq in Hl. subst layout.
    destruct (canvas_dimensions_Horizontal adjusted Hne) as [H [E _]].
    rewrite E. eauto.
  - destruct (canvas_dimensions_other layout adjusted Hl Hne) as [W [E _]].
    rewrite E. eauto.
Qed.

(** Where the placement loop puts the image at position [i]. *)
Lemma draw_calls_Horizontal (adjusted : list ImageSource) (x y : Z) (i : nat)
    (src : ImageSource) :
  nth_error adjusted i = Some src ->
  nth_error (draw_calls "Horizontal" adjusted x y) i
    = Some (DrawImage src (x + Zsum (map src_width (firstn i adjusted))) 0).
Proof.
  revert x i. induction adjusted as [|a rest IH]; intros x i H.
  - destruct i; discriminate.
  - destruct i as [|i]; simpl in H.
    + injection H as ->. simpl. rewrite Z.add_0_r. reflexivity.
    + change (draw_calls "Horizontal" (a :: rest) x y)
        with (DrawImage a x 0 :: draw_calls "Horizontal" rest (x + src_width a) y).
      simpl nth_error. rewrite (IH _ _ H). simpl. do 2 f_equal. lia.
Qed.

Lemma draw_calls_other (layout : string) (adjusted : list ImageSource)
    (x y : Z) (i : nat) (src : ImageSource) :
  (layout =? "Horizontal") = false ->
  nth_error adjusted i = Some src ->
  nth_error (draw_calls layout adjusted x y) i
    = Some (DrawImage src 0 (y + Zsum (map src_height (firstn i adjusted)))).
Proof.
  intros Hl. revert y i. induction adjusted as [|a rest IH]; intros y i H.
  - destruct i; discriminate.
  - destruct i as [|i]; simpl in H; simpl draw_calls; rewrite Hl.
    + injection H as ->. simpl. rewrite Z.add_0_r. reflexivity.
    + simpl nth_error. rewrite (IH _ _ H). simpl. do 2 f_equal. lia.
Qed.

Lemma draw_calls_length (layout : string) (adjusted : list ImageSource) (x y : Z) :
  List.length (draw_calls layout adjusted x y) = List.length adjusted.
Proof.
  revert x y. induction adjusted as [|a rest IH]; intros x y; simpl; [reflexivity|].
  destruct (layout =? "Horizontal"); simpl; f_equal; apply IH.
Qed.

Lemma draw_calls_all_draw (layout : string) (adjusted : list ImageSource) (x y : Z) :
  Forall is_draw (draw_calls layout adjusted x y).
Proof.
  revert x y. induction adjusted as [|a rest IH]; intros x y; simpl; [constructor|].
  destruct (layout =? "Horizontal"); constructor; simpl; auto.
Qed.

(* ===================================================================== *)
(** ** The canvas of a composite *)
(* ===================================================================== *)

Lemma adjusted_of_nonempty env s imgs :
  (2 <= List.length imgs)%nat -> adjusted_of env s imgs <> [].
Proof.
  intros H E. apply (f_equal (@List.length _)) in E.
  rewrite adjusted_of_length in E. simpl in E. lia.
Qed.

Lemma canvas_of_ops env s imgs :
  canvas_ops (canvas_of env s imgs)
    = (background_fill (backgroundSelected s) (backgroundColor s)
         (fst (canvas_dimensions (layoutSelected s) (adjusted_of env s imgs)))
         (snd (canvas_dimensions (layoutSelected s) (adjusted_of env s imgs)))
       ++ draw_calls (layoutSelected s) (adjusted_of env s imgs) 0 0)%list.
Proof.
  unfold canvas_of. cbv zeta.
  destruct (canvas_dimensions (layoutSelected s) (adjusted_of env s imgs)).
  reflexivity.
Qed.

(** The two attributes of the output canvas, from the totals of the
    bounds pass. *)
Lemma canvas_of_Horizontal (env : Env) (s : State) (imgs : list UploadedImage) :
  (2 <= List.length imgs)%nat ->
  layoutSelected s = "Horizontal" ->
  exists H,
    is_maximum H (map src_height (adjusted_of env s imgs))
    /\ canvas_dimensions (layoutSelected s) (adjusted_of env s imgs)
       = (of_Z (Zsum (map src_width (adjusted_of env s imgs))), of_Z H)
    /\ canvas_width (canvas_of env s imgs)
       = to_dim 300 (of_Z (Zsum (map src_width (adjusted_of env s imgs))))
    /\ canvas_height (canvas_of env s imgs) = to_dim 150 (of_Z H).
Proof.
  intros Hl Hlay.
  destruct (canvas_dimensions_Horizontal (adjusted_of env s imgs)
              (adjusted_of_nonempty env s imgs Hl)) as [H [E Hmax]].
  exists H. unfold canvas_of. cbv zeta. rewrite Hlay, E.
  split; [exact Hmax|]. split; [reflexivity|]. split; reflexivity.
Qed.

Lemma canvas_of_Vertical (env : Env) (s : State) (imgs : list UploadedImage) :
  (2 <= List.length imgs)%nat ->
  (layoutSelected s =? "Horizontal") = false ->
  exists W,
    is_maximum W (map src_width (adjusted_of env s imgs))
    /\ canvas_dimensions (layoutSelected s) (adjusted_of env s imgs)
       = (of_Z W, of_Z (Zsum (map src_height (adjusted_of env s imgs))))
    /\ canvas_width (canvas_of env s imgs) = to_dim 300 (of_Z W)
    /\ canvas_height (canvas_of env s imgs)
       = to_dim 150 (of_Z (Zsum (map src_height (adjusted_of env s imgs)))).
Proof.
  intros Hl Hlay.
  destruct (canvas_dimensions_other (layoutSelected s) (adjusted_of env s imgs)
              Hlay (adjusted_of_nonempty env s imgs Hl)) as [W [E Hmax]].
  exists W. unfold canvas_of. cbv zeta. rewrite E.
  split; [exact Hmax|]. split; [reflexivity|]. split; reflexivity.
Qed.

(** With the policy None only image elements are drawn, and those are
    always accepted. *)
Lemma drawable_None env s imgs :
  adjustSizeSelected s = "None" -> drawable (adjusted_of env s imgs).
Proof.
  intros H. unfold drawable, adjusted_of. rewrite H, adjust_images_None.
  induction (map load_image imgs) as [|img rest IH]; [reflexivity | exact IH].
Qed.

Lemma mapi_from_Forall {A B} (P : B -> Prop) (f : nat -> A -> B) (i : nat)
    (l : list A) :
  (forall k x, In x l -> P (f k x)) -> Forall P (mapi_from f i l).
Proof.
  revert i. induction l as [|x l IH]; intros i H; simpl; constructor.
  - apply H. left. reflexivity.
  - apply IH. intros k y Hy. apply H. right. exact Hy.
Qed.

(** What holds of the sides of the decoded images and of every value of
    the two canvas attributes holds of the extents the resize pass hands
    on. *)
Lemma adjusted_extents (P : Z -> Prop) env s imgs :
  (forall x, P (to_dim 300 x)) -> (forall x, P (to_dim 150 x)) ->
  Forall (fun d => P (width d) /\ P (height d)) imgs ->
  Forall (fun src => P (src_width src) /\ P (src_height src))
    (adjusted_of env s imgs).
Proof.
  intros Hw Hh Hall. rewrite Forall_forall in Hall.
  assert (Himg : forall img, In img (map load_image imgs) ->
                             P (img_width img) /\ P (img_height img)).
  { intros img Hin. apply in_map_iff in Hin. destruct Hin as [d [<- Hin]].
    exact (Hall d Hin). }
  unfold adjusted_of, adjust_images.
  destruct (negb (adjustSizeSelected s =? "None")).
  - apply mapi_from_Forall. intros k img Hin. unfold resize_image.
    destruct (negb (scratch_context env k)).
    + exact (Himg img Hin).
    + split; [apply Hw | apply Hh].
  - apply Forall_forall. intros src Hin.
    apply in_map_iff in Hin. destruct Hin as [img [<- Hin]].
    exact (Himg img Hin).
Qed.

Lemma adjusted_extents_nonneg (env : Env) (s : State) (imgs : list UploadedImage) :
  Forall natural_size imgs ->
  Forall (fun src => 0 <= src_width src /\ 0 <= src_height src)
    (adjusted_of env s imgs).
Proof.
  apply (adjusted_extents (fun z => 0 <= z));
    intros x; apply to_dim_range; lia.
Qed.


Lemma Zsum_nonneg (l : list Z) : Forall (fun z => 0 <= z) l -> 0 <= Zsum l.
Proof. induction 1 as [|x l Hx _ IH]; simpl; lia. Qed.

Lemma extents_nonneg (f : ImageSource -> Z) (adjusted : list ImageSource) :
  Forall (fun src => 0 <= f src) adjusted ->
  Forall (fun z => 0 <= z) (map f adjusted).
Proof.
  intros H. apply Forall_forall. intros z Hz.
  apply in_map_iff in Hz. destruct Hz as [src [<- Hin]].
  rewrite Forall_forall in H. exact (H src Hin).
Qed.

Lemma maximum_nonneg (m : Z) (l : list Z) :
  is_maximum m l -> Forall (fun z => 0 <= z) l -> 0 <= m.
Proof.
  intros [Hin _] Hl. rewrite Forall_forall in Hl. exact (Hl m Hin).
Qed.

(** The totals of the bounds pass are whole numbers, and for decoded
    images no attribute of the output canvas exceeds its total. *)
Lemma canvas_within_totals (env : Env) (s : State) (imgs : list UploadedImage) :
  (2 <= List.length imgs)%nat ->
  Forall natural_size imgs ->
  exists W H,
    canvas_dimensions (layoutSelected s) (adjusted_of env s imgs)
      = (of_Z W, of_Z H)
    /\ canvas_width (canvas_of env s imgs) <= W
    /\ canvas_height (canvas_of env s imgs) <= H.
Proof.
  intros Hl Hnat.
  pose proof (adjusted_extents_nonneg env s imgs Hnat) as Hnn.
  assert (Hwn : Forall (fun z => 0 <= z) (map src_width (adjusted_of env s imgs))).
  { apply extents_nonneg. eapply Forall_impl; [|exact Hnn]. intros a [H _]. exact H. }
  assert (Hhn : Forall (fun z => 0 <= z) (map src_height (adjusted_of env s imgs))).
  { apply extents_nonneg. eapply Forall_impl; [|exact Hnn]. intros a [_ H]. exact H. }
  pose proof (adjusted_of_nonempty env s imgs Hl) as Hne.
  unfold canvas_of. cbv zeta.
  destruct (layoutSelected s =? "Horizontal") eqn:Hlay.
  - apply String.eqb_eq in Hlay. rewrite Hlay.
    destruct (canvas_dimensions_Horizontal _ Hne) as [H [E Hmax]].
    rewrite E. cbn [canvas_width canvas_height].
    exists (Zsum (map src_width (adjusted_of env s imgs))), H.
    split; [reflexivity|].
    split; apply to_dim_below; try lia.
    + apply Zsum_nonneg. exact Hwn.
    + exact (maximum_nonneg _ _ Hmax Hhn).
  - destruct (canvas_dimensions_other _ _ Hlay Hne) as [W [E Hmax]].
    rewrite E. cbn [canvas_width canvas_height].
    exists W, (Zsum (map src_height (adjusted_of env s imgs))).
    split; [reflexivity|].
    split; apply to_dim_below; try lia.
    + exact (maximum_nonneg _ _ Hmax Hwn).
    + apply Zsum_nonneg. exact Hhn.
Qed.

(** The claim C1 fails as stated.  Three images 32767x1 and one 1x32767
    with the layout Horizontal and the policy Max are handed on with the
    widths 1073676289, 1073676289, 1073676289 and 1; the composite is
    drawn and stored, but the width of its canvas is 300, the default of
    the attribute, and not their sum 3221028868, which the attribute
    cannot hold. *)
Lemma sum_of_widths_is_not_stored :
  all_defined (uploadedImages wide_images)
    = Some [image_W; image_W; image_W; image_T]
  /\ map src_width
       (adjusted_of browser wide_images [image_W; image_W; image_W; image_T])
     = [1073676289; 1073676289; 1073676289; 1]
  /\ Zsum (map src_width
             (adjusted_of browser wide_images
                [image_W; image_W; image_W; image_T])) = 3221028868
  /\ stitchedImageUrl (exec stitchImages browser wide_images)
     = toDataURL browser
         (canvas_of browser wide_images [image_W; image_W; image_W; image_T])
  /\ canvas_width
       (canvas_of browser wide_images [image_W; image_W; image_W; image_T])
     = 300.
Proof. repeat split; vm_compute; reflexivity. Qed.

(** C1, amended. A composite over two or more decoded images gives the
    output canvas, for the layout Horizontal, the sum of the widths of the
    images the resize pass hands on as its width and the greatest of their
    heights as its height, and for the layout Vertical the greatest width
    and the sum of the heights, each whenever the attribute can hold the
    value, that is up to 2147483647.  With the policy None those are the
    widths and heights of the uploaded images.  The call stores the
    encoding of that canvas when [drawImage] accepts every image handed
    on, as it always does with the policy None. *)
Theorem canvas_bounds (env : Env) (s : State) (imgs : list UploadedImage) :
  all_defined (uploadedImages s) = Some imgs ->
  (2 <= List.length imgs)%nat ->
  output_context env = true ->
  let adjusted := adjusted_of env s imgs in
  let canvas := canvas_of env s imgs in
  (drawable adjusted ->
     stitchImages env s
       = (Normal tt,
          set_isStitching false (set_stitchedImageUrl (toDataURL env canvas) s)))
  /\ (layoutSelected s = "Horizontal" ->
        forall W H,
          W = Zsum (map src_width adjusted) ->
          is_maximum H (map src_height adjusted) ->
          (storable W -> canvas_width canvas = W)
          /\ (storable H -> canvas_height canvas = H))
  /\ (layoutSelected s = "Vertical" ->
        forall W H,
          is_maximum W (map src_width adjusted) ->
          H = Zsum (map src_height adjusted) ->
          (storable W -> canvas_width canvas = W)
          /\ (storable H -> canvas_height canvas = H))
  /\ (adjustSizeSelected s = "None" ->
        drawable adjusted
        /\ map src_width adjusted = map width imgs
        /\ map src_height adjusted = map height imgs).
Proof.
  intros Hd Hl Hc adjusted canvas.
  split; [|split; [|split]].
  - intros Hu. rewrite (stitchImages_success env s imgs Hd Hl Hc Hu). reflexivity.
  - intros Hlay W H -> Hmax.
    destruct (canvas_of_Horizontal env s imgs Hl Hlay) as [H' [Hmax' [_ [EW EH]]]].
    rewrite (is_maximum_unique _ _ _ Hmax Hmax').
    subst canvas adjusted. rewrite EW, EH.
    split; intros Hs; apply to_dim_of_Z; exact Hs.
  - intros Hlay W H Hmax ->.
    assert (Hother : (layoutSelected s =? "Horizontal") = false)
      by (rewrite Hlay; reflexivity).
    destruct (canvas_of_Vertical env s imgs Hl Hother) as [W' [Hmax' [_ [EW EH]]]].
    rewrite (is_maximum_unique _ _ _ Hmax Hmax').
    subst canvas adjusted. rewrite EW, EH.
    split; intros Hs; apply to_dim_of_Z; exact Hs.
  - intros Hnone. split; [apply drawable_None; exact Hnone|].
    subst adjusted. unfold adjusted_of.
    rewrite Hnone, adjust_images_None, !map_map. split; reflexivity.
Qed.

Lemma canvas_bounds_witness :
  all_defined (uploadedImages two_images) = Some [image_A; image_B]
  /\ stitchedImageUrl (exec stitchImages browser two_images)
       = "data:image/png;base64,180x60"
  /\ is_maximum 60 [50; 60]
  /\ canvas_width (canvas_of browser two_images [image_A; image_B]) = 180
  /\ canvas_height (canvas_of browser two_images [image_A; image_B]) = 60.
Proof.
  assert (Hm : is_maximum 60 [50; 60]).
  { split; [right; left; reflexivity|]. repeat constructor; lia. }
  destruct (canvas_bounds browser two_images [image_A; image_B]
              eq_refl (le_n 2) eq_refl) as [Hrun [Hh [_ _]]].
  destruct (Hh eq_refl 180 60 eq_refl Hm) as [Hw Hg].
  split; [reflexivity|]. split.
  - unfold exec. rewrite (Hrun eq_refl). reflexivity.
  - split; [exact Hm|]. split.
    + apply Hw. unfold storable. lia.
    + apply Hg. unfold storable. lia.
Defined.

(** C5. A composite in which [drawImage] accepts every image the resize
    pass hands on draws them in input order: the image at position [i] is
    drawn at the sum of the extents along the layout axis of the images
    before it, and at 0 on the other axis; nothing is drawn between them,
    and the encoding of that canvas is stored.  For the images 100x50 and 80x60
    with the layout Horizontal and the policy None the output is 180x60,
    with A at (0, 0) and B at (100, 0). *)
Theorem placement :
  (forall (env : Env) (s : State) (imgs : list UploadedImage),
      all_defined (uploadedImages s) = Some imgs ->
      (2 <= List.length imgs)%nat ->
      output_context env = true ->
      let adjusted := adjusted_of env s imgs in
      drawable adjusted ->
      exists fill draws,
        stitchImages env s
          = (Normal tt,
             set_isStitching false
               (set_stitchedImageUrl
                  (toDataURL env (canvas_of env s imgs)) s))
        /\ canvas_ops (canvas_of env s imgs) = (fill ++ draws)%list
        /\ Forall (fun op => ~ is_draw op) fill
        /\ List.length draws = List.length adjusted
        /\ forall (i : nat) (src : ImageSource),
             nth_error adjusted i = Some src ->
             (layoutSelected s = "Horizontal" ->
                nth_error draws i
                  = Some (DrawImage src
                            (Zsum (map src_width (firstn i adjusted))) 0))
             /\ (layoutSelected s = "Vertical" ->
                   nth_error draws i
                     = Some (DrawImage src 0
                               (Zsum (map src_height (firstn i adjusted))))))
  /\ render browser two_images
       = (Normal
            (mkCanvas 180 60
               [DrawImage (ImageEl (load_image image_A)) 0 0;
                DrawImage (ImageEl (load_image image_B)) 100 0]),
          two_images).
Proof.
  split; [|reflexivity].
  intros env s imgs Hd Hl Hc adjusted Hu.
  exists (background_fill (backgroundSelected s) (backgroundColor s)
            (fst (canvas_dimensions (layoutSelected s) adjusted))
            (snd (canvas_dimensions (layoutSelected s) adjusted))).
  exists (draw_calls (layoutSelected s) adjusted 0 0).
  split; [|split; [|split; [|split]]].
  - rewrite (stitchImages_success env s imgs Hd Hl Hc Hu). reflexivity.
  - apply canvas_of_ops.
  - unfold background_fill. destruct (backgroundSelected s =? "Color").
    + constructor; [|constructor]. simpl. tauto.
    + constructor.
  - apply draw_calls_length.
  - intros i src Hi. split; intros Hlay; rewrite Hlay.
    + rewrite (draw_calls_Horizontal adjusted 0 0 i src Hi). reflexivity.
    + rewrite (draw_calls_other "Vertical" adjusted 0 0 i src eq_refl Hi).
      reflexivity.
Qed.

Lemma placement_witness :
  all_defined (uploadedImages (set_adjustSizeSelected "Max" two_images))
    = Some [image_A; image_B]
  /\ exists fill draws src,
       canvas_ops
         (canvas_of browser (set_adjustSizeSelected "Max" two_images)
            [image_A; image_B]) = (fill ++ draws)%list
       /\ src_width src = 80
       /\ nth_error draws 1 = Some (DrawImage src 120 0).
Proof.
  split; [reflexivity|].
  destruct (proj1 placement browser (set_adjustSizeSelected "Max" two_images)
              [image_A; image_B] eq_refl (le_n 2) eq_refl eq_refl)
    as [fill [draws [_ [Hops [_ [_ Hnth]]]]]].
  exists fill, draws.
  eexists. split; [exact Hops|]. split; [|exact (proj1 (Hnth 1%nat _ eq_refl) eq_refl)].
  reflexivity.
Defined.

(** C8. In a composite over decoded images in which [drawImage] accepts
    every image handed on, with the background Color the first call on
    the context of the output canvas fills, with the chosen colour, the
    rectangle from (0, 0) with the total width and the total height of the
    bounds pass, which the canvas nowhere exceeds: the whole canvas is
    filled; and every image is drawn after it.  With the background
    Transparent nothing but the images is drawn.  The colour is the picked
    one, with a leading "#" when it has none. *)
Theorem background_before_images (env : Env) (s : State)
    (imgs : list UploadedImage) :
  all_defined (uploadedImages s) = Some imgs ->
  (2 <= List.length imgs)%nat ->
  output_context env = true ->
  drawable (adjusted_of env s imgs) ->
  Forall natural_size imgs ->
  let canvas := canvas_of env s imgs in
  let draws := draw_calls (layoutSelected s) (adjusted_of env s imgs) 0 0 in
  stitchImages env s
    = (Normal tt,
       set_isStitching false (set_stitchedImageUrl (toDataURL env canvas) s))
  /\ Forall is_draw draws
  /\ List.length draws = List.length imgs
  /\ (backgroundSelected s = "Color" ->
        exists W H,
          canvas_dimensions (layoutSelected s) (adjusted_of env s imgs)
            = (of_Z W, of_Z H)
          /\ canvas_ops canvas
             = FillRect (fill_color (backgroundColor s)) 0 0 (of_Z W) (of_Z H)
                 :: draws
          /\ 0 <= canvas_width canvas <= W
          /\ 0 <= canvas_height canvas <= H)
  /\ (backgroundSelected s = "Transparent" -> canvas_ops canvas = draws)
  /\ (prefix "#" (backgroundColor s) = true ->
        fill_color (backgroundColor s) = backgroundColor s)
  /\ (backgroundColor s <> "" -> prefix "#" (backgroundColor s) = false ->
        fill_color (backgroundColor s) = "#" ++ backgroundColor s).
Proof.
  intros Hd Hl Hc Hu Hnat canvas draws.
  split; [|split; [|split; [|split; [|split; [|split]]]]].
  - rewrite (stitchImages_success env s imgs Hd Hl Hc Hu). reflexivity.
  - apply draw_calls_all_draw.
  - subst draws. rewrite draw_calls_length. apply adjusted_of_length.
  - intros Hbg.
    destruct (canvas_within_totals env s imgs Hl Hnat) as [W [H [E [HW HH]]]].
    exists W, H. split; [exact E|]. split.
    + subst canvas draws. rewrite (canvas_of_ops env s imgs), E.
      unfold background_fill. rewrite Hbg. reflexivity.
    + subst canvas. unfold canvas_of in *. cbv zeta in *.
      rewrite E in *. cbn [canvas_width canvas_height] in *.
      pose proof (to_dim_range 300 (of_Z W) ltac:(lia)).
      pose proof (to_dim_range 150 (of_Z H) ltac:(lia)).
      lia.
  - intros Hbg. subst canvas draws. rewrite (canvas_of_ops env s imgs).
    unfold background_fill. rewrite Hbg. reflexivity.
  - intros Hp. unfold fill_color.
    destruct (backgroundColor s =? "") eqn:He.
    + apply String.eqb_eq in He. rewrite He in Hp. discriminate.
    + rewrite Hp. reflexivity.
  - intros Hne Hp. unfold fill_color.
    destruct (backgroundColor s =? "") eqn:He.
    + apply String.eqb_eq in He. contradiction.
    + rewrite Hp. reflexivity.
Qed.

Lemma background_before_images_witness :
  all_defined (uploadedImages (set_backgroundSelected "Color" two_images))
    = Some [image_A; image_B]
  /\ Forall natural_size [image_A; image_B]
  /\ exists W H,
       canvas_ops
         (canvas_of browser (set_backgroundSelected "Color" two_images)
            [image_A; image_B])
       = [FillRect "#ffffff" 0 0 (of_Z W) (of_Z H);
          DrawImage (ImageEl (load_image image_A)) 0 0;
          DrawImage (ImageEl (load_image image_B)) 100 0]
       /\ 180 <= W /\ 60 <= H.
Proof.
  assert (Hnat : Forall natural_size [image_A; image_B]).
  { repeat constructor; simpl; lia. }
  split; [reflexivity|]. split; [exact Hnat|].
  destruct (background_before_images browser
              (set_backgroundSelected "Color" two_images)
              [image_A; image_B] eq_refl (le_n 2) eq_refl eq_refl Hnat)
    as [_ [_ [_ [Hcolor _]]]].
  destruct (Hcolor eq_refl) as [W [H [_ [Hops [HW HH]]]]].
  exists W, H. split; [exact Hops|]. split; [exact (proj2 HW) | exact (proj2 HH)].
Defined.

(** C4. With fewer than two images in the list, none or one alike, the
    composite call hands the "Insufficient Images" error to the toast
    service and returns: no composite is attempted, and the stored output
    and every other reference keep their values. *)
Theorem insufficient_input (env : Env) (s : State) :
  (List.length (uploadedImages s) < 2)%nat ->
  let s' := exec stitchImages env s in
  stitchImages env s = (Normal tt, s')
  /\ toasts s' = (toasts s ++ [insufficient_images])%list
  /\ stitchedImageUrl s' = stitchedImageUrl s
  /\ uploadedImages s' = uploadedImages s
  /\ isStitching s' = isStitching s
  /\ layoutSelected s' = layoutSelected s
  /\ backgroundSelected s' = backgroundSelected s
  /\ backgroundColor s' = backgroundColor s
  /\ adjustSizeSelected s' = adjustSizeSelected s
  /\ downloads s' = downloads s.
Proof.
  intros H s'. subst s'. unfold exec.
  rewrite (stitchImages_insufficient env s H). simpl.
  repeat split.
Qed.

Lemma insufficient_input_witness :
  (List.length (uploadedImages (set_uploadedImages [Some image_A] initial_state)) < 2)%nat
  /\ toasts (exec stitchImages browser (set_uploadedImages [Some image_A] initial_state))
     = [insufficient_images]
  /\ toasts (exec stitchImages browser initial_state) = [insufficient_images].
Proof.
  split; [apply le_n|]. split.
  - exact (proj1 (proj2 (insufficient_input browser
             (set_uploadedImages [Some image_A] initial_state) (le_n 2)))).
  - exact (proj1 (proj2 (insufficient_input browser initial_state
             (le_S 1 1 (le_n 1))))).
Defined.

(* ===================================================================== *)
(** ** The busy flag, the missing context and the download *)
(* ===================================================================== *)

(** Whatever the [try] block and the handler do, the [finally] clause that
    clears the flag has the last word. *)
Lemma finally_clears_flag (body : M unit) (handler : JSError -> M unit)
    (env : Env) (s : State) :
  isStitching
    (snd (try_catch_finally body handler (modify (set_isStitching false)) env s))
  = false.
Proof.
  unfold try_catch_finally.
  destruct (body env s) as [[a|e] s1].
  - reflexivity.
  - destruct (handler e env s1) as [r s2]. reflexivity.
Qed.

(** The two ways a composite call runs: stopped by the check on the number
    of images, or through the [try] block. *)
Ltac by_image_count env s :=
  let H := fresh "Hcount" in
  destruct (Nat.lt_ge_cases (List.length (uploadedImages s)) 2) as [H|H];
  [ rewrite (stitchImages_insufficient env s H)
  | rewrite (stitchImages_attempt env s H) ].

Lemma stitchImages_returns (env : Env) (s : State) :
  fst (stitchImages env s) = Normal tt.
Proof. by_image_count env s; reflexivity. Qed.

Lemma stitchImages_keeps_images (env : Env) (s : State) :
  uploadedImages (exec stitchImages env s) = uploadedImages s.
Proof.
  unfold exec. by_image_count env s; [reflexivity|].
  destruct (fst (render env (set_isStitching true s))); reflexivity.
Qed.

(** C7. A composite call that gets past the check on the number of images
    returns normally with [isStitching] false, whether the [try] block
    stored an output or threw: a missing context, an [undefined] entry of
    the list, anything a [try] block can throw.  A call stopped by the
    check leaves the flag as it found it, so a call made while no composite
    is running ends with the flag false in every case. *)
Theorem busy_flag_cleared (env : Env) (s : State) :
  (2 <= List.length (uploadedImages s))%nat \/ isStitching s = false ->
  stitchImages env s = (Normal tt, exec stitchImages env s)
  /\ isStitching (exec stitchImages env s) = false
  /\ (forall (body : M unit) (handler : JSError -> M unit),
        isStitching
          (snd (try_catch_finally body handler
                  (modify (set_isStitching false)) env s)) = false).
Proof.
  intros H. split; [|split].
  - pose proof (stitchImages_returns env s) as Hr. unfold exec.
    destruct (stitchImages env s) as [r s']. simpl in *. rewrite Hr. reflexivity.
  - destruct (Nat.lt_ge_cases (List.length (uploadedImages s)) 2) as [Hlt|Hge].
    + destruct H as [H|H]; [lia|].
      unfold exec. rewrite (stitchImages_insufficient env s Hlt). exact H.
    + unfold exec, stitchImages, bind at 1, gets at 1.
      apply Nat.ltb_ge in Hge. rewrite Hge.
      unfold bind at 1, modify at 1.
      apply finally_clears_flag.
  - intros body handler. apply finally_clears_flag.
Qed.

Lemma busy_flag_cleared_witness :
  (2 <= List.length (uploadedImages two_images))%nat
  /\ isStitching (exec stitchImages browser_without_context two_images) = false
  /\ toasts (exec stitchImages browser_without_context two_images)
     = [stitching_failed (Error "Failed to get canvas context")]
  /\ isStitching (exec stitchImages browser strip_images) = false.
Proof.
  split; [apply le_n|]. split; [|split].
  - exact (proj1 (proj2 (busy_flag_cleared browser_without_context two_images
                           (or_introl (le_n 2))))).
  - reflexivity.
  - exact (proj1 (proj2 (busy_flag_cleared browser strip_images
                           (or_introl (le_n 2))))).
Defined.

(** A failure while drawing: with the policy Min the 1x49 image becomes a
    canvas of width 0, [drawImage] refuses it, and the composite ends in
    the [catch] clause with the stored output untouched. *)
Example empty_canvas_is_refused :
  exec stitchImages browser strip_images
  = push_toast (stitching_failed (refused browser)) strip_images.
Proof. vm_compute. reflexivity. Qed.

Lemma download_without_output (env : Env) (s : State) :
  stitchedImageUrl s = "" ->
  downloadStitchedImage env s
    = (Normal tt,
       push_toast
         (mkToast "error" "No Image"
            "No stitched image available to download." 3000) s).
Proof.
  intros H. unfold downloadStitchedImage, bind, gets. rewrite H. reflexivity.
Qed.

Lemma download_with_output (env : Env) (s : State) :
  stitchedImageUrl s <> "" ->
  downloadStitchedImage env s
    = (Normal tt,
       push_toast
         (mkToast "success" "Download Started"
            "Stitched image download has started." 3000)
         (push_download
            (mkDownload (stitchedImageUrl s)
               ("stitched-image-" ++ Z_to_string (date_now env) ++ ".png")) s)).
Proof.
  intros H. apply String.eqb_neq in H.
  unfold downloadStitchedImage, bind, gets. rewrite H. reflexivity.
Qed.

(** C10. With no stored output the download handler starts no download: it
    hands the "No Image" error to the toast service and changes nothing
    else.  A download is started only when an output is stored, and then
    it is that output, under the name stitched-image-<clock>.png. *)
Theorem download_needs_output (env : Env) (s : State) :
  let s' := exec downloadStitchedImage env s in
  (stitchedImageUrl s = "" ->
     downloadStitchedImage env s
       = (Normal tt,
          push_toast
            (mkToast "error" "No Image"
               "No stitched image available to download." 3000) s)
     /\ downloads s' = downloads s
     /\ stitchedImageUrl s' = stitchedImageUrl s
     /\ uploadedImages s' = uploadedImages s
     /\ isStitching s' = isStitching s)
  /\ (downloads s' <> downloads s -> stitchedImageUrl s <> "")
  /\ (stitchedImageUrl s <> "" ->
        downloads s'
          = (downloads s
               ++ [mkDownload (stitchedImageUrl s)
                     ("stitched-image-" ++ Z_to_string (date_now env) ++ ".png")])%list
        /\ stitchedImageUrl s' = stitchedImageUrl s).
Proof.
  intros s'. subst s'. unfold exec. split; [|split].
  - intros H. rewrite (download_without_output env s H).
    repeat apply conj; reflexivity.
  - intros Hd H. apply Hd.
    rewrite (download_without_output env s H). reflexivity.
  - intros H. rewrite (download_with_output env s H). split; reflexivity.
Qed.

Lemma download_needs_output_witness :
  stitchedImageUrl initial_state = ""
  /\ downloads (exec downloadStitchedImage browser initial_state) = []
  /\ downloads
       (exec downloadStitchedImage browser
          (exec stitchImages browser two_images))
     = [mkDownload "data:image/png;base64,180x60"
          "stitched-image-1700000000000.png"].
Proof.
  split; [reflexivity|]. split.
  - exact (proj1 (proj2 (proj1 (download_needs_output browser initial_state)
                           eq_refl))).
  - refine (proj1 (proj2 (proj2 (download_needs_output browser
                                    (exec stitchImages browser two_images))) _)).
    discriminate.
Defined.

(* ===================================================================== *)
(** ** Reordering and removing *)
(* ===================================================================== *)

Local Open Scope list_scope.
Local Open Scope Z_scope.

Lemma get_middle {A} (pre : JSArray.array A) (x : option A) (rest : JSArray.array A) :
  JSArray.get (pre ++ x :: rest) (Z.of_nat (List.length pre)) = x.
Proof.
  unfold JSArray.get.
  destruct (Z.of_nat (List.length pre) <? 0) eqn:E; [apply Z.ltb_lt in E; lia|].
  rewrite Nat2Z.id, nth_error_app2, Nat.sub_diag by apply le_n. reflexivity.
Qed.

Lemma set_nat_middle {A} (pre : JSArray.array A) (x v : option A)
    (rest : JSArray.array A) :
  JSArray.set_nat (pre ++ x :: rest) (List.length pre) v = (pre ++ v :: rest)%list.
Proof.
  induction pre as [|p pre IH]; simpl; [reflexivity|]. rewrite IH. reflexivity.
Qed.

Lemma set_middle {A} (pre : JSArray.array A) (x v : option A)
    (rest : JSArray.array A) :
  JSArray.set (pre ++ x :: rest) (Z.of_nat (List.length pre)) v
    = (pre ++ v :: rest)%list.
Proof.
  unfold JSArray.set.
  destruct (Z.of_nat (List.length pre) <? 0) eqn:E; [apply Z.ltb_lt in E; lia|].
  rewrite Nat2Z.id. apply set_nat_middle.
Qed.

(** Two neighbours of a list, at the positions [n] and [n + 1]. *)
Lemma split_neighbours {A} (l : list A) (n : nat) :
  (S n < List.length l)%nat ->
  exists pre a b post,
    l = (pre ++ a :: b :: post)%list /\ List.length pre = n.
Proof.
  revert n. induction l as [|x l IH]; intros n H; simpl in H; [lia|].
  destruct n as [|n].
  - destruct l as [|y l]; simpl in H; [lia|].
    exists [], x, y, l. split; reflexivity.
  - destruct (IH n) as [pre [a [b [post [E Hl]]]]]; [lia|].
    exists (x :: pre), a, b, post. split; [rewrite E; reflexivity | simpl; lia].
Qed.

(** The three assignments of [moveImageUp] at the second of two
    neighbours, and of [moveImageDown] at the first. *)
Lemma exchange_up {A} (pre : JSArray.array A) (a b : option A)
    (post : JSArray.array A) (index : Z) :
  index = Z.of_nat (List.length pre) + 1 ->
  let arr := (pre ++ a :: b :: post)%list in
  JSArray.set (JSArray.set arr index (JSArray.get arr (index - 1)))
    (index - 1) (JSArray.get arr index)
  = (pre ++ b :: a :: post)%list.
Proof.
  intros Hi arr. subst arr.
  replace (index - 1) with (Z.of_nat (List.length pre)) by lia.
  rewrite get_middle.
  assert (Hb : JSArray.get (pre ++ a :: b :: post) index = b).
  { replace (pre ++ a :: b :: post)%list with ((pre ++ [a]) ++ b :: post)%list
      by (rewrite <- app_assoc; reflexivity).
    replace index with (Z.of_nat (List.length (pre ++ [a])))
      by (rewrite length_app; simpl; lia).
    apply get_middle. }
  rewrite Hb.
  assert (Hs : JSArray.set (pre ++ a :: b :: post) index a
               = (pre ++ a :: a :: post)%list).
  { replace (pre ++ a :: b :: post)%list with ((pre ++ [a]) ++ b :: post)%list
      by (rewrite <- app_assoc; reflexivity).
    replace index with (Z.of_nat (List.length (pre ++ [a])))
      by (rewrite length_app; simpl; lia).
    rewrite set_middle, <- app_assoc. reflexivity. }
  rewrite Hs. apply set_middle.
Qed.

Lemma exchange_down {A} (pre : JSArray.array A) (a b : option A)
    (post : JSArray.array A) (index : Z) :
  index = Z.of_nat (List.length pre) ->
  let arr := (pre ++ a :: b :: post)%list in
  JSArray.set (JSArray.set arr index (JSArray.get arr (index + 1)))
    (index + 1) (JSArray.get arr index)
  = (pre ++ b :: a :: post)%list.
Proof.
  intros Hi arr. subst arr index.
  rewrite get_middle.
  assert (Hb : JSArray.get (pre ++ a :: b :: post)
                 (Z.of_nat (List.length pre) + 1) = b).
  { replace (pre ++ a :: b :: post)%list with ((pre ++ [a]) ++ b :: post)%list
      by (rewrite <- app_assoc; reflexivity).
    replace (Z.of_nat (List.length pre) + 1)
      with (Z.of_nat (List.length (pre ++ [a])))
      by (rewrite length_app; simpl; lia).
    apply get_middle. }
  rewrite Hb, set_middle.
  replace (pre ++ b :: b :: post)%list with ((pre ++ [b]) ++ b :: post)%list
    by (rewrite <- app_assoc; reflexivity).
  replace (Z.of_nat (List.length pre) + 1)
    with (Z.of_nat (List.length (pre ++ [b])))
    by (rewrite length_app; simpl; lia).
  rewrite set_middle, <- app_assoc. reflexivity.
Qed.

Lemma neighbours_permutation {A} (pre : list A) (a b : A) (post : list A) :
  Permutation (pre ++ a :: b :: post) (pre ++ b :: a :: post).
Proof. apply Permutation_app_head. apply perm_swap. Qed.

Lemma moveImageUp_run (env : Env) (s : State) (index : Z) :
  0 < index ->
  moveImageUp index env s
  = stitchImages env
      (set_stitchedImageUrl ""
         (set_uploadedImages
            (JSArray.set
               (JSArray.set (uploadedImages s) index
                  (JSArray.get (uploadedImages s) (index - 1)))
               (index - 1) (JSArray.get (uploadedImages s) index)) s)).
Proof.
  intros H. apply Z.ltb_lt in H. unfold moveImageUp. rewrite H. reflexivity.
Qed.

Lemma moveImageDown_run (env : Env) (s : State) (index : Z) :
  index < Z.of_nat (List.length (uploadedImages s)) - 1 ->
  moveImageDown index env s
  = stitchImages env
      (set_stitchedImageUrl ""
         (set_uploadedImages
            (JSArray.set
               (JSArray.set (uploadedImages s) index
                  (JSArray.get (uploadedImages s) (index + 1)))
               (index + 1) (JSArray.get (uploadedImages s) index)) s)).
Proof.
  intros H. apply Z.ltb_lt in H.
  unfold moveImageDown, bind at 1, gets at 1. rewrite H. reflexivity.
Qed.

Lemma moveImageUp_skip (env : Env) (s : State) (index : Z) :
  index <= 0 -> moveImageUp index env s = (Normal tt, s).
Proof.
  intros H. unfold moveImageUp.
  destruct (0 <? index) eqn:E; [apply Z.ltb_lt in E; lia | reflexivity].
Qed.

Lemma moveImageDown_skip (env : Env) (s : State) (index : Z) :
  Z.of_nat (List.length (uploadedImages s)) - 1 <= index ->
  moveImageDown index env s = (Normal tt, s).
Proof.
  intros H. unfold moveImageDown, bind, gets.
  destruct (index <? Z.of_nat (List.length (uploadedImages s)) - 1) eqn:E;
    [apply Z.ltb_lt in E; lia | reflexivity].
Qed.

Lemma moveImageUp_in_range (env : Env) (s : State) (index : Z) :
  0 < index < Z.of_nat (List.length (uploadedImages s)) ->
  exists pre a b post,
    uploadedImages s = pre ++ a :: b :: post
    /\ Z.of_nat (List.length pre) = index - 1
    /\ uploadedImages (exec (moveImageUp index) env s) = pre ++ b :: a :: post.
Proof.
  intros [Hlo Hhi].
  destruct (split_neighbours (uploadedImages s) (Z.to_nat (index - 1)))
    as [pre [a [b [post [E Hl]]]]]; [lia|].
  exists pre, a, b, post. split; [exact E|]. split; [lia|].
  unfold exec. rewrite (moveImageUp_run env s index Hlo).
  fold (exec stitchImages env
          (set_stitchedImageUrl ""
             (set_uploadedImages
                (JSArray.set
                   (JSArray.set (uploadedImages s) index
                      (JSArray.get (uploadedImages s) (index - 1)))
                   (index - 1) (JSArray.get (uploadedImages s) index)) s))).
  rewrite stitchImages_keeps_images. cbn [uploadedImages set_stitchedImageUrl set_uploadedImages].
  rewrite E. apply exchange_up. lia.
Qed.

Lemma moveImageDown_in_range (env : Env) (s : State) (index : Z) :
  0 <= index < Z.of_nat (List.length (uploadedImages s)) - 1 ->
  exists pre a b post,
    uploadedImages s = pre ++ a :: b :: post
    /\ Z.of_nat (List.length pre) = index
    /\ uploadedImages (exec (moveImageDown index) env s) = pre ++ b :: a :: post.
Proof.
  intros [Hlo Hhi].
  destruct (split_neighbours (uploadedImages s) (Z.to_nat index))
    as [pre [a [b [post [E Hl]]]]]; [lia|].
  exists pre, a, b, post. split; [exact E|]. split; [lia|].
  unfold exec. rewrite (moveImageDown_run env s index Hhi).
  fold (exec stitchImages env
          (set_stitchedImageUrl ""
             (set_uploadedImages
                (JSArray.set
                   (JSArray.set (uploadedImages s) index
                      (JSArray.get (uploadedImages s) (index + 1)))
                   (index + 1) (JSArray.get (uploadedImages s) index)) s))).
  rewrite stitchImages_keeps_images. cbn [uploadedImages set_stitchedImageUrl set_uploadedImages].
  rewrite E. apply exchange_down. lia.
Qed.

(** C9. [moveImageUp] at an index of 0 or less and [moveImageDown] at the
    last index or beyond do nothing: the list, the stored output and
    everything else stay as they are.  At an index inside the list
    [moveImageUp] exchanges the entry with the one before it and
    [moveImageDown] with the one after it, so in all these cases the new
    list is a permutation of the old one, of the same length. *)
Theorem move_exchanges_neighbours (env : Env) (s : State) (index : Z) :
  let arr := uploadedImages s in
  let len := Z.of_nat (List.length arr) in
  let up := exec (moveImageUp index) env s in
  let down := exec (moveImageDown index) env s in
  (index <= 0 -> moveImageUp index env s = (Normal tt, s))
  /\ (len - 1 <= index -> moveImageDown index env s = (Normal tt, s))
  /\ (0 < index < len ->
        exists pre a b post,
          arr = pre ++ a :: b :: post
          /\ Z.of_nat (List.length pre) = index - 1
          /\ uploadedImages up = pre ++ b :: a :: post)
  /\ (0 <= index < len - 1 ->
        exists pre a b post,
          arr = pre ++ a :: b :: post
          /\ Z.of_nat (List.length pre) = index
          /\ uploadedImages down = pre ++ b :: a :: post)
  /\ (index <= 0 \/ index < len ->
        Permutation arr (uploadedImages up)
        /\ List.length (uploadedImages up) = List.length arr)
  /\ (len - 1 <= index \/ 0 <= index ->
        Permutation arr (uploadedImages down)
        /\ List.length (uploadedImages down) = List.length arr).
Proof.
  intros arr len up down.
  split; [|split; [|split; [|split; [|split]]]].
  - apply moveImageUp_skip.
  - apply moveImageDown_skip.
  - apply moveImageUp_in_range.
  - apply moveImageDown_in_range.
  - intros Hhi. destruct (Z_le_gt_dec index 0) as [Hle|Hgt].
    + subst up. unfold exec. rewrite (moveImageUp_skip env s index Hle).
      split; [apply Permutation_refl | reflexivity].
    + destruct (moveImageUp_in_range env s index) as [pre [a [b [post [E [_ E']]]]]];
        [subst len arr; lia|].
      subst up arr. rewrite E', E. split.
      * apply neighbours_permutation.
      * rewrite !length_app. reflexivity.
  - intros Hlo. destruct (Z_le_gt_dec (len - 1) index) as [Hle|Hgt].
    + subst down. unfold exec. rewrite (moveImageDown_skip env s index Hle).
      split; [apply Permutation_refl | reflexivity].
    + destruct (moveImageDown_in_range env s index) as [pre [a [b [post [E [_ E']]]]]];
        [subst len arr; lia|].
      subst down arr. rewrite E', E. split.
      * apply neighbours_permutation.
      * rewrite !length_app. reflexivity.
Qed.

Lemma move_exchanges_neighbours_witness :
  0 < 1 < Z.of_nat (List.length (uploadedImages two_images))
  /\ uploadedImages (exec (moveImageUp 1) browser two_images)
     = [Some image_B; Some image_A]
  /\ moveImageUp 0 browser two_images = (Normal tt, two_images)
  /\ moveImageDown 1 browser two_images = (Normal tt, two_images).
Proof.
  split; [simpl; lia|].
  pose proof (move_exchanges_neighbours browser two_images 1) as H1.
  pose proof (move_exchanges_neighbours browser two_images 0) as H0.
  cbv zeta in H1, H0.
  destruct H1 as [_ [Hdown [Hup _]]]. destruct H0 as [Hskip _].
  split; [|split].
  - destruct Hup as [pre [a [b [post [E [Hl E']]]]]]; [simpl; lia|].
    rewrite E'.
    destruct pre as [|p pre]; [|simpl in Hl; lia].
    simpl in E. injection E as <- <- <-. reflexivity.
  - apply Hskip. lia.
  - apply Hdown. simpl. lia.
Defined.

(** Past the end of the list, where no button of the page leads,
    [moveImageUp] grows the array with [undefined] entries, and the
    composite that follows fails on them inside its [try] block. *)
Example moveImageUp_past_the_end :
  exec (moveImageUp 3) browser two_images
  = push_toast
      (stitching_failed (TypeError "Cannot read properties of undefined"))
      (set_uploadedImages [Some image_A; Some image_B; None; None] two_images).
Proof. reflexivity. Qed.

Lemma removeImage_run (env : Env) (s : State) (index : Z) :
  let rest := JSArray.splice1 (uploadedImages s) index in
  let cleared := set_stitchedImageUrl "" (set_uploadedImages rest s) in
  removeImage index env s
  = stitchImages env
      (if (List.length rest =? 0)%nat
       then set_adjustSizeSelected "None"
              (set_backgroundSelected "Transparent" cleared)
       else cleared).
Proof.
  intros rest cleared. unfold removeImage, bind, modify, gets.
  cbn [uploadedImages set_stitchedImageUrl set_uploadedImages].
  fold rest. destruct (List.length rest =? 0)%nat; reflexivity.
Qed.

(** The claim C3 fails when one image is left: after the composite of the
    two images with the policy Max on a coloured background, removing the
    first image leaves one image, and the policy is still Max, the
    background still Color, and the "Insufficient Images" error has been
    handed to the toast service. *)
Lemma remove_down_to_one_keeps_settings :
  stitchedImageUrl composited <> ""%string
  /\ (List.length (uploadedImages (exec (removeImage 0) browser composited)) < 2)%nat
  /\ stitchedImageUrl (exec (removeImage 0) browser composited) = ""%string
  /\ ~ (adjustSizeSelected (exec (removeImage 0) browser composited) = "None"%string
        /\ backgroundSelected (exec (removeImage 0) browser composited)
           = "Transparent"%string)
  /\ toasts (exec (removeImage 0) browser composited) = [insufficient_images].
Proof.
  split; [intros H; vm_compute in H; discriminate H|].
  split; [vm_compute; apply le_n|]. split; [vm_compute; reflexivity|].
  split; [|vm_compute; reflexivity].
  intros [H _]. vm_compute in H. discriminate H.
Qed.

(** C3, amended. When removing an image leaves fewer than two, the handler
    stores the shortened list and clears the stored output; the composite
    call it ends with hands the "Insufficient Images" error to the toast
    service.  The policy is reset to None and the background to
    Transparent when no image is left; with one image left both keep their
    values. *)
Theorem remove_below_two (env : Env) (s : State) (index : Z) :
  let rest := JSArray.splice1 (uploadedImages s) index in
  let s' := exec (removeImage index) env s in
  (List.length rest < 2)%nat ->
  removeImage index env s = (Normal tt, s')
  /\ uploadedImages s' = rest
  /\ stitchedImageUrl s' = ""%string
  /\ toasts s' = toasts s ++ [insufficient_images]
  /\ (rest = [] ->
        adjustSizeSelected s' = "None"%string
        /\ backgroundSelected s' = "Transparent"%string)
  /\ (rest <> [] ->
        adjustSizeSelected s' = adjustSizeSelected s
        /\ backgroundSelected s' = backgroundSelected s).
Proof.
  intros rest s' Hlt. subst s'. unfold exec.
  rewrite (removeImage_run env s index). cbv zeta. fold rest.
  destruct rest as [|x rest'] eqn:E.
  - cbn [List.length Nat.eqb].
    rewrite stitchImages_insufficient by (cbn; lia).
    repeat apply conj; try reflexivity.
    + intros _. split; reflexivity.
    + intros Hne. contradiction.
  - cbn [List.length Nat.eqb].
    rewrite stitchImages_insufficient by exact Hlt.
    repeat apply conj; try reflexivity.
    + intros Hnil. discriminate.
    + intros _. split; reflexivity.
Qed.

Lemma remove_below_two_witness :
  (List.length (JSArray.splice1 (uploadedImages composited) 0) < 2)%nat
  /\ adjustSizeSelected (exec (removeImage 0) browser composited) = "Max"%string
  /\ adjustSizeSelected
       (exec (removeImage 0) browser (exec (removeImage 0) browser composited))
     = "None"%string.
Proof.
  split; [apply le_n|]. split.
  - refine (proj1 (proj2 (proj2 (proj2 (proj2 (proj2
              (remove_below_two browser composited 0 (le_n 2)))))) _)).
    intros H. vm_compute in H. discriminate H.
  - exact (proj1 (proj1 (proj2 (proj2 (proj2 (proj2
              (remove_below_two browser
                 (exec (removeImage 0) browser composited) 0
                 (le_S 1 1 (le_n 1))))))) eq_refl)).
Defined.

(* ===================================================================== *)
(** ** A canvas without a context *)
(* ===================================================================== *)

Lemma adjust_images_nth scratch layout adjust (images : list HTMLImageElement)
    (i : nat) (img : HTMLImageElement) :
  adjust <> "None"%string ->
  nth_error images i = Some img ->
  nth_error (adjust_images scratch layout adjust images) i
    = Some (resize_image scratch layout adjust images i img).
Proof.
  intros Hn Hi. apply String.eqb_neq in Hn.
  unfold adjust_images. rewrite Hn. cbn [negb].
  rewrite (mapi_from_nth _ 0 i images img Hi). reflexivity.
Qed.

Lemma adjusted_of_nth env s imgs (i : nat) (d : UploadedImage) :
  adjustSizeSelected s <> "None"%string ->
  nth_error imgs i = Some d ->
  nth_error (adjusted_of env s imgs) i
    = Some (resize_image (scratch_context env) (layoutSelected s)
              (adjustSizeSelected s) (map load_image imgs) i (load_image d)).
Proof.
  intros Hn Hi. unfold adjusted_of. apply adjust_images_nth; [exact Hn|].
  rewrite nth_error_map, Hi. reflexivity.
Qed.

Lemma stitchImages_no_context (env : Env) (s : State) :
  (2 <= List.length (uploadedImages s))%nat ->
  output_context env = false ->
  stitchImages env s
  = (Normal tt,
     set_isStitching false
       (push_toast (stitching_failed (Error "Failed to get canvas context")) s)).
Proof.
  intros Hl Hc. rewrite (stitchImages_attempt env s Hl).
  rewrite (render_no_context env _ Hc). reflexivity.
Qed.

(** The claim C6 fails in the resize pass: in a browser that gives no
    context for the scratch canvas of the first image, the composite of
    the two images with the policy Max signals nothing and stores an
    output, with the first image drawn at its original 100x50. *)
Lemma resize_goes_on_without_context :
  scratch_context browser_without_first_scratch 0 = false
  /\ toasts (exec stitchImages browser_without_first_scratch
               (set_adjustSizeSelected "Max" two_images)) = []
  /\ stitchedImageUrl (exec stitchImages browser_without_first_scratch
                         (set_adjustSizeSelected "Max" two_images))
     = "data:image/png;base64,180x60"%string
  /\ canvas_ops (canvas_of browser_without_first_scratch
                   (set_adjustSizeSelected "Max" two_images) [image_A; image_B])
     = [DrawImage (ImageEl (mkImage "data:a" 100 50)) 0 0;
        DrawImage (CanvasEl (mkScratch 80 60 (mkImage "data:b" 80 60)
                               (js_mul (of_Z 60) (js_div (of_Z 80) (of_Z 60)))
                               (of_Z 60))) 100 0].
Proof.
  split; [reflexivity|]. split; [reflexivity|]. split; reflexivity.
Qed.

(** C6, amended. When no context can be obtained for the output canvas, a
    composite call over two or more images hands the "Stitching Failed"
    error to the toast service and stops: the stored output and the list
    are unchanged and the flag is cleared.  When no context can be obtained
    for the scratch canvas of an image in the resize pass, that image is
    handed on at its original size and the composite goes on, storing an
    output when [drawImage] accepts every image handed on. *)
Theorem missing_context (env : Env) (s : State) :
  ((2 <= List.length (uploadedImages s))%nat ->
   output_context env = false ->
   let s' := exec stitchImages env s in
   stitchImages env s = (Normal tt, s')
   /\ toasts s'
      = toasts s ++ [stitching_failed (Error "Failed to get canvas context")]
   /\ stitchedImageUrl s' = stitchedImageUrl s
   /\ uploadedImages s' = uploadedImages s
   /\ isStitching s' = false)
  /\ (forall (imgs : list UploadedImage) (i : nat) (d : UploadedImage),
        all_defined (uploadedImages s) = Some imgs ->
        (2 <= List.length imgs)%nat ->
        output_context env = true ->
        adjustSizeSelected s <> "None"%string ->
        nth_error imgs i = Some d ->
        scratch_context env i = false ->
        drawable (adjusted_of env s imgs) ->
        nth_error (adjusted_of env s imgs) i = Some (ImageEl (load_image d))
        /\ stitchImages env s
           = (Normal tt,
              set_isStitching false
                (set_stitchedImageUrl
                   (toDataURL env (canvas_of env s imgs)) s))).
Proof.
  split.
  - intros Hl Hc s'. subst s'. unfold exec.
    rewrite (stitchImages_no_context env s Hl Hc).
    repeat apply conj; reflexivity.
  - intros imgs i d Hd Hl Hc Hn Hi Hs Hu. split.
    + rewrite (adjusted_of_nth env s imgs i d Hn Hi).
      unfold resize_image. rewrite Hs. reflexivity.
    + rewrite (stitchImages_success env s imgs Hd Hl Hc Hu). reflexivity.
Qed.

Lemma missing_context_witness :
  (2 <= List.length (uploadedImages composited))%nat
  /\ stitchedImageUrl (exec stitchImages browser_without_context composited)
     = stitchedImageUrl composited
  /\ nth_error
       (adjusted_of browser_without_first_scratch
          (set_adjustSizeSelected "Max" two_images) [image_A; image_B]) 0
     = Some (ImageEl (load_image image_A)).
Proof.
  split; [apply le_n|]. split.
  - exact (proj1 (proj2 (proj2 (proj1
             (missing_context browser_without_context composited)
             (le_n 2) eq_refl)))).
  - refine (proj1 (proj2 (missing_context browser_without_first_scratch
                            (set_adjustSizeSelected "Max" two_images))
                     [image_A; image_B] 0%nat image_A eq_refl (le_n 2) eq_refl
                     _ eq_refl eq_refl eq_refl)).
    discriminate.
Defined.

(* ===================================================================== *)
(** ** Rounding in the resize pass *)
(* ===================================================================== *)

Lemma rne_div_nearest (n d : Z) :
  0 < d -> - d <= 2 * (rne_div n d * d - n) <= d.
Proof.
  intros Hd. unfold rne_div.
  pose proof (Z.div_mod n d ltac:(lia)) as E.
  pose proof (Z.mod_pos_bound n d Hd) as B.
  destruct (2 * (n mod d) ?= d) eqn:C.
  - apply Z.compare_eq in C. destruct (Z.even (n / d)); nia.
  - rewrite Z.compare_lt_iff in C. nia.
  - rewrite Z.compare_gt_iff in C. nia.
Qed.

Lemma pow2_split (a b : Z) : 0 <= a -> 0 <= b -> 2 ^ (a + b) = 2 ^ a * 2 ^ b.
Proof. intros. apply Z.pow_add_r; assumption. Qed.

Lemma pow2_pos (a : Z) : 0 <= a -> 0 < 2 ^ a.
Proof. intros. apply Z.pow_pos_nonneg; lia. Qed.

(** The test of [ratio_ge_pow2], with both sides scaled by [2 ^ t]. *)
Lemma ratio_ge_pow2_scaled (n d k t : Z) :
  0 <= t -> 0 <= k + t ->
  ratio_ge_pow2 n d k = true <-> d * 2 ^ (k + t) <= n * 2 ^ t.
Proof.
  intros Ht Hkt. unfold ratio_ge_pow2.
  destruct (0 <=? k) eqn:Hk.
  - apply Z.leb_le in Hk. rewrite Z.leb_le, pow2_split by lia.
    pose proof (pow2_pos t Ht). pose proof (pow2_pos k Hk). split; nia.
  - apply Z.leb_gt in Hk. rewrite Z.leb_le.
    replace t with ((k + t) + (- k)) at 2 by lia.
    rewrite (pow2_split (k + t) (- k)) by lia.
    pose proof (pow2_pos (k + t) Hkt). pose proof (pow2_pos (- k) ltac:(lia)).
    split; nia.
Qed.

Lemma ilog2_ratio_spec (n d t : Z) :
  0 < n -> 0 < d -> 0 <= t -> 0 <= ilog2_ratio n d + t ->
  d * 2 ^ (ilog2_ratio n d + t) <= n * 2 ^ t < d * 2 ^ (ilog2_ratio n d + 1 + t).
Proof.
  intros Hn Hd Ht. unfold ilog2_ratio.
  destruct (Z.log2_spec n Hn) as [Ha1 Ha2].
  destruct (Z.log2_spec d Hd) as [Hb1 Hb2].
  pose proof (Z.log2_nonneg n) as Ha0. pose proof (Z.log2_nonneg d) as Hb0.
  set (a := Z.log2 n) in *. set (b := Z.log2 d) in *.
  unfold Z.succ in *.
  destruct (ratio_ge_pow2 n d (a - b)) eqn:C; intros Hkt.
  - split.
    + apply (ratio_ge_pow2_scaled n d (a - b) t Ht Hkt). exact C.
    + assert (E : 2 ^ (a + 1) * 2 ^ t = 2 ^ b * 2 ^ (a - b + 1 + t)).
      { rewrite <- !pow2_split by lia. f_equal. lia. }
      pose proof (pow2_pos t Ht). pose proof (pow2_pos (a - b + 1 + t) ltac:(lia)).
      nia.
  - split.
    + assert (E : 2 ^ (b + 1) * 2 ^ (a - b - 1 + t) = 2 ^ a * 2 ^ t).
      { rewrite <- !pow2_split by lia. f_equal. lia. }
      pose proof (pow2_pos t Ht). pose proof (pow2_pos (a - b - 1 + t) ltac:(lia)).
      nia.
    + replace (a - b - 1 + 1 + t) with (a - b + t) by lia.
      destruct (Z_le_gt_dec (d * 2 ^ (a - b + t)) (n * 2 ^ t)) as [Hle|Hgt]; [|lia].
      apply (ratio_ge_pow2_scaled n d (a - b) t Ht ltac:(lia)) in Hle. congruence.
Qed.

Lemma ilog2_ratio_range (n d : Z) :
  0 < n -> 0 < d -> n < d * 2 ^ 52 -> d <= n * 2 ^ 1022 ->
  - 1022 <= ilog2_ratio n d < 52.
Proof.
  intros Hn Hd Hhi Hlo. split.
  - destruct (Z_le_gt_dec (- 1022) (ilog2_ratio n d)) as [H|H]; [exact H|exfalso].
    destruct (ilog2_ratio_spec n d (- ilog2_ratio n d) Hn Hd) as [_ Hu]; [lia|lia|].
    replace (ilog2_ratio n d + 1 + - ilog2_ratio n d) with 1 in Hu by lia.
    assert (Hp : 2 ^ 1023 <= 2 ^ (- ilog2_ratio n d))
      by (apply Z.pow_le_mono_r; lia).
    change (2 ^ 1023) with (2 * 2 ^ 1022) in Hp.
    set (big := 2 ^ 1022) in *. change (2 ^ 1) with 2 in Hu. nia.
  - destruct (Z_le_gt_dec 52 (ilog2_ratio n d)) as [H|H]; [exfalso|lia].
    destruct (ilog2_ratio_spec n d 0 Hn Hd) as [Hl _]; [lia|lia|].
    rewrite Z.add_0_r in Hl.
    assert (Hp : 2 ^ 52 <= 2 ^ ilog2_ratio n d)
      by (apply Z.pow_le_mono_r; lia).
    set (p := 2 ^ 52) in *. nia.
Qed.

Lemma round_pos_normal (n d : Z) :
  0 < n -> 0 < d -> n < d * 2 ^ 52 -> d <= n * 2 ^ 1022 ->
  exists m s,
    0 < s <= 1074
    /\ round_pos n d = Finite (m # Z.to_pos (2 ^ s))
    /\ d * 2 ^ 52 <= n * 2 ^ s < d * 2 ^ 53
    /\ 2 ^ 52 <= m <= 2 ^ 53
    /\ - d <= 2 * (m * d - n * 2 ^ s) <= d.
Proof.
  intros Hn Hd Hhi Hlo.
  pose proof (ilog2_ratio_range n d Hn Hd Hhi Hlo) as Hk.
  set (k := ilog2_ratio n d) in *.
  exists (rne_div (n * 2 ^ (52 - k)) d), (52 - k).
  assert (Hs : d * 2 ^ 52 <= n * 2 ^ (52 - k) < d * 2 ^ 53).
  { pose proof (ilog2_ratio_spec n d (52 - k) Hn Hd ltac:(lia)) as H.
    fold k in H. replace (k + (52 - k)) with 52 in H by lia.
    replace (k + 1 + (52 - k)) with 53 in H by lia. apply H. lia. }
  pose proof (rne_div_nearest (n * 2 ^ (52 - k)) d Hd) as Hm.
  split; [lia|]. split; [|split; [exact Hs|split; [|exact Hm]]].
  - unfold round_pos. fold k.
    rewrite Z.max_l by lia.
    destruct (0 <=? k - 52) eqn:E; [apply Z.leb_le in E; lia|].
    replace (- (k - 52)) with (52 - k) by lia. reflexivity.
  - set (m := rne_div (n * 2 ^ (52 - k)) d) in *.
    set (N := n * 2 ^ (52 - k)) in *.
    change (2 ^ 53) with (2 * 2 ^ 52) in *. set (p := 2 ^ 52) in *.
    assert (0 < p) by (subst p; reflexivity).
    split; nia.
Qed.

Lemma round_b64_error (q : Q) :
  (0 < q)%Q -> (q < inject_Z (2 ^ 52))%Q -> (1 # (2 ^ 1022) <= q)%Q ->
  exists r,
    round_b64 q = Finite r
    /\ (q - q * unit_roundoff <= r)%Q /\ (r <= q + q * unit_roundoff)%Q.
Proof.
  destruct q as [qn qd]. unfold Qlt, Qle. simpl Qnum. simpl Qden.
  intros Hpos Hhi Hlo.
  destruct qn as [|n|n]; try lia.
  destruct (round_pos_normal (Zpos n) (Zpos qd)) as [m [s [Hs [E [Hb [Hm Hn]]]]]];
    try lia.
  exists (m # Z.to_pos (2 ^ s)). split; [exact E|].
  assert (Hp : 0 < 2 ^ s) by (apply Z.pow_pos_nonneg; lia).
  unfold unit_roundoff, Qle, Qminus, Qplus, Qmult, Qopp. simpl Qnum. simpl Qden.
  rewrite !Pos2Z.inj_mul, !Z2Pos.id by exact Hp.
  set (P := 2 ^ s) in *. set (N := Zpos n) in *. set (D := Zpos qd) in *.
  change (Z.pos 9007199254740992) with (2 * 2 ^ 52).
  change (2 ^ 53) with (2 * 2 ^ 52) in *.
  set (p := 2 ^ 52) in *.
  assert (0 < p) by (subst p; reflexivity).
  assert (0 < D) by (subst D; lia).
  assert (0 < N) by (subst N; lia).
  split; nia.
Qed.

Lemma to_integer_floor (r : Q) :
  (0 <= r)%Q ->
  (inject_Z (to_integer (Finite r)) <= r)%Q
  /\ (r < inject_Z (to_integer (Finite r) + 1))%Q.
Proof.
  intros Hr.
  assert (E : to_integer (Finite r) = Qfloor r).
  { destruct r as [rn rd]. unfold Qle in Hr. simpl in *.
    apply Z.quot_div_nonneg; lia. }
  rewrite E. split; [apply Qfloor_le | apply Qlt_floor].
Qed.

Lemma inject_Z_pos (z : Z) : 0 < z -> (0 < inject_Z z)%Q.
Proof. intros H. unfold Qlt. simpl. lia. Qed.

(** The sides of an image as rationals: at least 1 and at most
    2147483647. *)
Lemma inject_Z_bounds (z : Z) :
  0 < z <= 2147483647 -> (1 <= inject_Z z)%Q /\ (inject_Z z <= 2147483647)%Q.
Proof.
  intros [H1 H2]. split.
  - change 1%Q with (inject_Z 1). rewrite <- Zle_Qle. lia.
  - change 2147483647%Q with (inject_Z 2147483647). rewrite <- Zle_Qle. lia.
Qed.

(** A product of pixel counts below 2^52, as a rational. *)
Lemma inject_Z_product (a b : Z) :
  0 < a -> 0 < b -> a * b < 2 ^ 52 ->
  (1 <= inject_Z a * inject_Z b)%Q
  /\ (inject_Z a * inject_Z b <= 4503599627370495)%Q.
Proof.
  intros Ha Hb H. rewrite <- inject_Z_mult. split.
  - change 1%Q with (inject_Z 1). rewrite <- Zle_Qle. nia.
  - change 4503599627370495%Q with (inject_Z 4503599627370495).
    rewrite <- Zle_Qle. change (2 ^ 52) with 4503599627370496 in H. lia.
Qed.

(** A number within less than [1 / h] of [e / h] truncates to a pixel
    count within one pixel below it. *)
Lemma truncation_within_a_pixel (e h : Z) (r : Q) :
  0 < h -> (0 <= r)%Q ->
  (inject_Z e - 1 < inject_Z h * r)%Q ->
  (inject_Z h * r < inject_Z e + 1)%Q ->
  to_integer (Finite r) * h <= e <= (to_integer (Finite r) + 1) * h.
Proof.
  intros Hh Hr Hlo Hhi.
  destruct (to_integer_floor r Hr) as [Hf1 Hf2].
  set (N := to_integer (Finite r)) in *.
  pose proof (inject_Z_pos h Hh) as HH.
  split.
  - destruct (Z_le_gt_dec (N * h) e) as [Hle|Hgt]; [exact Hle|exfalso].
    assert (Hq : (inject_Z e + 1 <= inject_Z N * inject_Z h)%Q).
    { rewrite <- inject_Z_mult. change 1%Q with (inject_Z 1).
      rewrite <- inject_Z_plus, <- Zle_Qle. lia. }
    nra.
  - destruct (Z_le_gt_dec e ((N + 1) * h)) as [Hle|Hgt]; [exact Hle|exfalso].
    assert (Hq : (inject_Z (N + 1) * inject_Z h <= inject_Z e - 1)%Q).
    { rewrite <- inject_Z_mult. change 1%Q with (inject_Z 1).
      unfold Qminus. rewrite <- inject_Z_opp, <- inject_Z_plus, <- Zle_Qle. lia. }
    nra.
Qed.

Lemma Qpos_factor (a b : Q) : (0 < a)%Q -> (0 < a * b)%Q -> (0 < b)%Q.
Proof.
  intros Ha Hab. destruct (Qlt_le_dec 0 b) as [H|H]; [exact H|exfalso].
  assert (a * b <= 0)%Q by nra. lra.
Qed.

Section PixelArithmetic.

(** A target extent [T] and the two sides [w] and [h] of an image: all
    positive, the sides at most 2147483647. *)
Variables T w h : Z.
Hypothesis HT : 0 < T.
Hypothesis Hw : 0 < w <= 2147483647.
Hypothesis Hh : 0 < h <= 2147483647.

(** The quotient [w / h] of two pixel counts, rounded. *)
Lemma aspect_ratio_error :
  exists r,
    js_div (of_Z w) (of_Z h) = Finite r
    /\ (inject_Z w - inject_Z w * unit_roundoff <= inject_Z h * r)%Q
    /\ (inject_Z h * r <= inject_Z w + inject_Z w * unit_roundoff)%Q.
Proof.
  destruct (inject_Z_bounds w Hw) as [Hw1 Hw2].
  destruct (inject_Z_bounds h Hh) as [Hh1 Hh2].
  set (W := inject_Z w) in *. set (H := inject_Z h) in *.
  assert (Hx : (H * (W / H) == W)%Q) by (apply Qmult_div_r; lra).
  assert (Hxpos : (0 < W / H)%Q) by (apply Qlt_shift_div_l; lra).
  set (x := (W / H)%Q) in *.
  destruct (round_b64_error x) as [r [E [Hl Hu]]].
  - exact Hxpos.
  - change (inject_Z (2 ^ 52)) with 4503599627370496%Q.
    assert (0 <= (H - 1) * x)%Q by (apply Qmult_le_0_compat; lra).
    nra.
  - apply Qle_trans with (1 # 2147483647)%Q; [unfold Qle; simpl; lia|].
    assert (0 <= (2147483647 - H) * x)%Q by (apply Qmult_le_0_compat; lra).
    assert (1 <= x * 2147483647)%Q by nra.
    lra.
  - exists r. split.
    + unfold js_div, of_Z. fold W H.
      assert (Hz : is_zero H = false).
      { unfold is_zero, H. simpl. apply Z.eqb_neq. lia. }
      rewrite Hz. exact E.
    + unfold unit_roundoff in *. split; nra.
Qed.

(** [T * (w / h)] in binary64, without its fraction. *)
Lemma scaled_by_product :
  T * w < 2 ^ 52 ->
  exists r,
    js_mul (of_Z T) (js_div (of_Z w) (of_Z h)) = Finite r
    /\ 0 <= to_integer (Finite r)
    /\ to_integer (Finite r) * h <= T * w <= (to_integer (Finite r) + 1) * h.
Proof.
  intros He.
  destruct aspect_ratio_error as [r1 [E1 [Hl1 Hu1]]].
  destruct (inject_Z_bounds w Hw) as [Hw1 Hw2].
  destruct (inject_Z_bounds h Hh) as [Hh1 Hh2].
  destruct (inject_Z_product T w HT (proj1 Hw) He) as [He1 He2].
  pose proof (inject_Z_pos T HT) as HT1.
  rewrite E1. unfold js_mul, of_Z.
  set (W := inject_Z w) in *. set (H := inject_Z h) in *.
  set (Tq := inject_Z T) in *.
  unfold unit_roundoff in Hl1, Hu1.
  assert (Hr1 : (0 < r1)%Q) by (apply (Qpos_factor H); lra).
  set (y := (Tq * r1)%Q).
  set (e := (Tq * W)%Q) in *.
  assert (Hy1 : (H * y <= e + e * (1 # 9007199254740992))%Q) by (subst y e; nra).
  assert (Hy2 : (e - e * (1 # 9007199254740992) <= H * y)%Q) by (subst y e; nra).
  assert (Hypos : (0 < y)%Q) by (subst y; nra).
  set (hy := (H * y)%Q) in *.
  assert (Hyle : (y <= hy)%Q).
  { assert (0 <= (H - 1) * y)%Q by (apply Qmult_le_0_compat; lra).
    subst hy. nra. }
  destruct (round_b64_error y) as [r [E [Hl Hu]]].
  - exact Hypos.
  - change (inject_Z (2 ^ 52)) with 4503599627370496%Q. lra.
  - apply Qle_trans with (1 # 4294967296)%Q; [unfold Qle; simpl; lia|].
    assert (0 <= (2147483647 - H) * y)%Q by (apply Qmult_le_0_compat; lra).
    assert (1 <= y * 4294967296)%Q by (subst hy; nra).
    lra.
  - exists r.
    unfold unit_roundoff in Hl, Hu.
    assert (Hrpos : (0 <= r)%Q) by nra.
    split; [exact E|]. split.
    + destruct (to_integer_floor r Hrpos) as [_ Hf].
      destruct (Z_le_gt_dec 0 (to_integer (Finite r))) as [Hle|Hgt]; [exact Hle|].
      exfalso.
      assert (inject_Z (to_integer (Finite r) + 1) <= 0)%Q.
      { change 0%Q with (inject_Z 0). rewrite <- Zle_Qle. lia. }
      lra.
    + assert (Hhr1 : (hy - hy * (1 # 9007199254740992) <= H * r)%Q)
        by (subst hy; nra).
      assert (Hhr2 : (H * r <= hy + hy * (1 # 9007199254740992))%Q)
        by (subst hy; nra).
      set (hr := (H * r)%Q) in *.
      apply truncation_within_a_pixel; [lia | exact Hrpos | |];
        rewrite inject_Z_mult; fold Tq W H e hr; lra.
Qed.

(** [T / (w / h)] in binary64, without its fraction. *)
Lemma scaled_by_quotient :
  T * h < 2 ^ 52 ->
  exists r,
    js_div (of_Z T) (js_div (of_Z w) (of_Z h)) = Finite r
    /\ 0 <= to_integer (Finite r)
    /\ to_integer (Finite r) * w <= T * h <= (to_integer (Finite r) + 1) * w.
Proof.
  intros He.
  destruct aspect_ratio_error as [r1 [E1 [Hl1 Hu1]]].
  destruct (inject_Z_bounds w Hw) as [Hw1 Hw2].
  destruct (inject_Z_bounds h Hh) as [Hh1 Hh2].
  destruct (inject_Z_product T h HT (proj1 Hh) He) as [He1 He2].
  pose proof (inject_Z_pos T HT) as HT1.
  rewrite E1. unfold js_div at 1. unfold of_Z.
  set (W := inject_Z w) in *. set (H := inject_Z h) in *.
  set (Tq := inject_Z T) in *.
  unfold unit_roundoff in Hl1, Hu1.
  assert (Hr1 : (0 < r1)%Q) by (apply (Qpos_factor H); lra).
  assert (Hz : is_zero r1 = false).
  { unfold is_zero. apply Z.eqb_neq. unfold Qlt in Hr1. simpl in Hr1. lia. }
  rewrite Hz.
  assert (Hy : (r1 * (Tq / r1) == Tq)%Q) by (apply Qmult_div_r; lra).
  assert (Hypos : (0 < Tq / r1)%Q) by (apply Qlt_shift_div_l; lra).
  set (y := (Tq / r1)%Q) in *.
  set (e := (Tq * H)%Q) in *.
  set (z := (W * y)%Q).
  assert (Hz1 : (z - z * (1 # 9007199254740992) <= e)%Q).
  { assert (0 <= (H * r1 - (W - W * (1 # 9007199254740992))) * y)%Q
      by (apply Qmult_le_0_compat; lra).
    subst z e. nra. }
  assert (Hz2 : (e <= z + z * (1 # 9007199254740992))%Q).
  { assert (0 <= (W + W * (1 # 9007199254740992) - H * r1) * y)%Q
      by (apply Qmult_le_0_compat; lra).
    subst z e. nra. }
  assert (Hyle : (y <= z)%Q).
  { assert (0 <= (W - 1) * y)%Q by (apply Qmult_le_0_compat; lra).
    subst z. nra. }
  destruct (round_b64_error y) as [r [E [Hl Hu]]].
  - exact Hypos.
  - change (inject_Z (2 ^ 52)) with 4503599627370496%Q. lra.
  - apply Qle_trans with (1 # 4294967296)%Q; [unfold Qle; simpl; lia|].
    assert (0 <= (2147483647 - W) * y)%Q by (apply Qmult_le_0_compat; lra).
    assert (1 <= y * 4294967296)%Q by (subst z; nra).
    lra.
  - exists r.
    unfold unit_roundoff in Hl, Hu.
    assert (Hrpos : (0 <= r)%Q) by nra.
    split; [exact E|]. split.
    + destruct (to_integer_floor r Hrpos) as [_ Hf].
      destruct (Z_le_gt_dec 0 (to_integer (Finite r))) as [Hle|Hgt]; [exact Hle|].
      exfalso.
      assert (inject_Z (to_integer (Finite r) + 1) <= 0)%Q.
      { change 0%Q with (inject_Z 0). rewrite <- Zle_Qle. lia. }
      lra.
    + assert (Hwr1 : (z - z * (1 # 9007199254740992) <= W * r)%Q)
        by (subst z; nra).
      assert (Hwr2 : (W * r <= z + z * (1 # 9007199254740992))%Q)
        by (subst z; nra).
      set (wr := (W * r)%Q) in *.
      apply truncation_within_a_pixel; [lia | exact Hrpos | |];
        rewrite inject_Z_mult; fold Tq W H e wr; lra.
Qed.

End PixelArithmetic.

(** *** Quotients and products that are whole numbers *)

Lemma round_pos_exact (d m : Z) :
  0 < d -> 0 < m < 2 ^ 52 ->
  exists r, round_pos (m * d) d = Finite r /\ (r == inject_Z m)%Q.
Proof.
  intros Hd Hm.
  assert (Hp : 0 < 2 ^ 1022) by (apply Z.pow_pos_nonneg; lia).
  destruct (round_pos_normal (m * d) d) as [mant [s [Hs [E [Hb [_ Hn]]]]]];
    try nia.
  exists (mant # Z.to_pos (2 ^ s)). split; [exact E|].
  assert (Hps : 0 < 2 ^ s) by (apply Z.pow_pos_nonneg; lia).
  assert (Hmant : mant = m * 2 ^ s) by nia.
  unfold Qeq. simpl. rewrite Z2Pos.id by exact Hps. lia.
Qed.

Lemma round_b64_exact (q : Q) (m : Z) :
  0 < m < 2 ^ 52 -> (q == inject_Z m)%Q ->
  exists r, round_b64 q = Finite r /\ (r == inject_Z m)%Q.
Proof.
  destruct q as [qn qd]. unfold Qeq. simpl. intros Hm E.
  rewrite Z.mul_1_r in E. subst qn.
  unfold round_b64. simpl Qnum. simpl Qden.
  destruct (m * Z.pos qd) as [|n|n] eqn:En; try lia.
  rewrite <- En. apply round_pos_exact; lia.
Qed.

Lemma to_integer_exact (r : Q) (k : Z) :
  (r == inject_Z k)%Q -> to_integer (Finite r) = k.
Proof.
  destruct r as [rn rd]. unfold Qeq. simpl. intros E.
  rewrite Z.mul_1_r in E. subst rn. apply Z.quot_mul. lia.
Qed.

Lemma whole_ratio (w h : Z) :
  0 < w -> 0 < h -> w mod h = 0 ->
  0 < w / h <= w /\ w = (w / h) * h.
Proof.
  intros Hw Hh Hm.
  pose proof (Z.div_mod w h ltac:(lia)) as E. rewrite Hm in E.
  assert (0 < w / h) by nia. split; [split; [lia | nia] | lia].
Qed.

(** [w / h] in binary64 when [h] divides [w]. *)
Lemma whole_aspect_ratio (w h : Z) :
  0 < w < 2 ^ 52 -> 0 < h -> w mod h = 0 ->
  exists r,
    js_div (of_Z w) (of_Z h) = Finite r /\ (r == inject_Z (w / h))%Q.
Proof.
  intros Hw Hh Hm.
  destruct (whole_ratio w h (proj1 Hw) Hh Hm) as [Hq E].
  unfold js_div, of_Z.
  assert (Hz : is_zero (inject_Z h) = false).
  { unfold is_zero. simpl. apply Z.eqb_neq. lia. }
  rewrite Hz. apply round_b64_exact; [lia|].
  rewrite E at 1. rewrite inject_Z_mult. apply Qdiv_mult_l.
  intros H0. unfold Qeq in H0. simpl in H0. lia.
Qed.

(** The value stored in a canvas attribute for [T * (w / h)]. *)
Lemma product_pixels (default T w h : Z) :
  0 < T -> 0 < w <= 2147483647 -> 0 < h <= 2147483647 ->
  T * w < 2 ^ 52 -> (T * w) / h <= 2147483647 ->
  let N := to_dim default (js_mul (of_Z T) (js_div (of_Z w) (of_Z h))) in
  0 <= N
  /\ N * h <= T * w <= (N + 1) * h
  /\ (w mod h = 0 -> N = T * (w / h)).
Proof.
  intros HT Hw Hh He Hfit N.
  destruct (scaled_by_product T w h HT Hw Hh He) as [r [E [H0 Hb]]].
  assert (Hle : to_integer (Finite r) <= (T * w) / h).
  { apply Z.div_le_lower_bound; lia. }
  assert (EN : N = to_integer (Finite r)).
  { subst N. rewrite E. apply to_dim_in_range. lia. }
  split; [lia|]. split; [rewrite EN; exact Hb|].
  intros Hm. rewrite EN.
  destruct (whole_ratio w h (proj1 Hw) (proj1 Hh) Hm) as [Hq Ew].
  destruct (whole_aspect_ratio w h ltac:(change (2 ^ 52) with 4503599627370496; lia)
              (proj1 Hh) Hm) as [r1 [E1 Hr1]].
  rewrite E1 in E. unfold js_mul, of_Z in E.
  destruct (round_b64_exact (inject_Z T * r1) (T * (w / h))) as [r' [E' Hr']].
  - split; [nia|]. nia.
  - rewrite Hr1, inject_Z_mult. reflexivity.
  - rewrite E' in E. injection E as <-. apply to_integer_exact. exact Hr'.
Qed.

(** The value stored in a canvas attribute for [T / (w / h)]. *)
Lemma quotient_pixels (default T w h : Z) :
  0 < T -> 0 < w <= 2147483647 -> 0 < h <= 2147483647 ->
  T * h < 2 ^ 52 -> (T * h) / w <= 2147483647 ->
  let N := to_dim default (js_div (of_Z T) (js_div (of_Z w) (of_Z h))) in
  0 <= N
  /\ N * w <= T * h <= (N + 1) * w
  /\ (w mod h = 0 -> T mod (w / h) = 0 -> N = T / (w / h)).
Proof.
  intros HT Hw Hh He Hfit N.
  destruct (scaled_by_quotient T w h HT Hw Hh He) as [r [E [H0 Hb]]].
  assert (Hle : to_integer (Finite r) <= (T * h) / w).
  { apply Z.div_le_lower_bound; lia. }
  assert (EN : N = to_integer (Finite r)).
  { subst N. rewrite E. apply to_dim_in_range. lia. }
  split; [lia|]. split; [rewrite EN; exact Hb|].
  intros Hm Hk. rewrite EN.
  destruct (whole_ratio w h (proj1 Hw) (proj1 Hh) Hm) as [Hq Ew].
  destruct (whole_ratio T (w / h) HT (proj1 Hq) Hk) as [Hq' ET].
  destruct (whole_aspect_ratio w h ltac:(change (2 ^ 52) with 4503599627370496; lia)
              (proj1 Hh) Hm) as [r1 [E1 Hr1]].
  rewrite E1 in E. unfold js_div, of_Z in E.
  assert (Hz : is_zero r1 = false).
  { unfold is_zero. apply Z.eqb_neq. intros H1.
    unfold Qeq in Hr1. simpl in Hr1. rewrite H1 in Hr1. nia. }
  rewrite Hz in E.
  destruct (round_b64_exact (inject_Z T / r1) (T / (w / h))) as [r' [E' Hr']].
  - split; [lia|]. nia.
  - rewrite Hr1. rewrite ET at 1. rewrite inject_Z_mult. apply Qdiv_mult_l.
    intros H1. unfold Qeq in H1. simpl in H1. lia.
  - rewrite E' in E. injection E as <-. apply to_integer_exact. exact Hr'.
Qed.

(** Between two multiples of [h] there is one quotient. *)
Lemma floor_of_bracket (N e h : Z) :
  0 < h -> N * h <= e <= (N + 1) * h -> e mod h <> 0 -> N = e / h.
Proof.
  intros Hh Hb Hm.
  pose proof (Z.div_mod e h ltac:(lia)) as E.
  pose proof (Z.mod_pos_bound e h Hh) as B.
  nia.
Qed.
(* ===================================================================== *)
(** ** The resize pass *)
(* ===================================================================== *)

Lemma loaded_heights (imgs : list UploadedImage) :
  map img_height (map load_image imgs) = map height imgs.
Proof. rewrite map_map. reflexivity. Qed.

Lemma loaded_widths (imgs : list UploadedImage) :
  map img_width (map load_image imgs) = map width imgs.
Proof. rewrite map_map. reflexivity. Qed.

Lemma is_target_not_None (adjust : string) (T : Z) (extents : list Z) :
  is_target adjust T extents -> adjust <> "None"%string.
Proof. intros [[-> _] | [-> _]]; discriminate. Qed.

Lemma is_target_in (adjust : string) (T : Z) (extents : list Z) :
  is_target adjust T extents -> In T extents.
Proof. intros [[_ [H _]] | [_ [H _]]]; exact H. Qed.

Lemma is_target_bounds (adjust : string) (T : Z) (imgs : list UploadedImage)
    (f : UploadedImage -> Z) :
  Forall (fun d => 0 < f d < pixel_limit) imgs ->
  is_target adjust T (map f imgs) -> 0 < T < pixel_limit.
Proof.
  intros Hall Ht. rewrite Forall_forall in Hall.
  pose proof (is_target_in _ _ _ Ht) as Hin.
  apply in_map_iff in Hin. destruct Hin as [d [<- Hd]]. apply Hall. exact Hd.
Qed.

Lemma is_target_storable (adjust : string) (T : Z) (imgs : list UploadedImage)
    (f : UploadedImage -> Z) :
  Forall (fun d => 0 < f d <= 2147483647) imgs ->
  is_target adjust T (map f imgs) -> 0 < T <= 2147483647.
Proof.
  intros Hall Ht. rewrite Forall_forall in Hall.
  pose proof (is_target_in _ _ _ Ht) as Hin.
  apply in_map_iff in Hin. destruct Hin as [d [<- Hd]]. apply Hall. exact Hd.
Qed.

(** What the two [if]s of the callback leave in the target variable. *)
Lemma target_extent (adjust : string) (T : Z) (extents : list Z) (own : Z) :
  is_target adjust T extents ->
  (if (adjust =? "Min")%string then Math_min extents
   else if (adjust =? "Max")%string then Math_max extents
   else of_Z own) = of_Z T.
Proof.
  intros [[-> Hm] | [-> Hm]]; cbn [String.eqb Ascii.eqb Bool.eqb].
  - destruct (Math_min_spec extents) as [m [E Hm']].
    { destruct Hm as [Hin _]. intros E. rewrite E in Hin. contradiction. }
    rewrite E. f_equal. apply (is_minimum_unique _ _ _ Hm' Hm).
  - destruct (Math_max_spec extents) as [m [E Hm']].
    { destruct Hm as [Hin _]. intros E. rewrite E in Hin. contradiction. }
    rewrite E. f_equal. apply (is_maximum_unique _ _ _ Hm' Hm).
Qed.

Lemma resize_image_Horizontal (scratch : nat -> bool) (adjust : string)
    (images : list HTMLImageElement) (i : nat) (img : HTMLImageElement) (T : Z) :
  scratch i = true ->
  is_target adjust T (map img_height images) ->
  storable T ->
  resize_image scratch "Horizontal" adjust images i img
  = CanvasEl
      (mkScratch
         (to_dim 300
            (js_mul (of_Z T) (js_div (of_Z (img_width img)) (of_Z (img_height img)))))
         T img
         (js_mul (of_Z T) (js_div (of_Z (img_width img)) (of_Z (img_height img))))
         (of_Z T)).
Proof.
  intros Hs Ht HT. unfold resize_image. rewrite Hs.
  cbn [negb String.eqb Ascii.eqb Bool.eqb].
  rewrite (target_extent adjust T _ (img_height img) Ht).
  rewrite (to_dim_of_Z 150 T HT). reflexivity.
Qed.

Lemma resize_image_Vertical (scratch : nat -> bool) (adjust : string)
    (images : list HTMLImageElement) (i : nat) (img : HTMLImageElement) (T : Z) :
  scratch i = true ->
  is_target adjust T (map img_width images) ->
  storable T ->
  resize_image scratch "Vertical" adjust images i img
  = CanvasEl
      (mkScratch T
         (to_dim 150
            (js_div (of_Z T) (js_div (of_Z (img_width img)) (of_Z (img_height img)))))
         img (of_Z T)
         (js_div (of_Z T) (js_div (of_Z (img_width img)) (of_Z (img_height img))))).
Proof.
  intros Hs Ht HT. unfold resize_image. rewrite Hs.
  cbn [negb String.eqb Ascii.eqb Bool.eqb].
  rewrite (target_extent adjust T _ (img_width img) Ht).
  rewrite (to_dim_of_Z 300 T HT). reflexivity.
Qed.

Lemma nth_positive_size (imgs : list UploadedImage) (i : nat) (d : UploadedImage) :
  Forall positive_size imgs -> nth_error imgs i = Some d -> positive_size d.
Proof.
  intros Hall Hi. rewrite Forall_forall in Hall. apply Hall.
  apply (nth_error_In imgs i). exact Hi.
Qed.

(** An image whose scratch canvas has no context is handed on as it is. *)
Lemma not_resized (env : Env) (s : State) (imgs : list UploadedImage)
    (i : nat) (d : UploadedImage) :
  adjustSizeSelected s <> "None" ->
  nth_error imgs i = Some d ->
  scratch_context env i = false ->
  nth_error (adjusted_of env s imgs) i = Some (ImageEl (load_image d)).
Proof.
  intros Hn Hi Hs. rewrite (adjusted_of_nth env s imgs i d Hn Hi).
  unfold resize_image. rewrite Hs. reflexivity.
Qed.

(** The canvas that replaces an image whose scratch canvas has a
    context. *)
Lemma resized_to_canvas_Horizontal (env : Env) (s : State)
    (imgs : list UploadedImage) (T : Z) (i : nat) (d : UploadedImage) :
  Forall positive_size imgs ->
  layoutSelected s = "Horizontal" ->
  is_target (adjustSizeSelected s) T (map height imgs) ->
  nth_error imgs i = Some d ->
  scratch_context env i = true ->
  exists c,
    nth_error (adjusted_of env s imgs) i = Some (CanvasEl c)
    /\ sc_image c = load_image d
    /\ sc_height c = T
    /\ sc_width c
       = to_dim 300 (js_mul (of_Z T) (js_div (of_Z (width d)) (of_Z (height d)))).
Proof.
  intros Hall Hlay Ht Hi Hs.
  assert (HT : 0 < T <= 2147483647).
  { apply (is_target_storable (adjustSizeSelected s) T imgs height); [|exact Ht].
    eapply Forall_impl; [|exact Hall]. intros a [_ Ha]. exact Ha. }
  rewrite (adjusted_of_nth env s imgs i d (is_target_not_None _ _ _ Ht) Hi).
  rewrite Hlay.
  rewrite (resize_image_Horizontal _ _ _ i (load_image d) T Hs)
    by (first [rewrite loaded_heights; exact Ht | unfold storable; lia]).
  eexists. split; [reflexivity|]. repeat split.
Qed.

Lemma resized_to_canvas_Vertical (env : Env) (s : State)
    (imgs : list UploadedImage) (T : Z) (i : nat) (d : UploadedImage) :
  Forall positive_size imgs ->
  layoutSelected s = "Vertical" ->
  is_target (adjustSizeSelected s) T (map width imgs) ->
  nth_error imgs i = Some d ->
  scratch_context env i = true ->
  exists c,
    nth_error (adjusted_of env s imgs) i = Some (CanvasEl c)
    /\ sc_image c = load_image d
    /\ sc_width c = T
    /\ sc_height c
       = to_dim 150 (js_div (of_Z T) (js_div (of_Z (width d)) (of_Z (height d)))).
Proof.
  intros Hall Hlay Ht Hi Hs.
  assert (HT : 0 < T <= 2147483647).
  { apply (is_target_storable (adjustSizeSelected s) T imgs width); [|exact Ht].
    eapply Forall_impl; [|exact Hall]. intros a [Ha _]. exact Ha. }
  rewrite (adjusted_of_nth env s imgs i d (is_target_not_None _ _ _ Ht) Hi).
  rewrite Hlay.
  rewrite (resize_image_Vertical _ _ _ i (load_image d) T Hs)
    by (first [rewrite loaded_widths; exact Ht | unfold storable; lia]).
  eexists. split; [reflexivity|]. repeat split.
Qed.

(** The claim C2 fails as stated, in one place by the design of the code
    and in another by a defect of it.  By design: in a browser that gives
    no context for its scratch canvas, the callback of the resize pass
    returns the image as it is, so with the policy Max the 100x50 image
    keeps its height 50 although the greatest height is 60, and the
    composite is drawn with it.  By a defect: with the policy Min the 1x49
    image next to a 49x49 one is at the target height already and its
    scaled width is 1 * 49 / 49 = 1, yet its canvas gets the width 0, since
    49 * (1 / 49) is 0.9999999999999999 in binary64, and [drawImage]
    refuses that canvas: the composite ends in "Stitching Failed". *)
Lemma resize_pass_skips_or_loses_an_image :
  (is_maximum 60 (map height [image_A; image_B])
   /\ nth_error
        (adjusted_of browser_without_first_scratch
           (set_adjustSizeSelected "Max" two_images) [image_A; image_B]) 0
      = Some (ImageEl (load_image image_A))
   /\ src_height (ImageEl (load_image image_A)) = 50
   /\ stitchedImageUrl
        (exec stitchImages browser_without_first_scratch
           (set_adjustSizeSelected "Max" two_images))
      = "data:image/png;base64,180x60")
  /\ (is_minimum 49 (map height [image_E; image_F])
      /\ 1 * 49 / 49 = 1
      /\ (exists c,
             nth_error (adjusted_of browser strip_images [image_E; image_F]) 0
               = Some (CanvasEl c)
             /\ sc_height c = 49 /\ sc_width c = 0)
      /\ exec stitchImages browser strip_images
         = push_toast (stitching_failed (refused browser)) strip_images).
Proof.
  split.
  - split.
    + split; [right; left; reflexivity|]. repeat constructor; simpl; lia.
    + split; [reflexivity|]. split; [reflexivity|]. vm_compute. reflexivity.
  - split.
    + split; [left; reflexivity|]. repeat constructor; simpl; lia.
    + split; [reflexivity|]. split.
      * eexists. split; [reflexivity|]. split; reflexivity.
      * vm_compute. reflexivity.
Qed.

(** C2, amended. With the policy None the resize pass hands on every
    decoded image as it is.  With the policy Min or Max, [T] being the
    least, or the greatest, extent across the layout axis of the images, an
    image whose scratch canvas has no context is handed on as it is, and
    every other image is replaced by a canvas of that image whose extent
    across the axis is [T].  Along the axis, when the product of [T] and
    the side of the image is below 2^52 and the scaled extent is a value
    the attribute holds, the canvas has the exact scaled extent
    [T * width / height] (for the layout Vertical [T * height / width])
    without its fraction when that is not a whole number, and has it
    exactly when the width of the image is a whole multiple of its height
    (for the layout Vertical, a whole multiple [m] of its height with [T]
    a multiple of [m]). *)
Theorem resize_pass (env : Env) (s : State) (imgs : list UploadedImage) :
  (adjustSizeSelected s = "None"%string ->
     adjusted_of env s imgs = map (fun d => ImageEl (load_image d)) imgs)
  /\ (Forall positive_size imgs ->
      (layoutSelected s = "Horizontal"%string ->
         forall (T : Z) (i : nat) (d : UploadedImage),
           is_target (adjustSizeSelected s) T (map height imgs) ->
           nth_error imgs i = Some d ->
           (scratch_context env i = false ->
              nth_error (adjusted_of env s imgs) i = Some (ImageEl (load_image d)))
           /\ (scratch_context env i = true ->
                 exists c,
                   nth_error (adjusted_of env s imgs) i = Some (CanvasEl c)
                   /\ sc_image c = load_image d
                   /\ sc_height c = T
                   /\ (T * width d < 2 ^ 52 ->
                       T * width d / height d <= 2147483647 ->
                       (T * width d mod height d <> 0 ->
                          sc_width c = T * width d / height d)
                       /\ (width d mod height d = 0 ->
                             sc_width c = T * (width d / height d)))))
      /\ (layoutSelected s = "Vertical"%string ->
            forall (T : Z) (i : nat) (d : UploadedImage),
              is_target (adjustSizeSelected s) T (map width imgs) ->
              nth_error imgs i = Some d ->
              (scratch_context env i = false ->
                 nth_error (adjusted_of env s imgs) i
                 = Some (ImageEl (load_image d)))
              /\ (scratch_context env i = true ->
                    exists c,
                      nth_error (adjusted_of env s imgs) i = Some (CanvasEl c)
                      /\ sc_image c = load_image d
                      /\ sc_width c = T
                      /\ (T * height d < 2 ^ 52 ->
                          T * height d / width d <= 2147483647 ->
                          (T * height d mod width d <> 0 ->
                             sc_height c = T * height d / width d)
                          /\ (width d mod height d = 0 ->
                              T mod (width d / height d) = 0 ->
                                sc_height c = T / (width d / height d)))))).
Proof.
  split.
  - intros Hnone. unfold adjusted_of. rewrite Hnone, adjust_images_None.
    apply map_map.
  - intros Hall. split.
    + intros Hlay T i d Ht Hi.
      destruct (nth_positive_size imgs i d Hall Hi) as [Hw Hh].
      assert (HT : 0 < T <= 2147483647).
      { apply (is_target_storable (adjustSizeSelected s) T imgs height); [|exact Ht].
        eapply Forall_impl; [|exact Hall]. intros a [_ Ha]. exact Ha. }
      split.
      * apply not_resized; [exact (is_target_not_None _ _ _ Ht) | exact Hi].
      * intros Hs.
        destruct (resized_to_canvas_Horizontal env s imgs T i d Hall Hlay Ht Hi Hs)
          as [c [Ec [Ei [Ecross Ealong]]]].
        exists c. split; [exact Ec|]. split; [exact Ei|]. split; [exact Ecross|].
        intros He Hfit.
        destruct (product_pixels 300 T (width d) (height d)
                    (proj1 HT) Hw Hh He Hfit) as [_ [Hb Hexact]].
        rewrite Ealong. split.
        -- intros Hm. apply floor_of_bracket; [lia | exact Hb | exact Hm].
        -- exact Hexact.
    + intros Hlay T i d Ht Hi.
      destruct (nth_positive_size imgs i d Hall Hi) as [Hw Hh].
      assert (HT : 0 < T <= 2147483647).
      { apply (is_target_storable (adjustSizeSelected s) T imgs width); [|exact Ht].
        eapply Forall_impl; [|exact Hall]. intros a [Ha _]. exact Ha. }
      split.
      * apply not_resized; [exact (is_target_not_None _ _ _ Ht) | exact Hi].
      * intros Hs.
        destruct (resized_to_canvas_Vertical env s imgs T i d Hall Hlay Ht Hi Hs)
          as [c [Ec [Ei [Ecross Ealong]]]].
        exists c. split; [exact Ec|]. split; [exact Ei|]. split; [exact Ecross|].
        intros He Hfit.
        destruct (quotient_pixels 150 T (width d) (height d)
                    (proj1 HT) Hw Hh He Hfit) as [_ [Hb Hexact]].
        rewrite Ealong. split.
        -- intros Hm. apply floor_of_bracket; [lia | exact Hb | exact Hm].
        -- exact Hexact.
Qed.

Lemma resize_pass_witness :
  Forall positive_size [image_A; image_B]
  /\ Forall positive_size [image_C; image_D]
  /\ is_target "Max" 60 (map height [image_A; image_B])
  /\ is_target "Min" 2 (map height [image_C; image_D])
  /\ (exists c,
         nth_error
           (adjusted_of browser (set_adjustSizeSelected "Max" two_images)
              [image_A; image_B]) 0 = Some (CanvasEl c)
         /\ sc_image c = load_image image_A
         /\ sc_height c = 60
         /\ sc_width c = 60 * (100 / 50))
  /\ (exists c,
         nth_error (adjusted_of browser thin_images [image_C; image_D]) 0
           = Some (CanvasEl c)
         /\ sc_image c = load_image image_C
         /\ sc_height c = 2
         /\ sc_width c = 2 * 10 / 3).
Proof.
  assert (Hd : Forall positive_size [image_A; image_B]).
  { repeat constructor; simpl; lia. }
  assert (Hd' : Forall positive_size [image_C; image_D]).
  { repeat constructor; simpl; lia. }
  assert (Ht : is_target "Max" 60 (map height [image_A; image_B])).
  { right. split; [reflexivity|]. split; [right; left; reflexivity|].
    repeat constructor; simpl; lia. }
  assert (Ht' : is_target "Min" 2 (map height [image_C; image_D])).
  { left. split; [reflexivity|]. split; [right; left; reflexivity|].
    repeat constructor; simpl; lia. }
  split; [exact Hd|]. split; [exact Hd'|]. split; [exact Ht|]. split; [exact Ht'|].
  split.
  - destruct (proj2 (proj1 (proj2 (resize_pass browser
                 (set_adjustSizeSelected "Max" two_images) [image_A; image_B]) Hd)
               eq_refl 60 0%nat image_A Ht eq_refl) eq_refl)
      as [c [Ec [Ei [Eh Ew]]]].
    exists c. split; [exact Ec|]. split; [exact Ei|]. split; [exact Eh|].
    apply (proj2 (Ew ltac:(apply Z.ltb_lt; reflexivity)
                         ltac:(apply Z.leb_le; reflexivity))).
    reflexivity.
  - destruct (proj2 (proj1 (proj2 (resize_pass browser thin_images
                 [image_C; image_D]) Hd')
               eq_refl 2 0%nat image_C Ht' eq_refl) eq_refl)
      as [c [Ec [Ei [Eh Ew]]]].
    exists c. split; [exact Ec|]. split; [exact Ei|]. split; [exact Eh|].
    apply (proj1 (Ew ltac:(apply Z.ltb_lt; reflexivity)
                         ltac:(apply Z.leb_le; reflexivity))).
    intros H. vm_compute in H. discriminate H.
Defined.

(** Beyond 2^52 the product of the resize pass can miss the whole part
    of the scaled extent: for the target 219554910 and an image
    134463437x232559837 the scaled width is 126944137 and 1/232559837,
    and the canvas gets the width 126944136. *)
Example product_beyond_binary64 :
  2 ^ 52 < 219554910 * 134463437
  /\ 219554910 * 134463437 / 232559837 = 126944137
  /\ 219554910 * 134463437 mod 232559837 = 1
  /\ to_dim 300
       (js_mul (of_Z 219554910) (js_div (of_Z 134463437) (of_Z 232559837)))
     = 126944136.
Proof. repeat split; vm_compute; reflexivity. Qed.

(** The scenario of the specification: the images 100x50 and 80x60 with
    the layout Horizontal and the policy Max become 120x60 and 80x60 on an
    output of 200x60. *)
Example scenario_Max :
  map (fun src => (src_width src, src_height src))
    (adjusted_of browser (set_adjustSizeSelected "Max" two_images)
       [image_A; image_B]) = [(120, 60); (80, 60)]
  /\ canvas_width (canvas_of browser (set_adjustSizeSelected "Max" two_images)
                     [image_A; image_B]) = 200
  /\ canvas_height (canvas_of browser (set_adjustSizeSelected "Max" two_images)
                      [image_A; image_B]) = 60.
Proof. repeat split; reflexivity. Qed.

(** On every triple of the sample extents the quotient, the product and
    the second quotient of the resize pass are the ones [SpecFloat]
    computes for binary64. *)
Lemma rounding_agrees_with_SpecFloat : agrees_on_samples = true.
Proof. vm_compute. reflexivity. Qed.

(* ===================================================================== *)
(** ** The composite call around its await *)
(* ===================================================================== *)

(** The two parts of [stitchImages], run one right after the other, are
    the call taken as one step. *)
Lemma stitchImages_splits_at_await (env : Env) (s : State) :
  stitchImages_in_two_parts env s = stitchImages env s.
Proof.
  unfold stitchImages_in_two_parts, stitchImages, stitchImages_begin,
    stitchImages_resume, render, load_images, report_failure.
  unfold bind, gets, asks, modify, throw, ret, complete, try_catch_finally.
  cbv beta.
  destruct (List.length (uploadedImages s) <? 2)%nat; [reflexivity|].
  cbv beta iota.
  destruct (output_context env); cbn [negb]; cbv beta iota; [|reflexivity].
  cbn [uploadedImages set_isStitching].
  destruct (all_defined (uploadedImages s)) as [l|]; cbv beta iota; [|reflexivity].
  cbn [layoutSelected adjustSizeSelected backgroundSelected backgroundColor
       set_isStitching].
  destruct (compose _ _ _ _ _); reflexivity.
Qed.

(* ===================================================================== *)
(** ** Uploads *)
(* ===================================================================== *)

Lemma with_loaded_nil (s : State) :
  uploadedImages (with_loaded [] s) = uploadedImages s.
Proof. unfold with_loaded. simpl. apply app_nil_r. Qed.

Lemma with_loaded_cons (l : LoadedFile) (rest : list LoadedFile) (s : State) :
  with_loaded rest
    (set_uploadedImages (uploadedImages s ++ [Some (imageData l)]) s)
  = with_loaded (l :: rest) s.
Proof.
  unfold with_loaded. cbn [uploadedImages set_uploadedImages map].
  rewrite <- app_assoc. reflexivity.
Qed.

(** While the counter stays above 0 the callbacks only push. *)
Lemma image_onloads_pending (imageFiles : list File) (loaded : list LoadedFile)
    (loadRemaining : Z) (env : Env) (s : State) :
  Z.of_nat (List.length loaded) < loadRemaining ->
  image_onloads imageFiles loaded loadRemaining env s
  = (Normal tt, with_loaded loaded s).
Proof.
  revert loadRemaining s.
  induction loaded as [|l rest IH]; intros r s Hr.
  - unfold with_loaded. simpl. rewrite app_nil_r. destruct s; reflexivity.
  - cbn [List.length] in Hr.
    cbn [image_onloads]. unfold bind at 1. unfold image_onload.
    unfold bind at 1. unfold modify at 1.
    destruct (r - 1 =? 0) eqn:E; [apply Z.eqb_eq in E; lia|].
    unfold ret at 1. cbn [fst snd]. unfold bind.
    rewrite IH by lia. rewrite with_loaded_cons. reflexivity.
Qed.

(** The callback that brings the counter to 0 is the last one. *)
Lemma image_onloads_complete (imageFiles : list File) (loaded : list LoadedFile)
    (env : Env) (s : State) :
  loaded <> [] ->
  image_onloads imageFiles loaded (Z.of_nat (List.length loaded)) env s
  = last_onload imageFiles env (with_loaded loaded s).
Proof.
  revert s. induction loaded as [|l rest IH]; intros s Hne; [contradiction|].
  destruct rest as [|l' rest'].
  - cbn [List.length image_onloads]. unfold bind at 1. unfold image_onload.
    unfold bind at 1. unfold modify at 1.
    change (Z.of_nat 1 - 1 =? 0) with true. cbv iota.
    unfold last_onload, with_loaded. cbn [map].
    unfold bind, ret, showToast_success, files_uploaded, toast_add, modify.
    destruct (stitchImages_begin env _) as [[[settled|]|e] s1]; reflexivity.
  - remember (l' :: rest') as tail eqn:Etail.
    assert (Hlen : Z.of_nat (List.length (l :: tail)) - 1
                   = Z.of_nat (List.length tail)) by (cbn [List.length]; lia).
    assert (Hpos : 0 < Z.of_nat (List.length tail))
      by (subst tail; cbn [List.length]; lia).
    cbn [image_onloads]. unfold bind at 1. unfold image_onload.
    unfold bind at 1. unfold modify at 1. rewrite Hlen.
    destruct (Z.of_nat (List.length tail) =? 0) eqn:E;
      [apply Z.eqb_eq in E; lia|].
    unfold ret at 1. cbn [fst snd]. unfold bind.
    rewrite IH by (subst tail; discriminate). rewrite with_loaded_cons.
    destruct (last_onload imageFiles env _) as [[[]|e] s1]; reflexivity.
Qed.

Lemma stitchImages_resume_run (env : Env) (s : State)
    (settled : Completion (list HTMLImageElement)) :
  stitchImages_resume settled env s
  = (Normal tt,
     match resumed env s settled with
     | Normal canvas =>
         set_isStitching false (set_stitchedImageUrl (toDataURL env canvas) s)
     | Throw e => set_isStitching false (push_toast (stitching_failed e) s)
     end).
Proof.
  unfold stitchImages_resume, resumed, try_catch_finally, bind, complete, asks,
    gets, modify, report_failure.
  destruct settled as [images|e]; [|reflexivity].
  cbv beta iota. destruct (compose _ _ _ _ _); reflexivity.
Qed.

Lemma stitchImages_begin_few (env : Env) (s : State) :
  (List.length (uploadedImages s) < 2)%nat ->
  stitchImages_begin env s = (Normal None, push_toast insufficient_images s).
Proof.
  intros H. apply Nat.ltb_lt in H.
  unfold stitchImages_begin, bind, gets. rewrite H. reflexivity.
Qed.

Lemma stitchImages_begin_no_context (env : Env) (s : State) :
  (2 <= List.length (uploadedImages s))%nat ->
  output_context env = false ->
  stitchImages_begin env s
  = (Normal None,
     set_isStitching false
       (push_toast (stitching_failed (Error "Failed to get canvas context")) s)).
Proof.
  intros H Hc. apply Nat.ltb_ge in H.
  unfold stitchImages_begin, bind, gets, asks, modify. rewrite H, Hc. reflexivity.
Qed.

Lemma stitchImages_begin_suspended (env : Env) (s : State) :
  (2 <= List.length (uploadedImages s))%nat ->
  output_context env = true ->
  stitchImages_begin env s
  = (Normal (Some (settled_of env s)), set_isStitching true s).
Proof.
  intros H Hc. apply Nat.ltb_ge in H.
  unfold stitchImages_begin, bind, gets, asks, modify. rewrite H, Hc. reflexivity.
Qed.

Lemma render_with_context (env : Env) (s : State) :
  output_context env = true ->
  render env s = (resumed env s (settled_of env s), s).
Proof.
  intros Hc. unfold render, load_images, resumed, settled_of, bind, asks, gets,
    throw, ret, complete.
  rewrite Hc. cbn [negb]. cbv beta iota.
  destruct (all_defined (uploadedImages s)); reflexivity.
Qed.

(** A composite call that is suspended at its [await], as one step. *)
Lemma stitchImages_suspended (env : Env) (s : State) :
  (2 <= List.length (uploadedImages s))%nat ->
  output_context env = true ->
  stitchImages env s
  = (Normal tt,
     match resumed env s (settled_of env s) with
     | Normal canvas =>
         set_isStitching false (set_stitchedImageUrl (toDataURL env canvas) s)
     | Throw e => set_isStitching false (push_toast (stitching_failed e) s)
     end).
Proof.
  intros H Hc. rewrite (stitchImages_attempt env s H).
  rewrite (render_with_context env _ Hc). cbn [fst].
  change (resumed env (set_isStitching true s) (settled_of env (set_isStitching true s)))
    with (resumed env s (settled_of env s)).
  destruct (resumed env s (settled_of env s)); reflexivity.
Qed.

Lemma onFileSelect_without_images (files : list File) (env : Env) (s : State) :
  filter is_image_file files = [] ->
  onFileSelect files env s
  = (Normal [], match files with [] => s | _ :: _ => push_toast invalid_files s end).
Proof.
  intros H. unfold onFileSelect. rewrite H.
  destruct files; reflexivity.
Qed.

Lemma onFileSelect_with_images (files : list File) (env : Env) (s : State) :
  filter is_image_file files <> [] ->
  onFileSelect files env s = (Normal (filter is_image_file files), s).
Proof.
  intros H. unfold onFileSelect.
  destruct files as [|f files]; [contradiction H; reflexivity|].
  cbn [List.length Nat.ltb Nat.leb].
  destruct (filter is_image_file (f :: files)); [contradiction H; reflexivity|].
  reflexivity.
Qed.

Lemma filter_none {A} (p : A -> bool) (l : list A) :
  Forall (fun x => p x = false) l -> filter p l = [].
Proof.
  induction 1 as [|x l Hx _ IH]; [reflexivity|]. simpl. rewrite Hx. exact IH.
Qed.

(** X2. A selection none of whose files has a MIME type that starts with
    "image/" adds nothing to the list, starts no composite and changes
    nothing but the notifications, where it leaves the "Invalid Files"
    error; an empty selection leaves not even that. *)
Theorem upload_without_image_files (files : list File)
    (loaded : list LoadedFile) (env : Env) (s : State) :
  Forall (fun f => prefix "image/" (file_type f) = false) files ->
  (files = [] -> upload files loaded env s = (Normal tt, s))
  /\ (files <> [] ->
        upload files loaded env s = (Normal tt, push_toast invalid_files s)).
Proof.
  intros H. apply (filter_none is_image_file) in H.
  unfold upload, bind. rewrite (onFileSelect_without_images files env s H).
  split; intros Hf.
  - subst files. reflexivity.
  - destruct files; [contradiction Hf|]; reflexivity.
Qed.

Lemma upload_without_image_files_witness :
  Forall (fun f => prefix "image/" (file_type f) = false) [text_file]
  /\ upload [text_file] [] browser initial_state
     = (Normal tt, push_toast invalid_files initial_state).
Proof.
  assert (H : Forall (fun f => prefix "image/" (file_type f) = false) [text_file])
    by (repeat constructor).
  split; [exact H|].
  apply (proj2 (upload_without_image_files [text_file] [] browser initial_state H)).
  discriminate.
Defined.

Lemma upload_with_images (files : list File) (loaded : list LoadedFile)
    (env : Env) (s : State) :
  filter is_image_file files <> [] ->
  upload files loaded env s
  = image_onloads (filter is_image_file files) loaded
      (Z.of_nat (List.length (filter is_image_file files))) env s.
Proof.
  intros H. unfold upload, bind.
  rewrite (onFileSelect_with_images files env s H).
  destruct (filter is_image_file files); [contradiction H|]; reflexivity.
Qed.

(** X3. The composite and the "Files Uploaded" message wait for the last
    image file of the selection: as long as fewer files have loaded than
    the selection has image files, each loaded file has been appended to
    the list, in the order of loading, and nothing else has happened: no
    composite, no message, the stored output as it was. *)
Theorem upload_waits_for_every_image (files : list File)
    (loaded : list LoadedFile) (env : Env) (s : State) :
  (List.length loaded < List.length (filter is_image_file files))%nat ->
  let s' := exec (upload files loaded) env s in
  upload files loaded env s = (Normal tt, with_loaded loaded s)
  /\ uploadedImages s'
     = uploadedImages s ++ map (fun l => Some (imageData l)) loaded
  /\ toasts s' = toasts s
  /\ stitchedImageUrl s' = stitchedImageUrl s
  /\ isStitching s' = isStitching s.
Proof.
  intros Hlt s'. subst s'. unfold exec.
  rewrite upload_with_images
    by (intros E; rewrite E in Hlt; simpl in Hlt; lia).
  rewrite image_onloads_pending by lia.
  repeat apply conj; reflexivity.
Qed.

Lemma upload_waits_for_every_image_witness :
  filter is_image_file [file_A; text_file; file_B] = [file_A; file_B]
  /\ uploadedImages
       (exec (upload [file_A; text_file; file_B] [loaded_A]) browser initial_state)
     = [Some image_A]
  /\ toasts
       (exec (upload [file_A; text_file; file_B] [loaded_A]) browser initial_state)
     = [].
Proof.
  split; [reflexivity|].
  assert (H : (List.length [loaded_A]
               < List.length (filter is_image_file [file_A; text_file; file_B]))%nat)
    by (simpl; lia).
  pose proof (upload_waits_for_every_image [file_A; text_file; file_B] [loaded_A]
                browser initial_state H) as W.
  cbv zeta in W. destruct W as [_ [W1 [W2 _]]]. split; [exact W1 | exact W2].
Defined.

(** X4. When every image file of a selection has loaded, the list has
    grown by these files in the order of loading, files of other types
    are neither added nor counted, and the component is in the state of a
    composite call on the grown list, with one more notification: "Files
    Uploaded" with the number of image files.  That message follows the
    error of a composite that ended before its [await] (too few images, no
    context) and precedes the error of one that failed after it. *)
Theorem upload_completes (files : list File) (loaded : list LoadedFile)
    (env : Env) (s : State) :
  loaded <> [] ->
  List.length loaded = List.length (filter is_image_file files) ->
  let imageFiles := filter is_image_file files in
  let composed := exec stitchImages env (with_loaded loaded s) in
  let s' := exec (upload files loaded) env s in
  fst (upload files loaded env s) = Normal tt
  /\ uploadedImages s'
     = uploadedImages s ++ map (fun l => Some (imageData l)) loaded
  /\ stitchedImageUrl s' = stitchedImageUrl composed
  /\ isStitching s' = isStitching composed
  /\ layoutSelected s' = layoutSelected s
  /\ backgroundSelected s' = backgroundSelected s
  /\ backgroundColor s' = backgroundColor s
  /\ adjustSizeSelected s' = adjustSizeSelected s
  /\ downloads s' = downloads s
  /\ exists before after,
       toasts composed = toasts s ++ before ++ after
       /\ toasts s' = toasts s ++ before ++ files_uploaded imageFiles :: after
       /\ (List.length before + List.length after <= 1)%nat
       /\ (before <> [] ->
             (List.length (uploadedImages s') < 2)%nat
             \/ output_context env = false)
       /\ (after <> [] ->
             (2 <= List.length (uploadedImages s'))%nat
             /\ output_context env = true).
Proof.
  intros Hne Hlen imageFiles composed s'. subst composed s'. unfold exec.
  rewrite upload_with_images
    by (intros E; rewrite E in Hlen; destruct loaded; [congruence|discriminate]).
  rewrite <- Hlen. fold imageFiles.
  rewrite (image_onloads_complete imageFiles loaded env s Hne).
  set (s1 := with_loaded loaded s).
  assert (Hs1 : uploadedImages s1
                = uploadedImages s ++ map (fun l => Some (imageData l)) loaded)
    by reflexivity.
  unfold last_onload, bind.
  destruct (Nat.lt_ge_cases (List.length (uploadedImages s1)) 2) as [Hfew|Hmany].
  - rewrite (stitchImages_begin_few env s1 Hfew).
    rewrite (stitchImages_insufficient env s1 Hfew).
    cbn [fst snd toast_add modify push_toast ret uploadedImages stitchedImageUrl
         isStitching layoutSelected backgroundSelected backgroundColor
         adjustSizeSelected downloads toasts].
    repeat (split; [first [reflexivity | exact Hs1]|]).
    exists [insufficient_images], [].
    split; [reflexivity|]. split; [rewrite <- app_assoc; reflexivity|].
    split; [simpl; lia|]. split.
    + intros _. left. exact Hfew.
    + intros H. contradiction H. reflexivity.
  - destruct (output_context env) eqn:Hc.
    + rewrite (stitchImages_begin_suspended env s1 Hmany Hc).
      rewrite (stitchImages_suspended env s1 Hmany Hc).
      unfold toast_add, modify. cbv beta iota.
      rewrite stitchImages_resume_run.
      change (resumed env (push_toast (files_uploaded imageFiles)
                             (set_isStitching true s1)) (settled_of env s1))
        with (resumed env s1 (settled_of env s1)).
      destruct (resumed env s1 (settled_of env s1)) as [canvas|e];
        cbn [fst snd push_toast set_isStitching set_stitchedImageUrl
             uploadedImages stitchedImageUrl isStitching layoutSelected
             backgroundSelected backgroundColor adjustSizeSelected downloads
             toasts].
      * repeat (split; [first [reflexivity | exact Hs1]|]).
        exists [], [].
        split; [rewrite !app_nil_r; reflexivity|]. split; [reflexivity|].
        split; [simpl; lia|]. split; intros H; contradiction H; reflexivity.
      * repeat (split; [first [reflexivity | exact Hs1]|]).
        exists [], [stitching_failed e].
        split; [reflexivity|]. split; [rewrite <- app_assoc; reflexivity|].
        split; [simpl; lia|]. split.
        -- intros H. contradiction H. reflexivity.
        -- intros _. split; [exact Hmany | reflexivity].
    + rewrite (stitchImages_begin_no_context env s1 Hmany Hc).
      rewrite (stitchImages_no_context env s1 Hmany Hc).
      cbn [fst snd toast_add modify push_toast ret set_isStitching uploadedImages
           stitchedImageUrl isStitching layoutSelected backgroundSelected
           backgroundColor adjustSizeSelected downloads toasts].
      repeat (split; [first [reflexivity | exact Hs1]|]).
      exists [stitching_failed (Error "Failed to get canvas context")], [].
      split; [reflexivity|]. split; [rewrite <- app_assoc; reflexivity|].
      split; [simpl; lia|]. split.
      * intros _. right. reflexivity.
      * intros H. contradiction H. reflexivity.
Qed.

Lemma upload_completes_witness :
  uploadedImages
    (exec (upload [file_A; text_file; file_B] [loaded_A; loaded_B])
       browser initial_state)
  = [Some image_A; Some image_B]
  /\ stitchedImageUrl
       (exec (upload [file_A; text_file; file_B] [loaded_A; loaded_B])
          browser initial_state)
     = stitchedImageUrl (exec stitchImages browser two_images)
  /\ toasts
       (exec (upload [file_A; text_file; file_B] [loaded_A; loaded_B])
          browser initial_state)
     = [files_uploaded [file_A; file_B]].
Proof.
  assert (Hne : [loaded_A; loaded_B] <> []) by discriminate.
  assert (Hlen : List.length [loaded_A; loaded_B]
                 = List.length (filter is_image_file [file_A; text_file; file_B]))
    by reflexivity.
  pose proof (upload_completes [file_A; text_file; file_B] [loaded_A; loaded_B]
                browser initial_state Hne Hlen) as W.
  cbv zeta in W. destruct W as [_ [W1 [W2 _]]].
  split; [exact W1|]. split; [exact W2|].
  vm_compute. reflexivity.
Defined.

(* ===================================================================== *)
(** ** Failed composites *)
(* ===================================================================== *)

Lemma render_outcome (env : Env) (s : State) :
  (output_context env = false
   /\ fst (render env s) = Throw (Error "Failed to get canvas context"))
  \/ (output_context env = true /\ all_defined (uploadedImages s) = None
      /\ fst (render env s) = Throw (TypeError (undefined_read_message env)))
  \/ (exists imgs,
        output_context env = true /\ all_defined (uploadedImages s) = Some imgs
        /\ ~ drawable (adjusted_of env s imgs)
        /\ fst (render env s) = Throw (refused env))
  \/ (exists imgs,
        output_context env = true /\ all_defined (uploadedImages s) = Some imgs
        /\ drawable (adjusted_of env s imgs)
        /\ fst (render env s) = Normal (canvas_of env s imgs)).
Proof.
  destruct (output_context env) eqn:Hc.
  - destruct (all_defined (uploadedImages s)) as [imgs|] eqn:Hd.
    + destruct (forallb usable (adjusted_of env s imgs)) eqn:Hu.
      * right. right. right. exists imgs.
        rewrite (render_defined env s imgs Hc Hd Hu). auto.
      * right. right. left. exists imgs.
        assert (Hn : ~ drawable (adjusted_of env s imgs))
          by (unfold drawable; rewrite Hu; discriminate).
        rewrite (render_refused env s imgs Hc Hd Hn). auto.
    + right. left. rewrite (render_undefined env s Hc Hd). auto.
  - left. rewrite (render_no_context env s Hc). auto.
Qed.

Lemma render_ignores_flag (env : Env) (s : State) (b : bool) :
  fst (render env (set_isStitching b s)) = fst (render env s).
Proof.
  unfold render, load_images, bind, asks, gets, throw, ret, complete.
  destruct (output_context env); cbn [negb]; cbv beta iota; [|reflexivity].
  cbn [uploadedImages set_isStitching].
  destruct (all_defined (uploadedImages s)); reflexivity.
Qed.

(** X5. A composite call over a list of two or more entries that fails,
    for want of a context, on an [undefined] entry or on a canvas without
    area, leaves exactly one "Stitching Failed" error that names the cause,
    and leaves the stored output, the list and the settings as they were,
    so the output of the last composite that succeeded stays in place. *)
Theorem failed_composite_keeps_output (env : Env) (s : State) (e : JSError) :
  (2 <= List.length (uploadedImages s))%nat ->
  fst (render env s) = Throw e ->
  let s' := exec stitchImages env s in
  stitchImages env s = (Normal tt, s')
  /\ toasts s' = toasts s ++ [stitching_failed e]
  /\ stitchedImageUrl s' = stitchedImageUrl s
  /\ uploadedImages s' = uploadedImages s
  /\ isStitching s' = false
  /\ layoutSelected s' = layoutSelected s
  /\ backgroundSelected s' = backgroundSelected s
  /\ backgroundColor s' = backgroundColor s
  /\ adjustSizeSelected s' = adjustSizeSelected s
  /\ downloads s' = downloads s
  /\ (output_context env = false -> e = Error "Failed to get canvas context")
  /\ (output_context env = true -> all_defined (uploadedImages s) = None ->
        e = TypeError (undefined_read_message env))
  /\ (output_context env = true ->
        forall imgs, all_defined (uploadedImages s) = Some imgs ->
                     e = refused env /\ ~ drawable (adjusted_of env s imgs)).
Proof.
  intros Hl He s'. subst s'. unfold exec.
  rewrite (stitchImages_attempt env s Hl).
  assert (Hbusy : fst (render env (set_isStitching true s)) = Throw e)
    by (rewrite render_ignores_flag; exact He).
  rewrite Hbusy. cbn [snd].
  repeat (split; [reflexivity|]).
  split; [|split].
  - intros Hc. rewrite (render_no_context env s Hc) in He. simpl in He. congruence.
  - intros Hc Hd. rewrite (render_undefined env s Hc Hd) in He. simpl in He.
    congruence.
  - intros Hc imgs Hd.
    destruct (forallb usable (adjusted_of env s imgs)) eqn:Hu.
    + rewrite (render_defined env s imgs Hc Hd Hu) in He. discriminate He.
    + assert (Hn : ~ drawable (adjusted_of env s imgs))
        by (unfold drawable; rewrite Hu; discriminate).
      rewrite (render_refused env s imgs Hc Hd Hn) in He. simpl in He.
      split; [congruence | exact Hn].
Qed.

Lemma failed_composite_keeps_output_witness :
  toasts (exec stitchImages browser_without_context two_images)
  = [stitching_failed (Error "Failed to get canvas context")]
  /\ stitchedImageUrl (exec stitchImages browser_without_context two_images) = "".
Proof.
  assert (Hl : (2 <= List.length (uploadedImages two_images))%nat) by apply le_n.
  assert (He : fst (render browser_without_context two_images)
               = Throw (Error "Failed to get canvas context")) by reflexivity.
  pose proof (failed_composite_keeps_output browser_without_context two_images
                _ Hl He) as W.
  cbv zeta in W. destruct W as [_ [W1 [W2 _]]]. split; [exact W1 | exact W2].
Defined.

(* ===================================================================== *)
(** ** The geometry of a composite *)
(* ===================================================================== *)

Lemma nth_decodable (imgs : list UploadedImage) (i : nat) (d : UploadedImage) :
  Forall decodable imgs -> nth_error imgs i = Some d -> decodable d.
Proof.
  intros Hall Hi. rewrite Forall_forall in Hall. apply Hall.
  apply (nth_error_In imgs i). exact Hi.
Qed.

Lemma decodable_positive_size (imgs : list UploadedImage) :
  Forall decodable imgs -> Forall positive_size imgs.
Proof.
  intros H. eapply Forall_impl; [|exact H].
  intros d [Hw Hh]. unfold pixel_limit in *.
  change (2 ^ 15) with 32768 in *. split; lia.
Qed.

(** Below [pixel_limit] the product of two pixel counts is far from
    2^52, and the scaled extent is a value the attribute holds. *)
Lemma decodable_product (T a b : Z) :
  0 < T < pixel_limit -> 0 < a < pixel_limit -> 0 < b < pixel_limit ->
  T * a < 2 ^ 52 /\ T * a / b <= 2147483647.
Proof.
  unfold pixel_limit. change (2 ^ 15) with 32768.
  change (2 ^ 52) with 4503599627370496.
  intros HT Ha Hb.
  assert (Hp : T * a < 1073741824) by nia.
  split; [lia|].
  assert (T * a / b <= T * a) by (apply Z.div_le_upper_bound; nia).
  lia.
Qed.

Lemma resized_Horizontal (env : Env) (s : State) (imgs : list UploadedImage)
    (T : Z) (i : nat) (d : UploadedImage) :
  Forall decodable imgs ->
  layoutSelected s = "Horizontal" ->
  is_target (adjustSizeSelected s) T (map height imgs) ->
  nth_error imgs i = Some d ->
  scratch_context env i = true ->
  exists c,
    nth_error (adjusted_of env s imgs) i = Some (CanvasEl c)
    /\ sc_height c = T
    /\ sc_width c * height d <= T * width d <= (sc_width c + 1) * height d.
Proof.
  intros Hall Hlay Ht Hi Hs.
  assert (HT : 0 < T < pixel_limit).
  { apply (is_target_bounds (adjustSizeSelected s) T imgs height); [|exact Ht].
    eapply Forall_impl; [|exact Hall]. intros a [_ Ha]. exact Ha. }
  destruct (nth_decodable imgs i d Hall Hi) as [Hw Hh].
  pose proof (decodable_positive_size imgs Hall) as Hpos.
  destruct (nth_positive_size imgs i d Hpos Hi) as [Hw' Hh'].
  destruct (resized_to_canvas_Horizontal env s imgs T i d Hpos Hlay Ht Hi Hs)
    as [c [Ec [_ [Ecross Ealong]]]].
  destruct (decodable_product T (width d) (height d) HT Hw Hh) as [He Hfit].
  destruct (product_pixels 300 T (width d) (height d) (proj1 HT) Hw' Hh' He Hfit)
    as [_ [Hb _]].
  exists c. split; [exact Ec|]. split; [exact Ecross|].
  rewrite Ealong. exact Hb.
Qed.

Lemma resized_Vertical (env : Env) (s : State) (imgs : list UploadedImage)
    (T : Z) (i : nat) (d : UploadedImage) :
  Forall decodable imgs ->
  layoutSelected s = "Vertical" ->
  is_target (adjustSizeSelected s) T (map width imgs) ->
  nth_error imgs i = Some d ->
  scratch_context env i = true ->
  exists c,
    nth_error (adjusted_of env s imgs) i = Some (CanvasEl c)
    /\ sc_width c = T
    /\ sc_height c * width d <= T * height d <= (sc_height c + 1) * width d.
Proof.
  intros Hall Hlay Ht Hi Hs.
  assert (HT : 0 < T < pixel_limit).
  { apply (is_target_bounds (adjustSizeSelected s) T imgs width); [|exact Ht].
    eapply Forall_impl; [|exact Hall]. intros a [Ha _]. exact Ha. }
  destruct (nth_decodable imgs i d Hall Hi) as [Hw Hh].
  pose proof (decodable_positive_size imgs Hall) as Hpos.
  destruct (nth_positive_size imgs i d Hpos Hi) as [Hw' Hh'].
  destruct (resized_to_canvas_Vertical env s imgs T i d Hpos Hlay Ht Hi Hs)
    as [c [Ec [_ [Ecross Ealong]]]].
  destruct (decodable_product T (height d) (width d) HT Hh Hw) as [He Hfit].
  destruct (quotient_pixels 150 T (width d) (height d) (proj1 HT) Hw' Hh' He Hfit)
    as [_ [Hb _]].
  exists c. split; [exact Ec|]. split; [exact Ecross|].
  rewrite Ealong. exact Hb.
Qed.

(** The whole number of pixels [N] left of [T * w / h]. *)
Lemma pixels_nonneg (N T w h : Z) :
  0 < T -> 0 < w -> 0 < h -> T * w <= (N + 1) * h -> 0 <= N.
Proof. intros HT Hw Hh H. nia. Qed.

Lemma pixels_none (N T w h : Z) :
  0 < T -> 0 < w -> 0 < h ->
  N * h <= T * w <= (N + 1) * h -> T * w < h -> N = 0.
Proof. intros HT Hw Hh H Hthin. nia. Qed.

Lemma pixels_some (N T w h : Z) :
  0 < h -> T * w <= (N + 1) * h -> 2 * h <= T * w -> 0 < N.
Proof. intros Hh H Hwide. nia. Qed.

Lemma drawable_nth (adjusted : list ImageSource) :
  (forall i src, nth_error adjusted i = Some src -> usable src = true) ->
  drawable adjusted.
Proof.
  intros H. unfold drawable. apply forallb_forall. intros src Hin.
  destruct (In_nth_error _ _ Hin) as [i Hi]. exact (H i src Hi).
Qed.

Lemma not_drawable_nth (adjusted : list ImageSource) (i : nat) (src : ImageSource) :
  nth_error adjusted i = Some src -> usable src = false -> ~ drawable adjusted.
Proof.
  intros Hi Hu Hd. unfold drawable in Hd. rewrite forallb_forall in Hd.
  rewrite (Hd src (nth_error_In _ _ Hi)) in Hu. discriminate Hu.
Qed.

Lemma nth_of_adjusted (env : Env) (s : State) (imgs : list UploadedImage)
    (i : nat) (src : ImageSource) :
  nth_error (adjusted_of env s imgs) i = Some src ->
  exists d, nth_error imgs i = Some d.
Proof.
  intros Hi.
  assert (Hlt : (i < List.length imgs)%nat).
  { rewrite <- (adjusted_of_length env s imgs). apply nth_error_Some.
    rewrite Hi. discriminate. }
  destruct (nth_error imgs i) as [d|] eqn:E; [exists d; reflexivity|].
  apply nth_error_None in E. lia.
Qed.

Lemma stitchImages_refused (env : Env) (s : State) (imgs : list UploadedImage) :
  all_defined (uploadedImages s) = Some imgs ->
  (2 <= List.length imgs)%nat ->
  output_context env = true ->
  ~ drawable (adjusted_of env s imgs) ->
  stitchImages env s
  = (Normal tt, set_isStitching false (push_toast (stitching_failed (refused env)) s)).
Proof.
  intros Hd Hl Hc Hu.
  rewrite stitchImages_attempt by (rewrite <- (all_defined_length _ _ Hd); exact Hl).
  rewrite (render_refused env (set_isStitching true s) imgs Hc Hd Hu). reflexivity.
Qed.

Lemma stitchImages_drawn (env : Env) (s : State) (imgs : list UploadedImage) :
  all_defined (uploadedImages s) = Some imgs ->
  (2 <= List.length imgs)%nat ->
  output_context env = true ->
  drawable (adjusted_of env s imgs) ->
  stitchImages env s
  = (Normal tt,
     set_isStitching false
       (set_stitchedImageUrl (toDataURL env (canvas_of env s imgs)) s)).
Proof.
  intros Hd Hl Hc Hu.
  rewrite (stitchImages_success env s imgs Hd Hl Hc Hu). reflexivity.
Qed.

(** X6. With the layout Horizontal and the policy Min or Max, [T] the
    least or the greatest height, a composite over decoded images fails
    with the InvalidStateError of [drawImage] as soon as one image is so
    narrow that [T * width < height]: its scratch canvas is 0 pixels
    wide.  The call then adds "Stitching Failed" and stores nothing.  When
    every image has [2 * height <= T * width] the composite is stored;
    with the policy Max that holds for all images 2 pixels wide or more.
    The same holds for the layout Vertical with widths and heights
    exchanged. *)
Theorem narrow_image_fails_the_composite (env : Env) (s : State)
    (imgs : list UploadedImage) :
  all_defined (uploadedImages s) = Some imgs ->
  (2 <= List.length imgs)%nat ->
  output_context env = true ->
  (forall i, (i < List.length imgs)%nat -> scratch_context env i = true) ->
  Forall decodable imgs ->
  let failed :=
    stitchImages env s
    = (Normal tt,
       set_isStitching false (push_toast (stitching_failed (refused env)) s)) in
  let stored :=
    stitchImages env s
    = (Normal tt,
       set_isStitching false
         (set_stitchedImageUrl (toDataURL env (canvas_of env s imgs)) s)) in
  (layoutSelected s = "Horizontal" ->
     forall T, is_target (adjustSizeSelected s) T (map height imgs) ->
       (Exists (fun d => T * width d < height d) imgs -> failed)
       /\ (Forall (fun d => 2 * height d <= T * width d) imgs -> stored)
       /\ (adjustSizeSelected s = "Max" ->
             Forall (fun d => 2 <= width d) imgs -> stored))
  /\ (layoutSelected s = "Vertical" ->
        forall T, is_target (adjustSizeSelected s) T (map width imgs) ->
          (Exists (fun d => T * height d < width d) imgs -> failed)
          /\ (Forall (fun d => 2 * width d <= T * height d) imgs -> stored)
          /\ (adjustSizeSelected s = "Max" ->
                Forall (fun d => 2 <= height d) imgs -> stored)).
Proof.
  intros Hd Hl Hc Hctx Hall failed stored.
  assert (Hscr : forall i d, nth_error imgs i = Some d -> scratch_context env i = true).
  { intros i d Hi. apply Hctx. apply nth_error_Some. rewrite Hi. discriminate. }
  split.
  - intros Hlay T Ht.
    assert (HT : 0 < T < pixel_limit).
    { apply (is_target_bounds (adjustSizeSelected s) T imgs height); [|exact Ht].
      eapply Forall_impl; [|exact Hall]. intros a [_ Ha]. exact Ha. }
    assert (Hwide : Forall (fun d => 2 * height d <= T * width d) imgs -> stored).
    { intros Hw. apply (stitchImages_drawn env s imgs Hd Hl Hc).
      apply drawable_nth. intros i src Hi.
      destruct (nth_of_adjusted env s imgs i src Hi) as [d Hid].
      destruct (resized_Horizontal env s imgs T i d Hall Hlay Ht Hid (Hscr i d Hid))
        as [c [Ec [Hh Hb]]].
      rewrite Ec in Hi. injection Hi as <-.
      destruct (nth_decodable imgs i d Hall Hid) as [Hwd Hhd].
      rewrite Forall_forall in Hw. specialize (Hw d (nth_error_In _ _ Hid)).
      pose proof (pixels_some _ _ _ _ (proj1 Hhd) (proj2 Hb) Hw) as Hpos.
      simpl. rewrite Hh.
      destruct (Z.eqb_spec (sc_width c) 0) as [E|_]; [lia|].
      destruct (Z.eqb_spec T 0) as [E|_]; [lia|]. reflexivity. }
    split; [|split].
    + intros Hex. apply Exists_exists in Hex. destruct Hex as [d [Hin Hthin]].
      destruct (In_nth_error _ _ Hin) as [i Hid].
      destruct (resized_Horizontal env s imgs T i d Hall Hlay Ht Hid (Hscr i d Hid))
        as [c [Ec [Hh Hb]]].
      destruct (nth_decodable imgs i d Hall Hid) as [Hwd Hhd].
      apply (stitchImages_refused env s imgs Hd Hl Hc).
      apply (not_drawable_nth _ i (CanvasEl c) Ec). simpl.
      rewrite (pixels_none _ _ _ _ (proj1 HT) (proj1 Hwd) (proj1 Hhd) Hb Hthin).
      reflexivity.
    + exact Hwide.
    + intros Hmax Hw. apply Hwide.
      destruct Ht as [[E _] | [_ [_ Hm]]]; [rewrite Hmax in E; discriminate E|].
      rewrite Forall_forall in Hm, Hw. apply Forall_forall. intros d Hin.
      specialize (Hw d Hin). specialize (Hm (height d) (in_map height _ _ Hin)).
      rewrite Forall_forall in Hall. destruct (Hall d Hin) as [Hwd Hhd]. nia.
  - intros Hlay T Ht.
    assert (HT : 0 < T < pixel_limit).
    { apply (is_target_bounds (adjustSizeSelected s) T imgs width); [|exact Ht].
      eapply Forall_impl; [|exact Hall]. intros a [Ha _]. exact Ha. }
    assert (Hwide : Forall (fun d => 2 * width d <= T * height d) imgs -> stored).
    { intros Hw. apply (stitchImages_drawn env s imgs Hd Hl Hc).
      apply drawable_nth. intros i src Hi.
      destruct (nth_of_adjusted env s imgs i src Hi) as [d Hid].
      destruct (resized_Vertical env s imgs T i d Hall Hlay Ht Hid (Hscr i d Hid))
        as [c [Ec [Hh Hb]]].
      rewrite Ec in Hi. injection Hi as <-.
      destruct (nth_decodable imgs i d Hall Hid) as [Hwd Hhd].
      rewrite Forall_forall in Hw. specialize (Hw d (nth_error_In _ _ Hid)).
      pose proof (pixels_some _ _ _ _ (proj1 Hwd) (proj2 Hb) Hw) as Hpos.
      simpl. rewrite Hh.
      destruct (Z.eqb_spec T 0) as [E|_]; [lia|].
      destruct (Z.eqb_spec (sc_height c) 0) as [E|_]; [lia|]. reflexivity. }
    split; [|split].
    + intros Hex. apply Exists_exists in Hex. destruct Hex as [d [Hin Hthin]].
      destruct (In_nth_error _ _ Hin) as [i Hid].
      destruct (resized_Vertical env s imgs T i d Hall Hlay Ht Hid (Hscr i d Hid))
        as [c [Ec [Hh Hb]]].
      destruct (nth_decodable imgs i d Hall Hid) as [Hwd Hhd].
      apply (stitchImages_refused env s imgs Hd Hl Hc).
      apply (not_drawable_nth _ i (CanvasEl c) Ec). simpl.
      rewrite (pixels_none _ _ _ _ (proj1 HT) (proj1 Hhd) (proj1 Hwd) Hb Hthin).
      rewrite orb_true_r. reflexivity.
    + exact Hwide.
    + intros Hmax Hw. apply Hwide.
      destruct Ht as [[E _] | [_ [_ Hm]]]; [rewrite Hmax in E; discriminate E|].
      rewrite Forall_forall in Hm, Hw. apply Forall_forall. intros d Hin.
      specialize (Hw d Hin). specialize (Hm (width d) (in_map width _ _ Hin)).
      rewrite Forall_forall in Hall. destruct (Hall d Hin) as [Hwd Hhd]. nia.
Qed.

Lemma narrow_image_fails_the_composite_witness :
  is_target "Min" 49 (map height [image_G; image_F])
  /\ stitchImages browser narrow_images
     = (Normal tt,
        set_isStitching false
          (push_toast (stitching_failed (refused browser)) narrow_images))
  /\ stitchImages browser configured
     = (Normal tt,
        set_isStitching false
          (set_stitchedImageUrl
             (toDataURL browser (canvas_of browser configured [image_A; image_B]))
             configured)).
Proof.
  assert (Ht : is_target "Min" 49 (map height [image_G; image_F])).
  { left. split; [reflexivity|]. split; [right; left; reflexivity|].
    repeat constructor; simpl; lia. }
  assert (Ht' : is_target "Max" 60 (map height [image_A; image_B])).
  { right. split; [reflexivity|]. split; [right; left; reflexivity|].
    repeat constructor; simpl; lia. }
  assert (Hd : Forall decodable [image_G; image_F]).
  { repeat constructor; unfold pixel_limit; simpl; lia. }
  assert (Hd' : Forall decodable [image_A; image_B]).
  { repeat constructor; unfold pixel_limit; simpl; lia. }
  split; [exact Ht|]. split.
  - apply (proj1 (proj1 (narrow_image_fails_the_composite browser narrow_images
                           [image_G; image_F] eq_refl (le_n 2) eq_refl
                           (fun _ _ => eq_refl) Hd) eq_refl 49 Ht)).
    apply Exists_cons_hd. simpl. lia.
  - apply (proj1 (proj2 (proj1 (narrow_image_fails_the_composite browser configured
                           [image_A; image_B] eq_refl (le_n 2) eq_refl
                           (fun _ _ => eq_refl) Hd') eq_refl 60 Ht'))).
    repeat constructor; simpl; lia.
Defined.





(** The canvas of a composite that [render] has drawn. *)
Lemma render_canvas (env : Env) (s : State) (imgs : list UploadedImage)
    (canvas : Canvas) :
  all_defined (uploadedImages s) = Some imgs ->
  fst (render env s) = Normal canvas ->
  canvas = canvas_of env s imgs /\ drawable (adjusted_of env s imgs).
Proof.
  intros Hd Hr.
  destruct (render_outcome env s)
    as [[_ R] | [[_ [_ R]] | [[i [_ [_ [_ R]]]] | [imgs' [_ [D [Hu R]]]]]]];
    rewrite R in Hr; try discriminate Hr.
  rewrite Hd in D. injection D as <-. injection Hr as <-. split; [reflexivity|exact Hu].
Qed.

(** The draw calls among the calls made on the output canvas. *)
Lemma canvas_of_draw (env : Env) (s : State) (imgs : list UploadedImage)
    (k : nat) (src : ImageSource) (x y : Z) :
  nth_error (canvas_ops (canvas_of env s imgs)) k = Some (DrawImage src x y) ->
  exists i,
    nth_error (draw_calls (layoutSelected s) (adjusted_of env s imgs) 0 0) i
      = Some (DrawImage src x y)
    /\ (k = i \/ k = S i)
    /\ forall k' src' x' y',
         (k < k')%nat ->
         nth_error (canvas_ops (canvas_of env s imgs)) k'
           = Some (DrawImage src' x' y') ->
         exists i',
           nth_error (draw_calls (layoutSelected s) (adjusted_of env s imgs) 0 0) i'
             = Some (DrawImage src' x' y')
           /\ (i < i')%nat.
Proof.
  intros Hk. rewrite (canvas_of_ops env s imgs) in *.
  remember (background_fill (backgroundSelected s) (backgroundColor s)
              (fst (canvas_dimensions (layoutSelected s) (adjusted_of env s imgs)))
              (snd (canvas_dimensions (layoutSelected s) (adjusted_of env s imgs))))
    as fill eqn:Efill.
  assert (Hfill : fill = [] \/ exists c a b w h, fill = [FillRect c a b w h]).
  { rewrite Efill. unfold background_fill.
    destruct (backgroundSelected s =? "Color")%string; [right; eauto 6 | left; reflexivity]. }
  clear Efill. destruct Hfill as [E | [c [a [b [w [h E]]]]]]; subst fill.
  - exists k. simpl in Hk. split; [exact Hk|]. split; [left; reflexivity|].
    intros k' src' x' y' Hlt Hk'. exists k'. simpl in Hk'. split; [exact Hk' | exact Hlt].
  - destruct k as [|k]; [discriminate Hk|]. exists k. simpl in Hk.
    split; [exact Hk|]. split; [right; reflexivity|].
    intros k' src' x' y' Hlt Hk'. destruct k' as [|k']; [lia|].
    exists k'. simpl in Hk'. split; [exact Hk' | lia].
Qed.

(** Which image a call of the placement loop draws, and where. *)
Lemma draw_call_position (layout : string) (adjusted : list ImageSource)
    (i : nat) (src : ImageSource) (x y : Z) :
  nth_error (draw_calls layout adjusted 0 0) i = Some (DrawImage src x y) ->
  nth_error adjusted i = Some src
  /\ (layout = "Horizontal" ->
        x = Zsum (firstn i (map src_width adjusted)) /\ y = 0)
  /\ (layout <> "Horizontal" ->
        x = 0 /\ y = Zsum (firstn i (map src_height adjusted))).
Proof.
  intros Hi.
  assert (Hlt : (i < List.length adjusted)%nat).
  { rewrite <- (draw_calls_length layout adjusted 0 0). apply nth_error_Some.
    rewrite Hi. discriminate. }
  destruct (nth_error adjusted i) as [src'|] eqn:E;
    [|apply nth_error_None in E; lia].
  destruct (layout =? "Horizontal")%string eqn:Hlay.
  - apply String.eqb_eq in Hlay. subst layout.
    rewrite (draw_calls_Horizontal adjusted 0 0 i src' E) in Hi.
    injection Hi as -> <- <-. split; [reflexivity|]. split.
    + intros _. rewrite firstn_map. split; [lia | reflexivity].
    + intros H. contradiction H. reflexivity.
  - rewrite (draw_calls_other layout adjusted 0 0 i src' Hlay E) in Hi.
    injection Hi as -> <- <-. split; [reflexivity|]. split.
    + intros ->. discriminate Hlay.
    + intros _. rewrite firstn_map. split; [reflexivity | lia].
Qed.






(** X8. With the policy Min or Max and a context on every scratch
    canvas, a composite that is drawn with the layout Horizontal has the
    least, or the greatest, height of the images as the height of its
    output canvas, and every image drawn has that height and starts at the
    top: each spans the canvas from edge to edge.  For the layout Vertical
    the same holds of the widths. *)
Theorem resized_images_span_the_canvas (env : Env) (s : State)
    (imgs : list UploadedImage) (canvas : Canvas) :
  all_defined (uploadedImages s) = Some imgs ->
  (2 <= List.length imgs)%nat ->
  (forall i, (i < List.length imgs)%nat -> scratch_context env i = true) ->
  Forall decodable imgs ->
  fst (render env s) = Normal canvas ->
  (layoutSelected s = "Horizontal" ->
     forall T, is_target (adjustSizeSelected s) T (map height imgs) ->
       canvas_height canvas = T
       /\ forall src x y,
            In (DrawImage src x y) (canvas_ops canvas) ->
            y = 0 /\ src_height src = T)
  /\ (layoutSelected s = "Vertical" ->
        forall T, is_target (adjustSizeSelected s) T (map width imgs) ->
          canvas_width canvas = T
          /\ forall src x y,
               In (DrawImage src x y) (canvas_ops canvas) ->
               x = 0 /\ src_width src = T).
Proof.
  intros Hd Hl Hctx Hall Hr.
  destruct (render_canvas env s imgs canvas Hd Hr) as [-> _].
  assert (Hscr : forall i d, nth_error imgs i = Some d -> scratch_context env i = true).
  { intros i d Hi. apply Hctx. apply nth_error_Some. rewrite Hi. discriminate. }
  split; intros Hlay T Ht.
  - assert (HT : 0 < T < pixel_limit).
    { apply (is_target_bounds (adjustSizeSelected s) T imgs height); [|exact Ht].
      eapply Forall_impl; [|exact Hall]. intros a [_ Ha]. exact Ha. }
    assert (Heach : forall i src, nth_error (adjusted_of env s imgs) i = Some src ->
                                  src_height src = T).
    { intros i src Hi. destruct (nth_of_adjusted env s imgs i src Hi) as [d Hid].
      destruct (resized_Horizontal env s imgs T i d Hall Hlay Ht Hid (Hscr i d Hid))
        as [c [Ec [Hh _]]].
      rewrite Ec in Hi. injection Hi as <-. exact Hh. }
    split.
    + destruct (canvas_of_Horizontal env s imgs Hl Hlay)
        as [H [[Hin _] [_ [_ EH]]]].
      apply in_map_iff in Hin. destruct Hin as [src [E Hin]].
      destruct (In_nth_error _ _ Hin) as [i Hi].
      rewrite EH, <- E, (Heach i src Hi). apply to_dim_of_Z.
      unfold pixel_limit in HT. change (2 ^ 15) with 32768 in HT. lia.
    + intros src x y Hin. destruct (In_nth_error _ _ Hin) as [k Hk].
      destruct (canvas_of_draw env s imgs k src x y Hk) as [i [Hi _]].
      destruct (draw_call_position _ _ i src x y Hi) as [Hsrc [Hh _]].
      split; [exact (proj2 (Hh Hlay)) | exact (Heach i src Hsrc)].
  - assert (HT : 0 < T < pixel_limit).
    { apply (is_target_bounds (adjustSizeSelected s) T imgs width); [|exact Ht].
      eapply Forall_impl; [|exact Hall]. intros a [Ha _]. exact Ha. }
    assert (Hother : (layoutSelected s =? "Horizontal")%string = false)
      by (rewrite Hlay; reflexivity).
    assert (Hne : layoutSelected s <> "Horizontal")
      by (rewrite Hlay; discriminate).
    assert (Heach : forall i src, nth_error (adjusted_of env s imgs) i = Some src ->
                                  src_width src = T).
    { intros i src Hi. destruct (nth_of_adjusted env s imgs i src Hi) as [d Hid].
      destruct (resized_Vertical env s imgs T i d Hall Hlay Ht Hid (Hscr i d Hid))
        as [c [Ec [Hw _]]].
      rewrite Ec in Hi. injection Hi as <-. exact Hw. }
    split.
    + destruct (canvas_of_Vertical env s imgs Hl Hother)
        as [W [[Hin _] [_ [EW _]]]].
      apply in_map_iff in Hin. destruct Hin as [src [E Hin]].
      destruct (In_nth_error _ _ Hin) as [i Hi].
      rewrite EW, <- E, (Heach i src Hi). apply to_dim_of_Z.
      unfold pixel_limit in HT. change (2 ^ 15) with 32768 in HT. lia.
    + intros src x y Hin. destruct (In_nth_error _ _ Hin) as [k Hk].
      destruct (canvas_of_draw env s imgs k src x y Hk) as [i [Hi _]].
      destruct (draw_call_position _ _ i src x y Hi) as [Hsrc [_ Hv]].
      split; [exact (proj1 (Hv Hne)) | exact (Heach i src Hsrc)].
Qed.

Lemma resized_images_span_the_canvas_witness :
  is_target "Max" 60 (map height [image_A; image_B])
  /\ canvas_height (canvas_of browser configured [image_A; image_B]) = 60
  /\ (forall src x y,
        In (DrawImage src x y)
          (canvas_ops (canvas_of browser configured [image_A; image_B])) ->
        y = 0 /\ src_height src = 60).
Proof.
  assert (Hr : fst (render browser configured)
               = Normal (canvas_of browser configured [image_A; image_B]))
    by (vm_compute; reflexivity).
  assert (Hd : Forall decodable [image_A; image_B]).
  { repeat constructor; unfold pixel_limit; simpl; lia. }
  assert (Ht : is_target "Max" 60 (map height [image_A; image_B])).
  { right. split; [reflexivity|]. split; [right; left; reflexivity|].
    repeat constructor; simpl; lia. }
  split; [exact Ht|].
  exact (proj1 (resized_images_span_the_canvas browser configured
                  [image_A; image_B] _ eq_refl (le_n 2) (fun _ _ => eq_refl) Hd Hr)
           eq_refl 60 Ht).
Defined.

(* ===================================================================== *)
(** ** The template and the handlers *)
(* ===================================================================== *)

(** X9. For the image at a position of the list, the "Move Up" button is
    disabled exactly where [moveImageUp] would do nothing and "Move Down"
    exactly where [moveImageDown] would do nothing; a button that is
    enabled exchanges the image with its neighbour. *)
Theorem move_buttons_match_handlers (env : Env) (s : State) (index : Z) :
  0 <= index < Z.of_nat (List.length (uploadedImages s)) ->
  (move_up_disabled index = true -> moveImageUp index env s = (Normal tt, s))
  /\ (move_up_disabled index = false ->
        exists pre a b post,
          uploadedImages s = pre ++ a :: b :: post
          /\ Z.of_nat (List.length pre) = index - 1
          /\ uploadedImages (exec (moveImageUp index) env s)
             = pre ++ b :: a :: post)
  /\ (move_down_disabled s index = true ->
        moveImageDown index env s = (Normal tt, s))
  /\ (move_down_disabled s index = false ->
        exists pre a b post,
          uploadedImages s = pre ++ a :: b :: post
          /\ Z.of_nat (List.length pre) = index
          /\ uploadedImages (exec (moveImageDown index) env s)
             = pre ++ b :: a :: post).
Proof.
  intros H. unfold move_up_disabled, move_down_disabled.
  split; [|split; [|split]].
  - intros E. apply Z.eqb_eq in E. apply moveImageUp_skip. lia.
  - intros E. apply Z.eqb_neq in E. apply moveImageUp_in_range. lia.
  - intros E. apply Z.eqb_eq in E. apply moveImageDown_skip. lia.
  - intros E. apply Z.eqb_neq in E. apply moveImageDown_in_range. lia.
Qed.

Lemma move_buttons_match_handlers_witness :
  move_up_disabled 0 = true
  /\ moveImageUp 0 browser two_images = (Normal tt, two_images)
  /\ move_down_disabled two_images 1 = true
  /\ moveImageDown 1 browser two_images = (Normal tt, two_images).
Proof.
  assert (H0 : 0 <= 0 < Z.of_nat (List.length (uploadedImages two_images)))
    by (simpl; lia).
  assert (H1 : 0 <= 1 < Z.of_nat (List.length (uploadedImages two_images)))
    by (simpl; lia).
  destruct (move_buttons_match_handlers browser two_images 0 H0) as [W0 _].
  destruct (move_buttons_match_handlers browser two_images 1 H1) as [_ [_ [W1 _]]].
  split; [reflexivity|]. split; [exact (W0 eq_refl)|].
  split; [reflexivity | exact (W1 eq_refl)].
Defined.

(** X10. The card with the layout, background and policy controls is
    shown exactly when a composite call gets past its check on the number
    of images, so no control of that card can bring up "Insufficient
    Images"; and the Download button is shown exactly when a click on it
    starts a download. *)
Theorem shown_controls_match_handlers (env : Env) (s : State) :
  (controls_shown s = true <->
     toasts (exec stitchImages env s) <> toasts s ++ [insufficient_images])
  /\ (controls_shown s = false <->
        stitchImages env s = (Normal tt, push_toast insufficient_images s))
  /\ (download_shown s = true <->
        downloads (exec downloadStitchedImage env s)
        = downloads s
            ++ [mkDownload (stitchedImageUrl s)
                  ("stitched-image-" ++ Z_to_string (date_now env) ++ ".png")%string])
  /\ (download_shown s = false <->
        downloads (exec downloadStitchedImage env s) = downloads s).
Proof.
  assert (Hneq : forall (l : list Toast) (t u : Toast),
             severity t <> severity u \/ summary t <> summary u ->
             l ++ [t] <> l ++ [u]).
  { intros l t u Hd E. apply app_inv_head in E. injection E as E.
    subst u. destruct Hd as [Hd|Hd]; apply Hd; reflexivity. }
  assert (Hgrow : forall (A : Type) (l : list A) (x : A), l ++ [x] <> l).
  { intros A l x E. apply (f_equal (@List.length A)) in E.
    rewrite length_app in E. simpl in E. lia. }
  unfold controls_shown, download_shown, exec.
  split; [|split; [|split]].
  - destruct (Nat.lt_ge_cases (List.length (uploadedImages s)) 2) as [Hfew|Hmany].
    + rewrite (stitchImages_insufficient env s Hfew). cbn [snd push_toast toasts].
      split; [intros E; apply Nat.leb_le in E; lia | intros E; contradiction E; reflexivity].
    + rewrite (stitchImages_attempt env s Hmany).
      split; [intros _|intros _; apply Nat.leb_le; exact Hmany].
      destruct (fst (render env (set_isStitching true s))) as [c|e];
        cbn [snd push_toast set_isStitching set_stitchedImageUrl toasts].
      * intros E. symmetry in E. exact (Hgrow _ _ _ E).
      * apply Hneq. right. discriminate.
  - destruct (Nat.lt_ge_cases (List.length (uploadedImages s)) 2) as [Hfew|Hmany].
    + rewrite (stitchImages_insufficient env s Hfew).
      split; [reflexivity | intros _; apply Nat.leb_gt; exact Hfew].
    + rewrite (stitchImages_attempt env s Hmany).
      split; [intros E; apply Nat.leb_gt in E; lia|].
      intros E. exfalso. injection E as E.
      destruct (fst (render env (set_isStitching true s))) as [c|e].
      * apply (f_equal toasts) in E.
        cbn [push_toast set_isStitching set_stitchedImageUrl toasts] in E.
        symmetry in E. exact (Hgrow _ _ _ E).
      * apply (f_equal toasts) in E.
        cbn [push_toast set_isStitching toasts] in E.
        revert E. apply Hneq. right. discriminate.
  - destruct (stitchedImageUrl s =? "")%string eqn:E.
    + apply String.eqb_eq in E.
      rewrite (download_without_output env s E). cbn [snd push_toast downloads negb].
      split; [discriminate|]. intros E'. symmetry in E'.
      exfalso. exact (Hgrow _ _ _ E').
    + apply String.eqb_neq in E.
      rewrite (download_with_output env s E).
      cbn [snd push_toast push_download downloads negb].
      split; reflexivity.
  - destruct (stitchedImageUrl s =? "")%string eqn:E.
    + apply String.eqb_eq in E.
      rewrite (download_without_output env s E). cbn [snd push_toast downloads negb].
      split; reflexivity.
    + apply String.eqb_neq in E.
      rewrite (download_with_output env s E).
      cbn [snd push_toast push_download downloads negb].
      split; [discriminate|]. intros E'. exfalso. exact (Hgrow _ _ _ E').
Qed.

Lemma prefix_hash (c : string) : prefix "#" ("#" ++ c) = true.
Proof. simpl. destruct c; reflexivity. Qed.

(** X11. The colour handed to [fillStyle] always begins with "#", and
    handing it through the same lines again changes nothing.  The colour
    the template shows as current is that colour exactly when the stored
    value is not empty and has no leading "#": for a stored value with a
    leading "#", as the component starts with, the template shows two. *)
Theorem fill_color_begins_with_hash (s : State) :
  prefix "#" (fill_color (backgroundColor s)) = true
  /\ fill_color (fill_color (backgroundColor s)) = fill_color (backgroundColor s)
  /\ (displayed_color s = fill_color (backgroundColor s) <->
        backgroundColor s <> ""%string
        /\ prefix "#" (backgroundColor s) = false).
Proof.
  assert (Hfc : forall c, prefix "#" (fill_color c) = true).
  { intros c. unfold fill_color.
    destruct (c =? "")%string; [reflexivity|].
    destruct (prefix "#" c) eqn:E; [exact E | apply prefix_hash]. }
  assert (Hcons : forall a b c : string, ("#" ++ a)%string = ("#" ++ b)%string -> a = b).
  { intros a b _ E. simpl in E. injection E as E. exact E. }
  split; [apply Hfc|]. split.
  - pose proof (Hfc (backgroundColor s)) as H.
    set (c := fill_color (backgroundColor s)) in *.
    unfold fill_color at 1.
    destruct (c =? "")%string eqn:E.
    + apply String.eqb_eq in E. rewrite E in H. discriminate H.
    + rewrite H. reflexivity.
  - unfold displayed_color, fill_color.
    destruct (backgroundColor s =? "")%string eqn:E.
    + apply String.eqb_eq in E. rewrite E. simpl.
      split; [discriminate | intros [H _]; contradiction H; reflexivity].
    + apply String.eqb_neq in E.
      destruct (prefix "#" (backgroundColor s)) eqn:P.
      * split; [|intros [_ H]; discriminate H].
        intros H. exfalso.
        apply (f_equal String.length) in H. simpl in H. lia.
      * split; [intros _; split; [exact E | reflexivity] | reflexivity].
Qed.

(* ===================================================================== *)
(** ** Moving back, removing and clearing *)
(* ===================================================================== *)

Lemma app_same_length {A} (p p' : list A) (x x' : list A) :
  List.length p = List.length p' -> p ++ x = p' ++ x' -> p = p' /\ x = x'.
Proof.
  revert p'. induction p as [|a p IH]; intros [|a' p'] Hl E;
    simpl in Hl; try discriminate.
  - split; [reflexivity | exact E].
  - simpl in E. injection E as -> E. injection Hl as Hl.
    destruct (IH p' Hl E) as [-> ->]. split; reflexivity.
Qed.

Lemma moveImageUp_keeps_length (env : Env) (s : State) (index : Z) :
  0 < index < Z.of_nat (List.length (uploadedImages s)) ->
  List.length (uploadedImages (exec (moveImageUp index) env s))
  = List.length (uploadedImages s).
Proof.
  intros H.
  destruct (moveImageUp_in_range env s index H) as [pre [a [b [post [E [_ E']]]]]].
  rewrite E', E, !length_app. reflexivity.
Qed.

Lemma moveImageDown_keeps_length (env : Env) (s : State) (index : Z) :
  0 <= index < Z.of_nat (List.length (uploadedImages s)) - 1 ->
  List.length (uploadedImages (exec (moveImageDown index) env s))
  = List.length (uploadedImages s).
Proof.
  intros H.
  destruct (moveImageDown_in_range env s index H) as [pre [a [b [post [E [_ E']]]]]].
  rewrite E', E, !length_app. reflexivity.
Qed.

(** X12. Moving an image up and then moving the image at the position
    above back down brings the list back to its order, and so does moving
    down and then up, whatever the composites in between do. *)
Theorem moving_back_restores_the_order (env env' : Env) (s : State) (index : Z) :
  (0 < index < Z.of_nat (List.length (uploadedImages s)) ->
     uploadedImages
       (exec (moveImageDown (index - 1)) env' (exec (moveImageUp index) env s))
     = uploadedImages s)
  /\ (0 <= index < Z.of_nat (List.length (uploadedImages s)) - 1 ->
        uploadedImages
          (exec (moveImageUp (index + 1)) env' (exec (moveImageDown index) env s))
        = uploadedImages s).
Proof.
  split; intros H.
  - destruct (moveImageUp_in_range env s index H) as [pre [a [b [post [E [Hl E']]]]]].
    pose proof (moveImageUp_keeps_length env s index H) as Hlen.
    destruct (moveImageDown_in_range env' (exec (moveImageUp index) env s) (index - 1))
      as [pre2 [a2 [b2 [post2 [E2 [Hl2 E2']]]]]]; [rewrite Hlen; lia|].
    rewrite E2', E. rewrite E' in E2.
    destruct (app_same_length pre pre2 _ _ ltac:(lia) E2) as [<- E3].
    injection E3 as <- <- <-. reflexivity.
  - destruct (moveImageDown_in_range env s index H) as [pre [a [b [post [E [Hl E']]]]]].
    pose proof (moveImageDown_keeps_length env s index H) as Hlen.
    destruct (moveImageUp_in_range env' (exec (moveImageDown index) env s) (index + 1))
      as [pre2 [a2 [b2 [post2 [E2 [Hl2 E2']]]]]]; [rewrite Hlen; lia|].
    rewrite E2', E. rewrite E' in E2.
    destruct (app_same_length pre pre2 _ _ ltac:(lia) E2) as [<- E3].
    injection E3 as <- <- <-. reflexivity.
Qed.

Lemma moving_back_restores_the_order_witness :
  uploadedImages
    (exec (moveImageDown 0) browser (exec (moveImageUp 1) browser two_images))
  = [Some image_A; Some image_B].
Proof.
  apply (proj1 (moving_back_restores_the_order browser browser two_images 1)).
  simpl. lia.
Defined.

Lemma removeImage_list (env : Env) (s : State) (index : Z) :
  uploadedImages (exec (removeImage index) env s)
  = JSArray.splice1 (uploadedImages s) index.
Proof.
  unfold exec. rewrite (removeImage_run env s index). cbv zeta.
  match goal with
  | |- uploadedImages (snd (stitchImages env ?t)) = _ =>
      change (snd (stitchImages env t)) with (exec stitchImages env t)
  end.
  rewrite stitchImages_keeps_images.
  destruct (List.length _ =? 0)%nat; reflexivity.
Qed.

(** X13. [removeImage] takes out the entry at the index and keeps the
    others in their order; an index at or past the end takes out nothing;
    a negative index counts from the end, and one before the start takes
    out the first entry. *)
Theorem removeImage_takes_one_entry (env : Env) (s : State) (index : Z) :
  let arr := uploadedImages s in
  let n := Z.of_nat (List.length arr) in
  let arr' := uploadedImages (exec (removeImage index) env s) in
  (0 <= index < n ->
     arr' = firstn (Z.to_nat index) arr ++ skipn (S (Z.to_nat index)) arr
     /\ Z.of_nat (List.length arr') = n - 1)
  /\ (n <= index -> arr' = arr)
  /\ (- n <= index < 0 ->
        arr' = firstn (Z.to_nat (n + index)) arr
                 ++ skipn (S (Z.to_nat (n + index))) arr
        /\ Z.of_nat (List.length arr') = n - 1)
  /\ (index < - n -> arr' = skipn 1 arr).
Proof.
  intros arr n arr'. subst arr'. rewrite removeImage_list. fold arr.
  unfold JSArray.splice1. fold n.
  split; [|split; [|split]].
  - intros H. destruct (index <? 0) eqn:E; [apply Z.ltb_lt in E; lia|].
    replace (Z.min index n) with index by lia.
    replace (Z.min 1 (n - index)) with 1 by lia.
    replace (Z.to_nat (index + 1)) with (S (Z.to_nat index)) by lia.
    split; [reflexivity|].
    rewrite length_app, length_firstn, length_skipn. subst n. lia.
  - intros H. destruct (index <? 0) eqn:E; [apply Z.ltb_lt in E; lia|].
    replace (Z.min index n) with n by lia.
    replace (Z.min 1 (n - n)) with 0 by lia.
    replace (n + 0) with n by lia. subst n. rewrite Nat2Z.id.
    rewrite firstn_all, skipn_all. apply app_nil_r.
  - intros H. destruct (index <? 0) eqn:E; [|apply Z.ltb_ge in E; lia].
    replace (Z.max (n + index) 0) with (n + index) by lia.
    replace (Z.min 1 (n - (n + index))) with 1 by lia.
    replace (Z.to_nat (n + index + 1)) with (S (Z.to_nat (n + index))) by lia.
    split; [reflexivity|].
    rewrite length_app, length_firstn, length_skipn. subst n. lia.
  - intros H. destruct (index <? 0) eqn:E; [|apply Z.ltb_ge in E; lia].
    replace (Z.max (n + index) 0) with 0 by lia.
    destruct arr as [|x rest] eqn:Earr.
    + reflexivity.
    + replace (Z.min 1 (n - 0)) with 1 by (subst n; cbn [List.length]; lia).
      reflexivity.
Qed.

Lemma removeImage_takes_one_entry_witness :
  uploadedImages (exec (removeImage 0) browser two_images) = [Some image_B]
  /\ uploadedImages (exec (removeImage (-1)) browser two_images) = [Some image_A]
  /\ uploadedImages (exec (removeImage 2) browser two_images)
     = [Some image_A; Some image_B].
Proof.
  pose proof (removeImage_takes_one_entry browser two_images 0) as W0.
  pose proof (removeImage_takes_one_entry browser two_images (-1)) as W1.
  pose proof (removeImage_takes_one_entry browser two_images 2) as W2.
  cbv zeta in W0, W1, W2.
  destruct W0 as [W0 _]. destruct W1 as [_ [_ [W1 _]]]. destruct W2 as [_ [W2 _]].
  split; [|split].
  - apply W0. simpl. lia.
  - apply W1. simpl. lia.
  - apply W2. simpl. lia.
Defined.

(** X14. Clearing empties the list and the stored output, leaves one "Files
    Cleared" notification and keeps the layout, the background, the colour
    and the policy (removing the last image resets two of them); a click
    on Download right after it starts no download and is answered with
    "No Image". *)
Theorem clearing_empties_list_and_output (env env' : Env) (s : State) :
  let s' := exec onFileClear env s in
  let s'' := exec downloadStitchedImage env' s' in
  onFileClear env s = (Normal tt, s')
  /\ uploadedImages s' = []
  /\ stitchedImageUrl s' = ""
  /\ toasts s' = toasts s ++ [files_cleared]
  /\ layoutSelected s' = layoutSelected s
  /\ backgroundSelected s' = backgroundSelected s
  /\ backgroundColor s' = backgroundColor s
  /\ adjustSizeSelected s' = adjustSizeSelected s
  /\ isStitching s' = isStitching s
  /\ downloads s'' = downloads s
  /\ toasts s'' = toasts s ++ [files_cleared; no_image].
Proof.
  intros s' s''. subst s'' s'. unfold exec.
  assert (E : onFileClear env s
              = (Normal tt,
                 push_toast files_cleared
                   (set_stitchedImageUrl "" (set_uploadedImages [] s))))
    by reflexivity.
  rewrite E. cbn [snd].
  rewrite download_without_output by reflexivity.
  cbn [snd push_toast set_stitchedImageUrl set_uploadedImages uploadedImages
       stitchedImageUrl toasts layoutSelected backgroundSelected backgroundColor
       adjustSizeSelected isStitching downloads].
  rewrite <- app_assoc.
  repeat (split; [reflexivity|]). reflexivity.
Qed.

(* ===================================================================== *)
(** ** A composite suspended while the list changes *)
(* ===================================================================== *)

Lemma splice1_shorter {A} (arr : JSArray.array A) (index : Z) :
  index < Z.of_nat (List.length arr) ->
  arr <> [] ->
  S (List.length (JSArray.splice1 arr index)) = List.length arr.
Proof.
  intros Hi Hne. unfold JSArray.splice1.
  assert (Hlen : 0 < Z.of_nat (List.length arr)).
  { destruct arr; [contradiction Hne; reflexivity | cbn [List.length]; lia]. }
  set (n := Z.of_nat (List.length arr)) in *. cbv zeta.
  destruct (index <? 0) eqn:E.
  - apply Z.ltb_lt in E.
    set (from := Z.max (n + index) 0).
    replace (Z.min 1 (n - from)) with 1 by lia.
    rewrite length_app, length_firstn, length_skipn. lia.
  - apply Z.ltb_ge in E.
    replace (Z.min index n) with index by lia.
    replace (Z.min 1 (n - index)) with 1 by lia.
    rewrite length_app, length_firstn, length_skipn. lia.
Qed.

(** What the part after the [await] draws for the images [imgs], in the
    state in which it resumes. *)
Lemma resumed_drawn (env : Env) (s : State) (imgs : list UploadedImage) :
  drawable (adjusted_of env s imgs) ->
  resumed env s (Normal (map load_image imgs)) = Normal (canvas_of env s imgs).
Proof.
  intros Hu. unfold resumed, compose, canvas_of. fold (adjusted_of env s imgs).
  destruct (canvas_dimensions (layoutSelected s) (adjusted_of env s imgs)) as [tw th].
  rewrite (draw_images_accepted _ _ _ 0 0 Hu). reflexivity.
Qed.

(** X15. A composite call reads the image list before its [await] and
    the settings after it: the part after the [await] draws the images
    the list held when the call started, with the layout, the policy and
    the background of the state in which it resumes.  So a composite that
    is suspended while the list is cleared, or while an image is removed
    from a list of two, still stores its output, and the stored output is
    then a composite of images that are no longer in the list. *)
Theorem suspended_composite_stores_old_images (env : Env) (s : State)
    (imgs : list UploadedImage) :
  all_defined (uploadedImages s) = Some imgs ->
  (2 <= List.length imgs)%nat ->
  output_context env = true ->
  exists settled,
    stitchImages_begin env s = (Normal (Some settled), set_isStitching true s)
    /\ (forall s2,
          drawable (adjusted_of env s2 imgs) ->
          stitchImages_resume settled env s2
          = (Normal tt,
             set_isStitching false
               (set_stitchedImageUrl (toDataURL env (canvas_of env s2 imgs)) s2)))
    /\ (drawable (adjusted_of env s imgs) ->
          let s' := exec (stitchImages_resume settled) env
                      (exec onFileClear env (set_isStitching true s)) in
          uploadedImages s' = []
          /\ stitchedImageUrl s' = toDataURL env (canvas_of env s imgs))
    /\ (drawable (adjusted_of env s imgs) ->
          List.length imgs = 2%nat ->
          forall index,
            index < 2 ->
            let s' := exec (stitchImages_resume settled) env
                        (exec (removeImage index) env (set_isStitching true s)) in
            List.length (uploadedImages s') = 1%nat
            /\ stitchedImageUrl s' = toDataURL env (canvas_of env s imgs)).
Proof.
  intros Hd Hl Hc.
  assert (Hlen : (2 <= List.length (uploadedImages s))%nat)
    by (rewrite <- (all_defined_length _ _ Hd); exact Hl).
  exists (Normal (map load_image imgs)).
  assert (Hresume : forall s2,
             drawable (adjusted_of env s2 imgs) ->
             stitchImages_resume (Normal (map load_image imgs)) env s2
             = (Normal tt,
                set_isStitching false
                  (set_stitchedImageUrl (toDataURL env (canvas_of env s2 imgs)) s2))).
  { intros s2 Hu. rewrite stitchImages_resume_run, (resumed_drawn env s2 imgs Hu).
    reflexivity. }
  split; [|split; [exact Hresume|split]].
  - rewrite (stitchImages_begin_suspended env s Hlen Hc).
    unfold settled_of. rewrite Hd. reflexivity.
  - intros Hu s'. subst s'. unfold exec.
    rewrite Hresume by exact Hu. split; reflexivity.
  - intros Hu Htwo index Hi s'. subst s'.
    set (s1 := set_isStitching true s).
    assert (Hlist : List.length (uploadedImages (exec (removeImage index) env s1))
                    = 1%nat).
    { rewrite removeImage_list.
      pose proof (splice1_shorter (uploadedImages s1) index) as Hs.
      assert (Hn : List.length (uploadedImages s1) = 2%nat)
        by (cbn [s1 uploadedImages set_isStitching];
            rewrite <- (all_defined_length _ _ Hd); exact Htwo).
      rewrite Hn in Hs.
      assert (uploadedImages s1 <> []) by (intros E; rewrite E in Hn; discriminate Hn).
      specialize (Hs ltac:(simpl; lia) ltac:(assumption)). lia. }
    assert (Hstate : exists toasts',
               exec (removeImage index) env s1
               = mkState (JSArray.splice1 (uploadedImages s) index) ""
                   true (layoutSelected s) (backgroundSelected s)
                   (backgroundColor s) (adjustSizeSelected s) toasts'
                   (downloads s)).
    { unfold exec. rewrite (removeImage_run env s1 index). cbv zeta.
      rewrite removeImage_list in Hlist.
      destruct (List.length (JSArray.splice1 (uploadedImages s1) index) =? 0)%nat
        eqn:E0; [apply Nat.eqb_eq in E0; lia|].
      rewrite stitchImages_insufficient
        by (cbn [uploadedImages set_stitchedImageUrl set_uploadedImages]; lia).
      eexists. reflexivity. }
    destruct Hstate as [toasts' Hstate].
    split.
    + unfold exec at 1. rewrite Hresume by (rewrite Hstate; exact Hu).
      exact Hlist.
    + unfold exec at 1. rewrite Hresume by (rewrite Hstate; exact Hu).
      rewrite Hstate. reflexivity.
Qed.

Lemma suspended_composite_stores_old_images_witness :
  drawable (adjusted_of browser two_images [image_A; image_B])
  /\ exists settled,
       stitchImages_begin browser two_images
       = (Normal (Some settled), set_isStitching true two_images)
       /\ List.length
            (uploadedImages
               (exec (stitchImages_resume settled) browser
                  (exec (removeImage 0) browser
                     (set_isStitching true two_images)))) = 1%nat
       /\ stitchedImageUrl
            (exec (stitchImages_resume settled) browser
               (exec (removeImage 0) browser (set_isStitching true two_images)))
          = "data:image/png;base64,180x60".
Proof.
  assert (Hu : drawable (adjusted_of browser two_images [image_A; image_B]))
    by reflexivity.
  split; [exact Hu|].
  destruct (suspended_composite_stores_old_images browser two_images
              [image_A; image_B] eq_refl (le_n 2) eq_refl)
    as [settled [Hbegin [_ [_ Hremove]]]].
  exists settled. split; [exact Hbegin|].
  destruct (Hremove Hu eq_refl 0 ltac:(lia)) as [Hlen Hurl].
  split; [exact Hlen|]. rewrite Hurl. reflexivity.
Defined.
